(** * Synchronization engine of the NSO backend: a shallow embedding

    Sources embedded here:
    - [src/routes/sync.js]     the upload, download, status, conflicts and
                               resolve-conflict handlers;
    - [src/models/SyncLog.js]  the SyncLog schema with its pre-save hook and
                               its instance methods, and the Diagnosis schema
                               with its pre-save hook;
    - [src/models/Activity.js] the Activity schema (fields read by the sync
                               routes).

    Conventions.
    - A JavaScript [Date] is its millisecond count, a [Z]; the result of
      [new Date(x)] on client input is a [JsDate], where [None] is the
      Invalid Date (its comparisons are all false).
    - The handlers are asynchronous but sequential: every [await] is a plain
      call, and the state they act on is passed explicitly.
    - The database is a record of lists (one per collection, in insertion
      order); a loaded document is the pair of its position and its value, and
      [save] writes the value back at that position.
    - Writes of the Session Ledger ([SyncLog.save]) are taken to succeed;
      writes and updates of the Record Store may be rejected (schema
      validation, duplicate key, ...), which the environment decides. *)

From Stdlib Require Import ZArith Lia.
From stdpp Require Import base option list gmap strings sorting.

Local Open Scope string_scope.
Local Open Scope list_scope.
Local Open Scope Z_scope.

(** ** Values *)

Definition Date := Z.
Definition JsDate := option Z.

(** [a < b] and [a > b] of JavaScript between a stored date and [new Date(x)]. *)
Definition date_lt (a : Date) (b : JsDate) : bool :=
  match b with
  | Some y => a <? y
  | None => false
  end.

Definition date_gt (a : Date) (b : JsDate) : bool :=
  match b with
  | Some y => a >? y
  | None => false
  end.

(** The [_id] of a stored document: the one the client sent in the item, when
    there is one, and a generated one otherwise. *)
Inductive DocId : Type :=
  | ClientId (s : string)
  | ServerId (n : nat).

#[global] Instance DocId_eq_dec : EqDecision DocId.
Proof. solve_decision. Defined.

Definition UserId := nat.

(** Truthiness of an optional string field: [undefined] and the empty string
    are falsy. *)
Definition truthy (o : option string) : bool :=
  match o with
  | Some s => negb (String.eqb s "")
  | None => false
  end.

(** [a || b] on optional strings. *)
Definition js_or (a b : option string) : option string :=
  if truthy a then a else b.

(** ** Client records

    One uploaded item, as the fields the handlers read; everything else the
    client sent travels in [item_rest]. *)
Record Item : Type := mkItem {
  item__id : option string;
  item_id : option string;
  item_sessionId : option string;
  item_activityType : option string;
  item_timestamp : JsDate;
  item_patient_id : option string;
  item_createdAt : JsDate;
  item_lastModified : JsDate;
  item_firstName : option string;
  item_lastName : option string;
  item_facility : option string;
  item_state : option string;
  item_contactInfo : option string;
  item_rest : string
}.

(** [item._id || item.id] *)
Definition itemId (item : Item) : option string :=
  js_or (item__id item) (item_id item).

(** A value of the request's [data] object: an array of items, or anything
    else (of which only the truthiness matters). *)
Inductive JsonVal : Type :=
  | JArray (items : list Item)
  | JOther (is_truthy : bool).

(** ** Record Store documents *)

Inductive SyncStatus : Type := pending | synced | sync_failed | conflict.

#[global] Instance SyncStatus_eq_dec : EqDecision SyncStatus.
Proof. solve_decision. Defined.

Record ActivityDoc : Type := mkActivity {
  a__id : DocId;
  a_userId : UserId;
  a_deviceId : string;
  a_sessionId : option string;
  a_activityType : option string;
  a_timestamp : Date;
  a_syncStatus : SyncStatus;
  a_syncedAt : option Date;
  a_updatedAt : Date;
  a_rest : string
}.

Record DiagnosisDoc : Type := mkDiagnosis {
  d__id : DocId;
  d_userId : UserId;
  d_deviceId : string;
  d_sessionId : option string;
  d_patient_id : option string;
  d_createdAt : Date;
  d_lastModified : Date;
  d_syncStatus : SyncStatus;
  d_syncedAt : option Date;
  d_updatedAt : Date;
  d_rest : string
}.

(** Modelled from the spec: the User model ([models/User.js]) is not among the
    sources; the profile is the five fields the user_profile strategy may
    write ("applies only the subset of allowed fields present in the incoming
    payload") and the [updatedAt] the download reads. *)
Record UserDoc : Type := mkUser {
  u__id : UserId;
  u_firstName : option string;
  u_lastName : option string;
  u_facility : option string;
  u_state : option string;
  u_contactInfo : option string;
  u_updatedAt : Date
}.

(** ** Session Ledger documents (SyncLog schema) *)

Inductive Status : Type :=
  | initiated | in_progress | completed | failed | cancelled | partial.

Inductive Severity : Type := low | medium | high | critical.

Inductive ConflictType : Type :=
  | version_mismatch | concurrent_modification | data_corruption
  | schema_mismatch.

Inductive Resolution : Type :=
  | server_wins | client_wins | merge | manual_review | skip.

#[global] Instance Resolution_eq_dec : EqDecision Resolution.
Proof. solve_decision. Defined.

Record Progress : Type := mkProgress {
  totalItems : Z;
  processedItems : Z;
  successfulItems : Z;
  failedItems : Z;
  skippedItems : Z;
  percentage : Z
}.

Record ErrorEntry : Type := mkError {
  e_timestamp : Date;
  e_code : string;
  e_message : string;
  e_severity : Severity;
  e_dataType : option string;
  e_itemId : option string;
  e_retryable : bool;
  e_stack : option string
}.

Record ConflictEntry : Type := mkConflict {
  c_itemId : option string;
  c_dataType : string;
  c_conflictType : ConflictType;
  c_resolution : Resolution;
  c_resolvedAt : option Date;
  c_resolvedBy : option UserId;
  c_localVersion : option Item;
  c_serverVersion : option DiagnosisDoc;
  c_mergedVersion : option string
}.

Record SyncLog : Type := mkSyncLog {
  s__id : nat;
  s_userId : UserId;
  s_deviceId : string;
  s_sessionId : string;
  s_syncType : string;
  s_operation : string;
  s_dataTypes : list string;
  s_status : Status;
  s_progress : Progress;
  s_startedAt : Date;
  s_completedAt : option Date;
  s_duration : option Z;
  s_errors : list ErrorEntry;
  s_conflicts : list ConflictEntry;
  s_updatedAt : Date
}.

(** ** The database and the environment *)

Record World : Type := mkWorld {
  w_activities : list ActivityDoc;
  w_diagnoses : list DiagnosisDoc;
  w_users : list UserDoc;
  w_synclogs : list SyncLog;
  w_next_id : nat;
  w_reads : nat
}.

(** The writes of the Record Store that a sync item can cause. *)
Inductive StoreOp : Type :=
  | InsertActivity | InsertDiagnosis | UpdateDiagnosis | UpdateUser.

(** What the handlers take from outside:
    - [Math_round_pct p t] is [Math.round((p / t) * 100)], a double-precision
      computation;
    - [store_rejects op item w] is the message of the error with which the
      database refuses the write [op] made for [item] in state [w], if it
      does (a refused write changes nothing);
    - [clock n] is what the [n]-th reading of the clock returns. *)
Record Env : Type := mkEnv {
  Math_round_pct : Z → Z → Z;
  store_rejects : StoreOp → Item → World → option string;
  clock : nat → Date
}.

(** The authenticated caller: [req.user._id] and [req.deviceId]. *)
Record Caller : Type := mkCaller {
  caller_userId : UserId;
  caller_deviceId : string
}.

(** ** What a handler holds while it runs *)

Record SuccessEntry : Type := mkSuccess {
  ok_itemId : option string;
  ok_dataType : string;
  ok_serverId : option DocId
}.

Record FailureEntry : Type := mkFailure {
  ko_itemId : option string;
  ko_dataType : string;
  ko_error : string
}.

Record ConflictReport : Type := mkReport {
  cr_itemId : option string;
  cr_dataType : string;
  cr_reason : string
}.

(** The local [results] of the upload handler. *)
Record Results : Type := mkResults {
  successful : list SuccessEntry;
  failed_items : list FailureEntry;
  conflicts : list ConflictReport
}.

(** The database, the handler's [syncLog] document (with its position in the
    collection) and its [results]. *)
Record HState : Type := mkHState {
  h_world : World;
  h_logpos : nat;
  h_log : SyncLog;
  h_results : Results
}.

(** State and exceptions: a thrown [Error] carries its message, and the state
    reached when it was thrown stays. *)
Inductive Res (A : Type) : Type :=
  | Val (a : A)
  | Exn (msg : string).
Arguments Val {A} a.
Arguments Exn {A} msg.

Definition M (A : Type) : Type := HState → Res A * HState.

#[global] Instance M_ret : MRet M := λ A a h, (Val a, h).
#[global] Instance M_bind : MBind M := λ A B f m h,
  match m h with
  | (Val a, h') => f a h'
  | (Exn msg, h') => (Exn msg, h')
  end.

Definition throw {A : Type} (msg : string) : M A := λ h, (Exn msg, h).
Definition get : M HState := λ h, (Val h, h).
Definition modify (f : HState → HState) : M unit := λ h, (Val tt, f h).

(** [try { m } catch (e) { handler(e.message) }] *)
Definition try_catch {A : Type} (m : M A) (handler : string → M A) : M A :=
  λ h,
    match m h with
    | (Val a, h') => (Val a, h')
    | (Exn msg, h') => handler msg h'
    end.

(** *** Field updates *)

Definition set_world (f : World → World) (h : HState) : HState :=
  mkHState (f (h_world h)) (h_logpos h) (h_log h) (h_results h).
Definition set_log (f : SyncLog → SyncLog) (h : HState) : HState :=
  mkHState (h_world h) (h_logpos h) (f (h_log h)) (h_results h).
Definition set_results (f : Results → Results) (h : HState) : HState :=
  mkHState (h_world h) (h_logpos h) (h_log h) (f (h_results h)).

Definition with_activities (l : list ActivityDoc) (w : World) : World :=
  mkWorld l (w_diagnoses w) (w_users w) (w_synclogs w) (w_next_id w) (w_reads w).
Definition with_diagnoses (l : list DiagnosisDoc) (w : World) : World :=
  mkWorld (w_activities w) l (w_users w) (w_synclogs w) (w_next_id w) (w_reads w).
Definition with_users (l : list UserDoc) (w : World) : World :=
  mkWorld (w_activities w) (w_diagnoses w) l (w_synclogs w) (w_next_id w) (w_reads w).
Definition with_synclogs (l : list SyncLog) (w : World) : World :=
  mkWorld (w_activities w) (w_diagnoses w) (w_users w) l (w_next_id w) (w_reads w).
Definition with_next_id (n : nat) (w : World) : World :=
  mkWorld (w_activities w) (w_diagnoses w) (w_users w) (w_synclogs w) n (w_reads w).
Definition with_reads (n : nat) (w : World) : World :=
  mkWorld (w_activities w) (w_diagnoses w) (w_users w) (w_synclogs w) (w_next_id w) n.

Definition with_status (st : Status) (l : SyncLog) : SyncLog :=
  mkSyncLog (s__id l) (s_userId l) (s_deviceId l) (s_sessionId l) (s_syncType l)
    (s_operation l) (s_dataTypes l) st (s_progress l) (s_startedAt l)
    (s_completedAt l) (s_duration l) (s_errors l) (s_conflicts l) (s_updatedAt l).
Definition with_progress (p : Progress) (l : SyncLog) : SyncLog :=
  mkSyncLog (s__id l) (s_userId l) (s_deviceId l) (s_sessionId l) (s_syncType l)
    (s_operation l) (s_dataTypes l) (s_status l) p (s_startedAt l)
    (s_completedAt l) (s_duration l) (s_errors l) (s_conflicts l) (s_updatedAt l).
Definition with_completedAt (c : option Date) (l : SyncLog) : SyncLog :=
  mkSyncLog (s__id l) (s_userId l) (s_deviceId l) (s_sessionId l) (s_syncType l)
    (s_operation l) (s_dataTypes l) (s_status l) (s_progress l) (s_startedAt l)
    c (s_duration l) (s_errors l) (s_conflicts l) (s_updatedAt l).
Definition with_duration (d : option Z) (l : SyncLog) : SyncLog :=
  mkSyncLog (s__id l) (s_userId l) (s_deviceId l) (s_sessionId l) (s_syncType l)
    (s_operation l) (s_dataTypes l) (s_status l) (s_progress l) (s_startedAt l)
    (s_completedAt l) d (s_errors l) (s_conflicts l) (s_updatedAt l).
Definition with_errors (e : list ErrorEntry) (l : SyncLog) : SyncLog :=
  mkSyncLog (s__id l) (s_userId l) (s_deviceId l) (s_sessionId l) (s_syncType l)
    (s_operation l) (s_dataTypes l) (s_status l) (s_progress l) (s_startedAt l)
    (s_completedAt l) (s_duration l) e (s_conflicts l) (s_updatedAt l).
Definition with_conflicts (c : list ConflictEntry) (l : SyncLog) : SyncLog :=
  mkSyncLog (s__id l) (s_userId l) (s_deviceId l) (s_sessionId l) (s_syncType l)
    (s_operation l) (s_dataTypes l) (s_status l) (s_progress l) (s_startedAt l)
    (s_completedAt l) (s_duration l) (s_errors l) c (s_updatedAt l).
Definition with_updatedAt (t : Date) (l : SyncLog) : SyncLog :=
  mkSyncLog (s__id l) (s_userId l) (s_deviceId l) (s_sessionId l) (s_syncType l)
    (s_operation l) (s_dataTypes l) (s_status l) (s_progress l) (s_startedAt l)
    (s_completedAt l) (s_duration l) (s_errors l) (s_conflicts l) t.

Definition with_percentage (pc : Z) (p : Progress) : Progress :=
  mkProgress (totalItems p) (processedItems p) (successfulItems p)
    (failedItems p) (skippedItems p) pc.
Definition with_processedItems (n : Z) (p : Progress) : Progress :=
  mkProgress (totalItems p) n (successfulItems p) (failedItems p)
    (skippedItems p) (percentage p).
Definition with_successfulItems (n : Z) (p : Progress) : Progress :=
  mkProgress (totalItems p) (processedItems p) n (failedItems p)
    (skippedItems p) (percentage p).
Definition with_failedItems (n : Z) (p : Progress) : Progress :=
  mkProgress (totalItems p) (processedItems p) (successfulItems p) n
    (skippedItems p) (percentage p).
Definition with_skippedItems (n : Z) (p : Progress) : Progress :=
  mkProgress (totalItems p) (processedItems p) (successfulItems p)
    (failedItems p) n (percentage p).

(** [if (x !== null) p.field = x] *)
Definition set_if_given (set : Z → Progress → Progress) (x : option Z)
    (p : Progress) : Progress :=
  match x with
  | Some n => set n p
  | None => p
  end.

Section Engine.

Variable env : Env.

(** [Date.now()] and [new Date()]: one reading of the clock. *)
Definition now : M Date := λ h,
  (Val (clock env (w_reads (h_world h))),
   set_world (λ w, with_reads (S (w_reads w)) w) h).

(** A generated [_id]. *)
Definition fresh_id : M nat := λ h,
  (Val (w_next_id (h_world h)),
   set_world (λ w, with_next_id (S (w_next_id w)) w) h).

(** ** SyncLog: the pre-save hook and the instance methods *)

(** [if (this.progress.totalItems > 0) this.progress.percentage =
    Math.round((processedItems / totalItems) * 100)] *)
Definition refresh_percentage (p : Progress) : Progress :=
  if totalItems p >? 0
  then with_percentage (Math_round_pct env (processedItems p) (totalItems p)) p
  else p.

(** [syncLogSchema.pre('save', ...)]; [startedAt] is always set. *)
Definition SyncLog_pre_save (t : Date) (l : SyncLog) : SyncLog :=
  let l1 :=
    match s_completedAt l with
    | Some c => with_duration (Some (c - s_startedAt l)) l
    | None => l
    end in
  let l2 := with_progress (refresh_percentage (s_progress l1)) l1 in
  with_updatedAt t l2.

(** [this.save()] of the handler's SyncLog: the hook runs, and the document
    is written at its position in the collection. *)
Definition SyncLog_save : M unit :=
  t ← now;
  modify (λ h,
    let l := SyncLog_pre_save t (h_log h) in
    set_world (λ w, with_synclogs (<[h_logpos h := l]> (w_synclogs w)) w)
      (set_log (λ _, l) h)).

Definition markCompleted (st : Status) : M unit :=
  c ← now;
  modify (set_log (λ l,
    with_duration (Some (c - s_startedAt l))
      (with_completedAt (Some c) (with_status st l))));;
  SyncLog_save.

Definition addError (code message : string) (severity : Severity)
    (dataType itemId : option string) : M unit :=
  t ← now;
  modify (set_log (λ l,
    with_errors
      (s_errors l ++ [mkError t code message severity dataType itemId true None])
      l));;
  SyncLog_save.

Definition addConflict (itemId : option string) (dataType : string)
    (conflictType : ConflictType) (localVersion : Item)
    (serverVersion : DiagnosisDoc) : M unit :=
  modify (set_log (λ l,
    with_conflicts
      (s_conflicts l ++
         [mkConflict itemId dataType conflictType manual_review None None
            (Some localVersion) (Some serverVersion) None])
      l));;
  SyncLog_save.

Definition updateProgress (processed : Z) (successfulN failedN skippedN : option Z)
    : M unit :=
  modify (set_log (λ l,
    let p := with_processedItems processed (s_progress l) in
    let p := set_if_given with_successfulItems successfulN p in
    let p := set_if_given with_failedItems failedN p in
    let p := set_if_given with_skippedItems skippedN p in
    with_progress (refresh_percentage p) l));;
  SyncLog_save.


(** ** Record Store: the queries and writes the sync routes make *)

(** Mongoose refuses to cast an Invalid Date in a filter: the query rejects. *)
Definition cast_date (path : string) (d : JsDate) : M Date :=
  match d with
  | Some t => mret t
  | None => throw ("Cast to date failed at path " +:+ path)
  end.

(** The write [op] for [item], when the database refuses it. *)
Definition check_write (op : StoreOp) (item : Item) : M unit :=
  h ← get;
  match store_rejects env op item (h_world h) with
  | Some msg => throw msg
  | None => mret tt
  end.

(** The filter of the duplicate lookup for activities. *)
Definition same_activity (userId : UserId) (deviceId : string)
    (sessionId activityType : option string) (timestamp : Date)
    (a : ActivityDoc) : Prop :=
  a_userId a = userId ∧ a_deviceId a = deviceId ∧ a_sessionId a = sessionId ∧
  a_activityType a = activityType ∧ a_timestamp a = timestamp.

#[global] Instance same_activity_dec u d s ty t a :
  Decision (same_activity u d s ty t a).
Proof. unfold same_activity. apply _. Defined.

(** The filter of the existing-record lookup for diagnoses. *)
Definition same_diagnosis (userId : UserId) (deviceId : string)
    (sessionId patient_id : option string) (createdAt : Date)
    (d : DiagnosisDoc) : Prop :=
  d_userId d = userId ∧ d_deviceId d = deviceId ∧ d_sessionId d = sessionId ∧
  d_patient_id d = patient_id ∧ d_createdAt d = createdAt.

#[global] Instance same_diagnosis_dec u d s p t x :
  Decision (same_diagnosis u d s p t x).
Proof. unfold same_diagnosis. apply _. Defined.

(** [Activity.findOne({ userId, deviceId, sessionId, activityType, timestamp })] *)
Definition Activity_findOne (userId : UserId) (deviceId : string)
    (sessionId activityType : option string) (timestamp : JsDate)
    : M (option (nat * ActivityDoc)) :=
  t ← cast_date "timestamp" timestamp;
  h ← get;
  mret (list_find (same_activity userId deviceId sessionId activityType t)
          (w_activities (h_world h))).

(** The [_id] of a new document made from [item]. *)
Definition new_doc_id (item : Item) : M DocId :=
  match item__id item with
  | Some s => mret (ClientId s)
  | None => n ← fresh_id; mret (ServerId n)
  end.

(** [new Activity({ ...item, userId, deviceId, syncStatus: 'synced',
    syncedAt: new Date() }).save()].  The schema has [timestamps: true]: a
    new document's [updatedAt] is its [createdAt], which is the item's when
    the item carries one and the time of construction otherwise. *)
Definition Activity_create (cx : Caller) (item : Item) (timestamp : Date)
    : M ActivityDoc :=
  syncedAt ← now;
  check_write InsertActivity item;;
  id ← new_doc_id item;
  constructedAt ← now;
  let updatedAt := default constructedAt (item_createdAt item) in
  let doc :=
    mkActivity id (caller_userId cx) (caller_deviceId cx) (item_sessionId item)
      (item_activityType item) timestamp synced (Some syncedAt) updatedAt
      (item_rest item) in
  modify (set_world (λ w, with_activities (w_activities w ++ [doc]) w));;
  mret doc.

(** [Diagnosis.findOne({ userId, deviceId, sessionId, 'patient.id', createdAt })] *)
Definition Diagnosis_findOne (userId : UserId) (deviceId : string)
    (sessionId patient_id : option string) (createdAt : JsDate)
    : M (option (nat * DiagnosisDoc)) :=
  t ← cast_date "createdAt" createdAt;
  h ← get;
  mret (list_find (same_diagnosis userId deviceId sessionId patient_id t)
          (w_diagnoses (h_world h))).

(** [diagnosisSchema.pre('save', ...)]: [this.lastModified = Date.now()]. *)
Definition Diagnosis_pre_save (t : Date) (d : DiagnosisDoc) : DiagnosisDoc :=
  mkDiagnosis (d__id d) (d_userId d) (d_deviceId d) (d_sessionId d)
    (d_patient_id d) (d_createdAt d) t (d_syncStatus d) (d_syncedAt d)
    (d_updatedAt d) (d_rest d).

(** [new Diagnosis({ ...item, userId, deviceId, syncStatus: 'synced',
    syncedAt: new Date() }).save()].  The schema has [timestamps: true]: a
    new document's [updatedAt] is its [createdAt], here the item's. *)
Definition Diagnosis_create (cx : Caller) (item : Item) (createdAt : Date)
    : M DiagnosisDoc :=
  syncedAt ← now;
  check_write InsertDiagnosis item;;
  id ← new_doc_id item;
  lastModified ← now;
  let doc :=
    Diagnosis_pre_save lastModified
      (mkDiagnosis id (caller_userId cx) (caller_deviceId cx)
         (item_sessionId item) (item_patient_id item) createdAt
         (default lastModified (item_lastModified item)) synced (Some syncedAt)
         createdAt (item_rest item)) in
  modify (set_world (λ w, with_diagnoses (w_diagnoses w ++ [doc]) w));;
  mret doc.

(** [Object.assign(existingDiagnosis, item)]: the fields the item has replace
    the document's; the stored [_id] and owner stay. *)
Definition Object_assign (d : DiagnosisDoc) (item : Item) : DiagnosisDoc :=
  mkDiagnosis (d__id d) (d_userId d) (d_deviceId d)
    (match item_sessionId item with Some s => Some s | None => d_sessionId d end)
    (match item_patient_id item with Some s => Some s | None => d_patient_id d end)
    (default (d_createdAt d) (item_createdAt item))
    (default (d_lastModified d) (item_lastModified item))
    (d_syncStatus d) (d_syncedAt d) (d_updatedAt d) (item_rest item).

Definition mark_synced (t : Date) (d : DiagnosisDoc) : DiagnosisDoc :=
  mkDiagnosis (d__id d) (d_userId d) (d_deviceId d) (d_sessionId d)
    (d_patient_id d) (d_createdAt d) (d_lastModified d) synced (Some t)
    (d_updatedAt d) (d_rest d).

Definition touch_diagnosis (t : Date) (d : DiagnosisDoc) : DiagnosisDoc :=
  mkDiagnosis (d__id d) (d_userId d) (d_deviceId d) (d_sessionId d)
    (d_patient_id d) (d_createdAt d) (d_lastModified d) (d_syncStatus d)
    (d_syncedAt d) t (d_rest d).

(** [existingDiagnosis.save()] of the document loaded from position [pos]. *)
Definition Diagnosis_save (pos : nat) (d : DiagnosisDoc) (item : Item)
    : M DiagnosisDoc :=
  check_write UpdateDiagnosis item;;
  t ← now;
  let doc := touch_diagnosis t (Diagnosis_pre_save t d) in
  modify (set_world (λ w, with_diagnoses (<[pos := doc]> (w_diagnoses w)) w));;
  mret doc.

(** The [updateFields] of the user_profile strategy: the truthy ones of the
    five allowed fields. *)
Definition keep_truthy (o : option string) : option string :=
  if truthy o then o else None.

Definition apply_field (new old : option string) : option string :=
  match new with
  | Some s => Some s
  | None => old
  end.

Definition has_update_fields (item : Item) : bool :=
  truthy (item_firstName item) || truthy (item_lastName item) ||
  truthy (item_facility item) || truthy (item_state item) ||
  truthy (item_contactInfo item).

Definition update_user (t : Date) (item : Item) (u : UserDoc) : UserDoc :=
  mkUser (u__id u)
    (apply_field (keep_truthy (item_firstName item)) (u_firstName u))
    (apply_field (keep_truthy (item_lastName item)) (u_lastName u))
    (apply_field (keep_truthy (item_facility item)) (u_facility u))
    (apply_field (keep_truthy (item_state item)) (u_state u))
    (apply_field (keep_truthy (item_contactInfo item)) (u_contactInfo u))
    t.

(** [User.findByIdAndUpdate(req.user._id, updateFields)] *)
Definition User_findByIdAndUpdate (userId : UserId) (item : Item) : M unit :=
  check_write UpdateUser item;;
  t ← now;
  modify (set_world (λ w,
    match list_find (λ u, u__id u = userId) (w_users w) with
    | Some (pos, u) => with_users (<[pos := update_user t item u]> (w_users w)) w
    | None => w
    end)).

(** ** POST /upload *)

(** How the [switch] of one item ends when it does not throw: it falls
    through with [savedItem] (of which [savedItem?._id] is kept), or it
    leaves by [continue]. *)
Inductive Completion : Type :=
  | Saved (serverId : option DocId)
  | Continue.

Definition push_successful (e : SuccessEntry) : M unit :=
  modify (set_results (λ r,
    mkResults (successful r ++ [e]) (failed_items r) (conflicts r))).
Definition push_failed (e : FailureEntry) : M unit :=
  modify (set_results (λ r,
    mkResults (successful r) (failed_items r ++ [e]) (conflicts r))).
Definition push_conflict (e : ConflictReport) : M unit :=
  modify (set_results (λ r,
    mkResults (successful r) (failed_items r) (conflicts r ++ [e]))).

Definition activities_item (cx : Caller) (item : Item) : M Completion :=
  existingActivity ← Activity_findOne (caller_userId cx) (caller_deviceId cx)
    (item_sessionId item) (item_activityType item) (item_timestamp item);
  match existingActivity with
  | None =>
      t ← cast_date "timestamp" (item_timestamp item);
      savedItem ← Activity_create cx item t;
      mret (Saved (Some (a__id savedItem)))
  | Some (_, a) => mret (Saved (Some (a__id a)))
  end.

Definition diagnoses_item (cx : Caller) (dataType : string) (item : Item)
    : M Completion :=
  existingDiagnosis ← Diagnosis_findOne (caller_userId cx) (caller_deviceId cx)
    (item_sessionId item) (item_patient_id item) (item_createdAt item);
  match existingDiagnosis with
  | None =>
      t ← cast_date "createdAt" (item_createdAt item);
      savedItem ← Diagnosis_create cx item t;
      mret (Saved (Some (d__id savedItem)))
  | Some (pos, d) =>
      if date_lt (d_lastModified d) (item_lastModified item) then
        syncedAt ← now;
        savedItem ← Diagnosis_save pos (mark_synced syncedAt (Object_assign d item)) item;
        mret (Saved (Some (d__id savedItem)))
      else if date_gt (d_lastModified d) (item_lastModified item) then
        addConflict (itemId item) dataType concurrent_modification item d;;
        push_conflict (mkReport (itemId item) dataType "concurrent_modification");;
        mret Continue
      else
        mret (Saved (Some (d__id d)))
  end.

Definition user_profile_item (cx : Caller) (item : Item) : M Completion :=
  if has_update_fields item then
    User_findByIdAndUpdate (caller_userId cx) item;;
    mret (Saved None)
  else
    mret (Saved None).

(** The [switch (dataType)] of the item loop. *)
Definition item_switch (cx : Caller) (dataType : string) (item : Item)
    : M Completion :=
  if decide (dataType = "activities") then activities_item cx item
  else if decide (dataType = "diagnoses") then diagnoses_item cx dataType item
  else if decide (dataType = "user_profile") then user_profile_item cx item
  else throw ("Unsupported data type: " +:+ dataType).

(** What became of one item. *)
Inductive Outcome : Type :=
  | Succeeded
  | Conflicted
  | Failed (message : string).

Definition Z_length {A : Type} (l : list A) : Z := Z.of_nat (length l).

(** The end of the [try] block, reached with [savedItem]: the entry in
    [results.successful] and the progress update. *)
Definition record_success (dataType : string) (item : Item)
    (serverId : option DocId) : M Outcome :=
  push_successful (mkSuccess (itemId item) dataType serverId);;
  h ← get;
  let r := h_results h in
  updateProgress (Z_length (successful r) + Z_length (failed_items r))
    (Some (Z_length (successful r))) (Some (Z_length (failed_items r)))
    None;;
  mret Succeeded.

(** The [catch (itemError)] block. *)
Definition catch_item (dataType : string) (item : Item) (message : string)
    : M Outcome :=
  push_failed (mkFailure (itemId item) dataType message);;
  addError "ITEM_PROCESSING_ERROR" message medium (Some dataType) (itemId item);;
  mret (Failed message).

(** The body of the inner loop: the [try] block and its [catch]. *)
Definition process_item (cx : Caller) (dataType : string) (item : Item)
    : M Outcome :=
  try_catch
    (c ← item_switch cx dataType item;
     match c with
     | Continue => mret Conflicted
     | Saved serverId => record_success dataType item serverId
     end)
    (catch_item dataType item).

(** [for (const item of data[dataType])] *)
Fixpoint for_items (cx : Caller) (dataType : string) (items : list Item)
    : M (list Outcome) :=
  match items with
  | [] => mret []
  | item :: rest =>
      o ← process_item cx dataType item;
      os ← for_items cx dataType rest;
      mret (o :: os)
  end.

(** [for (const dataType of dataTypes)], skipping the types whose [data]
    entry is missing or not an array. *)
Fixpoint for_dataTypes (cx : Caller) (data : gmap string JsonVal)
    (dataTypes : list string) : M (list Outcome) :=
  match dataTypes with
  | [] => mret []
  | dataType :: rest =>
      os1 ← match data !! dataType return M (list Outcome) with
            | Some (JArray items) => for_items cx dataType items
            | _ => mret []
            end;
      os2 ← for_dataTypes cx data rest;
      mret (os1 ++ os2)
  end.

(** [new SyncLog({ userId, deviceId, sessionId, syncType, operation,
    dataTypes, status: 'in_progress', progress: { totalItems } })] followed by
    its first [save()]: [startedAt] defaults to the time of construction, the
    hook runs, and the document is appended to the collection. *)
Definition open_session (cx : Caller) (sessionId syncType operation : string)
    (dataTypes : list string) (total : Z) (w : World) : HState :=
  let startedAt := clock env (w_reads w) in
  let l0 :=
    mkSyncLog (w_next_id w) (caller_userId cx) (caller_deviceId cx) sessionId
      syncType operation dataTypes in_progress (mkProgress total 0 0 0 0 0)
      startedAt None None [] [] startedAt in
  let l := SyncLog_pre_save (clock env (S (w_reads w))) l0 in
  mkHState
    (mkWorld (w_activities w) (w_diagnoses w) (w_users w) (w_synclogs w ++ [l])
       (S (w_next_id w)) (S (S (w_reads w))))
    (length (w_synclogs w)) l (mkResults [] [] []).

Record UploadReq : Type := mkUploadReq {
  up_syncType : string;
  up_operation : string;
  up_dataTypes : list string;
  up_data : gmap string JsonVal;
  up_sessionId : string
}.

(** [Object.values(data).reduce((sum, items) =>
      sum + (Array.isArray(items) ? items.length : 0), 0)] *)
Definition count_array (v : JsonVal) : Z :=
  match v with
  | JArray items => Z_length items
  | JOther _ => 0
  end.

Definition count_uploaded (data : gmap string JsonVal) : Z :=
  map_fold (λ _ items sum, sum + count_array items) 0 data.

Inductive UploadResponse : Type :=
  | UploadDone (status : Status) (syncId : nat)
      (n_successful n_failed n_conflicts : Z) (details : Results)
  | UploadError.

(** The handler's [try] block after the session is opened; the outcomes of
    the items are returned next to the response. *)
Definition upload_try (cx : Caller) (req : UploadReq)
    : M (UploadResponse * list Outcome) :=
  os ← for_dataTypes cx (up_data req) (up_dataTypes req);
  h ← get;
  let r := h_results h in
  let status := if Z_length (failed_items r) >? 0 then partial else completed in
  markCompleted status;;
  mret (UploadDone status (s__id (h_log h)) (Z_length (successful r))
          (Z_length (failed_items r)) (Z_length (conflicts r)) r, os).

Definition upload (cx : Caller) (req : UploadReq) (w : World)
    : Res (UploadResponse * list Outcome) * HState :=
  try_catch (upload_try cx req)
    (λ message,
       addError "SYNC_ERROR" message high None None;;
       markCompleted failed;;
       mret (UploadError, []))
    (open_session cx (up_sessionId req) (up_syncType req) (up_operation req)
       (up_dataTypes req) (count_uploaded (up_data req)) w).

(** ** POST /download *)

Record DownloadReq : Type := mkDownloadReq {
  dn_syncType : string;
  dn_operation : string;
  dn_dataTypes : list string;
  dn_lastSyncTimestamp : option JsDate;
  dn_sessionId : string
}.

(** The handler's [data] object: only these three keys are ever set. *)
Record DownloadData : Type := mkData {
  dd_activities : option (list ActivityDoc);
  dd_diagnoses : option (list DiagnosisDoc);
  dd_user_profile : option UserDoc
}.

(** [lastSyncTimestamp ? new Date(lastSyncTimestamp) : new Date(0)] *)
Definition lastSync_of (lastSyncTimestamp : option JsDate) : JsDate :=
  match lastSyncTimestamp with
  | Some d => d
  | None => Some 0
  end.

Definition newer_first {A : Type} (updatedAt : A → Date) : relation A :=
  λ x y, updatedAt y ≤ updatedAt x.

#[global] Instance newer_first_dec {A : Type} (updatedAt : A → Date) x y :
  Decision (newer_first updatedAt x y).
Proof. unfold newer_first. apply _. Defined.

(** [Activity.find({ userId, updatedAt: { $gt: lastSync }, syncStatus: 'synced' })
      .sort({ updatedAt: -1 }).limit(n).lean()] *)
Definition Activity_find_since (userId : UserId) (lastSync : JsDate) (n : nat)
    : M (list ActivityDoc) :=
  t ← cast_date "updatedAt" lastSync;
  h ← get;
  mret (take n (merge_sort (newer_first a_updatedAt)
          (filter (λ a, a_userId a = userId ∧ t < a_updatedAt a ∧
                        a_syncStatus a = synced)
             (w_activities (h_world h))))).

Definition Diagnosis_find_since (userId : UserId) (lastSync : JsDate) (n : nat)
    : M (list DiagnosisDoc) :=
  t ← cast_date "updatedAt" lastSync;
  h ← get;
  mret (take n (merge_sort (newer_first d_updatedAt)
          (filter (λ d, d_userId d = userId ∧ t < d_updatedAt d ∧
                        d_syncStatus d = synced)
             (w_diagnoses (h_world h))))).

(** [User.findById(req.user._id).select(...).lean()] *)
Definition User_findById (userId : UserId) : M (option UserDoc) :=
  h ← get;
  mret (snd <$> list_find (λ u, u__id u = userId) (w_users (h_world h))).

(** The [switch (dataType)] of the fetch loop. *)
Definition fetch_switch (cx : Caller) (lastSync : JsDate) (dataType : string)
    (data : DownloadData) : M DownloadData :=
  if decide (dataType = "activities") then
    l ← Activity_find_since (caller_userId cx) lastSync 1000;
    mret (mkData (Some l) (dd_diagnoses data) (dd_user_profile data))
  else if decide (dataType = "diagnoses") then
    l ← Diagnosis_find_since (caller_userId cx) lastSync 500;
    mret (mkData (dd_activities data) (Some l) (dd_user_profile data))
  else if decide (dataType = "user_profile") then
    user ← User_findById (caller_userId cx);
    match user with
    | Some u =>
        if date_gt (u_updatedAt u) lastSync
        then mret (mkData (dd_activities data) (dd_diagnoses data) (Some u))
        else mret data
    | None => mret data
    end
  else mret data.

Definition fetch_type (cx : Caller) (lastSync : JsDate) (dataType : string)
    (data : DownloadData) : M DownloadData :=
  try_catch (fetch_switch cx lastSync dataType data)
    (λ message,
       addError "DATA_FETCH_ERROR" message medium (Some dataType) None;;
       mret data).

Fixpoint fetch_all (cx : Caller) (lastSync : JsDate) (dataTypes : list string)
    (data : DownloadData) : M DownloadData :=
  match dataTypes with
  | [] => mret data
  | dataType :: rest =>
      data' ← fetch_type cx lastSync dataType data;
      fetch_all cx lastSync rest data'
  end.

(** [Object.values(data).reduce((sum, items) =>
      sum + (Array.isArray(items) ? items.length : (items ? 1 : 0)), 0)] *)
Definition count_fetched (data : DownloadData) : Z :=
  from_option Z_length 0 (dd_activities data) +
  from_option Z_length 0 (dd_diagnoses data) +
  from_option (λ _, 1) 0 (dd_user_profile data).

Inductive DownloadResponse : Type :=
  | DownloadDone (syncId : nat) (timestamp : Date) (data : DownloadData)
      (summary_totalItems : Z)
  | DownloadError.

Definition download_try (cx : Caller) (req : DownloadReq) : M DownloadResponse :=
  data ← fetch_all cx (lastSync_of (dn_lastSyncTimestamp req)) (dn_dataTypes req)
           (mkData None None None);
  let total := count_fetched data in
  updateProgress total (Some total) (Some 0) None;;
  markCompleted completed;;
  h ← get;
  timestamp ← now;
  mret (DownloadDone (s__id (h_log h)) timestamp data total).

Definition download (cx : Caller) (req : DownloadReq) (w : World)
    : Res DownloadResponse * HState :=
  try_catch (download_try cx req)
    (λ message,
       addError "SYNC_ERROR" message high None None;;
       markCompleted failed;;
       mret DownloadError)
    (open_session cx (dn_sessionId req) (dn_syncType req) (dn_operation req)
       (dn_dataTypes req) 0 w).

(** ** GET /conflicts *)

Record ConflictListing : Type := mkListing {
  cl_syncId : nat;
  cl_syncTimestamp : Date;
  cl_conflict : ConflictEntry
}.

Definition unresolved (c : ConflictEntry) : Prop :=
  c_resolution c = manual_review.

#[global] Instance unresolved_dec c : Decision (unresolved c).
Proof. unfold unresolved. apply _. Defined.

(** [SyncLog.find({ userId, deviceId, 'conflicts.resolution': 'manual_review' })
      .sort({ startedAt: -1 }).skip((page - 1) * limit).limit(limit)] and the
    two nested [forEach]; [page] and [limit] are validated to be at least 1. *)
Definition get_conflicts (cx : Caller) (page limit : nat) (w : World)
    : list ConflictListing :=
  let syncLogsWithConflicts :=
    take limit (drop ((page - 1) * limit)
      (merge_sort (newer_first s_startedAt)
         (filter (λ l, s_userId l = caller_userId cx ∧
                       s_deviceId l = caller_deviceId cx ∧
                       Exists unresolved (s_conflicts l))
            (w_synclogs w)))) in
  flat_map
    (λ log, map (mkListing (s__id log) (s_startedAt log))
              (filter unresolved (s_conflicts log)))
    syncLogsWithConflicts.

(** ** POST /resolve-conflict *)

Record ResolveReq : Type := mkResolveReq {
  rr_syncId : nat;
  rr_conflictItemId : option string;
  rr_resolution : Resolution;
  rr_mergedData : option string
}.

Inductive ResolveResponse : Type :=
  | ConflictResolved (conflictItemId : option string) (resolution : Resolution)
  | SyncLogNotFound
  | ConflictNotFound
  | ResolveError.

(** The assignments to the found conflict entry. *)
Definition resolve_entry (req : ResolveReq) (t : Date) (by_user : UserId)
    (c : ConflictEntry) : ConflictEntry :=
  mkConflict (c_itemId c) (c_dataType c) (c_conflictType c) (rr_resolution req)
    (Some t) (Some by_user) (c_localVersion c) (c_serverVersion c)
    (match rr_mergedData req with
     | Some m => Some m
     | None => c_mergedVersion c
     end).

Definition resolve_conflict (cx : Caller) (req : ResolveReq) (w : World)
    : ResolveResponse * World :=
  match list_find (λ l, s__id l = rr_syncId req ∧
                        s_userId l = caller_userId cx ∧
                        s_deviceId l = caller_deviceId cx) (w_synclogs w) with
  | None => (SyncLogNotFound, w)
  | Some (pos, syncLog) =>
      match list_find (λ c, c_itemId c = rr_conflictItemId req)
              (s_conflicts syncLog) with
      | None => (ConflictNotFound, w)
      | Some (i, c) =>
          let m : M ResolveResponse :=
            t ← now;
            modify (set_log
              (with_conflicts
                 (<[i := resolve_entry req t (caller_userId cx) c]>
                    (s_conflicts syncLog))));;
            SyncLog_save;;
            mret (ConflictResolved (rr_conflictItemId req) (rr_resolution req)) in
          match try_catch m (λ _, mret ResolveError)
                  (mkHState w pos syncLog (mkResults [] [] [])) with
          | (Val r, h) => (r, h_world h)
          | (Exn _, h) => (ResolveError, h_world h)
          end
      end
  end.

(** ** Notions used to state the properties *)

(** The items of an upload, with their data type, in the order in which the
    two nested loops visit them. *)
Definition worklist (data : gmap string JsonVal) (dataTypes : list string)
    : list (string * Item) :=
  flat_map
    (λ dataType,
       match data !! dataType with
       | Some (JArray items) => map (pair dataType) items
       | _ => []
       end)
    dataTypes.

(** The item loop over an explicit list of (data type, item) pairs. *)
Fixpoint for_work (cx : Caller) (work : list (string * Item))
    : M (list Outcome) :=
  match work with
  | [] => mret []
  | (dataType, item) :: rest =>
      o ← process_item cx dataType item;
      os ← for_work cx rest;
      mret (o :: os)
  end.

(** The invariant of the progress block of a session. *)
Definition progress_ok (p : Progress) : Prop :=
  processedItems p = successfulItems p + failedItems p + skippedItems p ∧
  0 ≤ totalItems p ∧ 0 ≤ processedItems p ∧ 0 ≤ successfulItems p ∧
  0 ≤ failedItems p ∧ 0 ≤ skippedItems p ∧
  percentage p =
    (if totalItems p >? 0
     then Math_round_pct env (processedItems p) (totalItems p)
     else 0).

End Engine.

(** [m] returns normally from every state. *)
Definition total {A : Type} (m : M A) : Prop :=
  ∀ h, ∃ a h', m h = (Val a, h').

(** [m] leaves the part [π] of the state as it found it, also when it throws. *)
Definition keeps {X A : Type} (π : HState → X) (m : M A) : Prop :=
  ∀ h r h', m h = (r, h') → π h' = π h.

(** The counters of a progress block, without the derived percentage. *)
Definition counters (p : Progress) : Z * Z * Z * Z * Z :=
  (totalItems p, processedItems p, successfulItems p, failedItems p,
   skippedItems p).

(** The Record Store part of the state. *)
Definition record_store (h : HState)
    : list ActivityDoc * list DiagnosisDoc * list UserDoc :=
  (w_activities (h_world h), w_diagnoses (h_world h), w_users (h_world h)).

(** What identifies a session error: all but its timestamp. *)
Definition err_ref (e : ErrorEntry)
    : string * string * Severity * option string * option string :=
  (e_code e, e_message e, e_severity e, e_dataType e, e_itemId e).

(** The error references an item loop must leave, given the outcomes. *)
Fixpoint failure_refs (work : list (string * Item)) (os : list Outcome)
    : list (string * string * Severity * option string * option string) :=
  match work, os with
  | (dataType, item) :: work', Failed message :: os' =>
      ("ITEM_PROCESSING_ERROR", message, medium, Some dataType, itemId item)
        :: failure_refs work' os'
  | _ :: work', _ :: os' => failure_refs work' os'
  | _, _ => []
  end.

Definition is_succeeded (o : Outcome) : bool :=
  match o with Succeeded => true | _ => false end.
Definition is_conflicted (o : Outcome) : bool :=
  match o with Conflicted => true | _ => false end.
Definition is_failed (o : Outcome) : bool :=
  match o with Failed _ => true | _ => false end.

Fixpoint count_where (p : Outcome → bool) (os : list Outcome) : Z :=
  match os with
  | [] => 0
  | o :: os' => (if p o then 1 else 0) + count_where p os'
  end.

(** The ledger's (successfulItems, failedItems) after the outcomes [os], when
    [s] and [f] entries are in [results.successful] and [results.failed] and
    the ledger holds [cur]: only a success writes the counters. *)
Fixpoint ledger_counts (s f : Z) (cur : Z * Z) (os : list Outcome) : Z * Z :=
  match os with
  | [] => cur
  | Succeeded :: os' => ledger_counts (s + 1) f (s + 1, f) os'
  | Conflicted :: os' => ledger_counts s f cur os'
  | Failed _ :: os' => ledger_counts s (f + 1) cur os'
  end.

(** What processing one item with outcome [o] does to the handler's state [h],
    giving [h']: the effect on [results], on the session's lists and on its
    counters. *)
Definition item_effect (env : Env) (dataType : string) (item : Item)
    (o : Outcome) (h h' : HState) : Prop :=
  let r := h_results h in
  let r' := h_results h' in
  let l := h_log h in
  let l' := h_log h' in
  let p := s_progress l in
  let p' := s_progress l' in
  h_logpos h' = h_logpos h ∧ s_status l' = s_status l ∧
  totalItems p' = totalItems p ∧ skippedItems p' = skippedItems p ∧
  percentage p' =
    (if totalItems p >? 0
     then Math_round_pct env (processedItems p') (totalItems p)
     else percentage p) ∧
  match o with
  | Succeeded =>
      (∃ serverId,
          successful r' = successful r ++ [mkSuccess (itemId item) dataType serverId]) ∧
      failed_items r' = failed_items r ∧ conflicts r' = conflicts r ∧
      s_errors l' = s_errors l ∧ s_conflicts l' = s_conflicts l ∧
      processedItems p' = Z_length (successful r') + Z_length (failed_items r') ∧
      successfulItems p' = Z_length (successful r') ∧
      failedItems p' = Z_length (failed_items r')
  | Conflicted =>
      successful r' = successful r ∧ failed_items r' = failed_items r ∧
      conflicts r' =
        conflicts r ++ [mkReport (itemId item) dataType "concurrent_modification"] ∧
      s_errors l' = s_errors l ∧
      (∃ d, s_conflicts l' =
              s_conflicts l ++
                [mkConflict (itemId item) dataType concurrent_modification
                   manual_review None None (Some item) (Some d) None]) ∧
      processedItems p' = processedItems p ∧
      successfulItems p' = successfulItems p ∧
      failedItems p' = failedItems p ∧
      record_store h' = record_store h
  | Failed message =>
      successful r' = successful r ∧
      failed_items r' = failed_items r ++ [mkFailure (itemId item) dataType message] ∧
      conflicts r' = conflicts r ∧
      (∃ e, s_errors l' = s_errors l ++ [e] ∧
            err_ref e =
              ("ITEM_PROCESSING_ERROR", message, medium, Some dataType,
               itemId item)) ∧
      s_conflicts l' = s_conflicts l ∧
      processedItems p' = processedItems p ∧
      successfulItems p' = successfulItems p ∧
      failedItems p' = failedItems p
  end.

(** *** Views of one upload call *)

Definition upload_opening (env : Env) (cx : Caller) (req : UploadReq)
    (w : World) : HState :=
  open_session env cx (up_sessionId req) (up_syncType req) (up_operation req)
    (up_dataTypes req) (count_uploaded (up_data req)) w.

(** The handler's state when the call returns, its session and [results]. *)
Definition upload_state (env : Env) (cx : Caller) (req : UploadReq) (w : World)
    : HState :=
  snd (upload env cx req w).

Definition upload_session (env : Env) (cx : Caller) (req : UploadReq)
    (w : World) : SyncLog :=
  h_log (upload_state env cx req w).

Definition upload_results (env : Env) (cx : Caller) (req : UploadReq)
    (w : World) : Results :=
  h_results (upload_state env cx req w).

(** The outcomes of the items, in the order of the loop. *)
Definition upload_outcomes (env : Env) (cx : Caller) (req : UploadReq)
    (w : World) : list Outcome :=
  match fst (upload env cx req w) with
  | Val (_, os) => os
  | Exn _ => []
  end.

(** The handler's state after the first [k] items of the loop. *)
Definition upload_state_after (env : Env) (cx : Caller) (req : UploadReq)
    (w : World) (k : nat) : HState :=
  snd (for_work env cx (take k (worklist (up_data req) (up_dataTypes req)))
         (upload_opening env cx req w)).

(** ** Concrete inputs for the examples *)

(** Rounding of the exact quotient, half up; it stands for [Math.round] in
    the examples. *)
Definition exact_round_pct (p t : Z) : Z := (200 * p + t) / (2 * t).

(** An environment whose database refuses nothing and whose clock advances by
    one at each reading. *)
Definition plain_env : Env :=
  mkEnv exact_round_pct (λ _ _ _, None) (λ n, 1700000000000 + Z.of_nat n).

Definition nurse : Caller := mkCaller 7%nat "device-1".

Definition blank_item : Item :=
  mkItem None None None None None None None None None None None None None "".

Definition activity_item (id : string) (timestamp : Z) : Item :=
  mkItem None (Some id) (Some "s-1") (Some "login") (Some timestamp) None None
    None None None None None None "".

Definition profile_item (id firstName : string) : Item :=
  mkItem None (Some id) None None None None None None (Some firstName) None None
    None None "".

Definition diagnosis_item (id : string) (createdAt lastModified : Z)
    (rest : string) : Item :=
  mkItem None (Some id) (Some "s-1") None None (Some "patient-1")
    (Some createdAt) (Some lastModified) None None None None None rest.

Definition nurse_profile : UserDoc := mkUser 7%nat None None None None None 5.

Definition fresh_world : World := mkWorld [] [] [nurse_profile] [] 0 0.

(** Five items, the third of a data type the upload does not support. *)
Definition five_items_req : UploadReq :=
  mkUploadReq "upload" "full_sync" ["activities"; "preferences"; "user_profile"]
    (<["activities" := JArray [activity_item "a1" 1; activity_item "a2" 2]]>
       (<["preferences" := JArray [blank_item]]>
          (<["user_profile" :=
               JArray [profile_item "u1" "Ada"; profile_item "u2" "Grace"]]> ∅)))
    "sync-1".

(** The number of records the request carries for one data type. *)
Definition records_of (data : gmap string JsonVal) (dataType : string) : Z :=
  from_option count_array 0 (data !! dataType).

Definition sum_records (data : gmap string JsonVal) (dataTypes : list string)
    : Z :=
  foldr (λ dataType sum, records_of data dataType + sum) 0 dataTypes.

(** The total as the specification words it: the sum of the per-type record
    counts over the supplied set of data types. *)
Definition supplied_total (data : gmap string JsonVal)
    (dataTypes : list string) : Z :=
  sum_records data (remove_dups dataTypes).

(** One activity under a listed type, one diagnosis under a type that
    [dataTypes] does not list. *)
Definition unlisted_req : UploadReq :=
  mkUploadReq "upload" "full_sync" ["activities"]
    (<["activities" := JArray [activity_item "a1" 1]]>
       (<["diagnoses" := JArray [diagnosis_item "d1" 10 20 "fever"]]> ∅))
    "sync-2".

(** *** Views of one download call *)

Definition download_state (env : Env) (cx : Caller) (req : DownloadReq)
    (w : World) : HState :=
  snd (download env cx req w).

Definition download_session (env : Env) (cx : Caller) (req : DownloadReq)
    (w : World) : SyncLog :=
  h_log (download_state env cx req w).

(** The [data] of the response. *)
Definition download_data (env : Env) (cx : Caller) (req : DownloadReq)
    (w : World) : DownloadData :=
  match fst (download env cx req w) with
  | Val (DownloadDone _ _ data _) => data
  | _ => mkData None None None
  end.

(** What the download contract selects for each data type: the caller's
    records changed strictly after the watermark and marked synced, newest
    first, cut at the page size; for the profile, the caller's own record when
    changed strictly after the watermark.  Nothing is selected when the
    watermark is not a date. *)
Definition selected_activities (cx : Caller) (lastSync : JsDate) (w : World)
    : option (list ActivityDoc) :=
  match lastSync with
  | Some t =>
      Some (take 1000 (merge_sort (newer_first a_updatedAt)
              (filter (λ a, a_userId a = caller_userId cx ∧ t < a_updatedAt a ∧
                            a_syncStatus a = synced)
                 (w_activities w))))
  | None => None
  end.

Definition selected_diagnoses (cx : Caller) (lastSync : JsDate) (w : World)
    : option (list DiagnosisDoc) :=
  match lastSync with
  | Some t =>
      Some (take 500 (merge_sort (newer_first d_updatedAt)
              (filter (λ d, d_userId d = caller_userId cx ∧ t < d_updatedAt d ∧
                            d_syncStatus d = synced)
                 (w_diagnoses w))))
  | None => None
  end.

Definition selected_profile (cx : Caller) (lastSync : JsDate) (w : World)
    : option UserDoc :=
  match list_find (λ u, u__id u = caller_userId cx) (w_users w) with
  | Some (_, u) => if date_gt (u_updatedAt u) lastSync then Some u else None
  | None => None
  end.

Definition when_requested {A : Type} (dataType : string)
    (dataTypes : list string) (x : option A) : option A :=
  if decide (dataType ∈ dataTypes) then x else None.

Definition selected_data (cx : Caller) (lastSync : JsDate) (w : World)
    (dataTypes : list string) : DownloadData :=
  mkData
    (when_requested "activities" dataTypes (selected_activities cx lastSync w))
    (when_requested "diagnoses" dataTypes (selected_diagnoses cx lastSync w))
    (when_requested "user_profile" dataTypes (selected_profile cx lastSync w)).

Definition synced_activity (id : nat) (owner : UserId) (updatedAt : Z)
    : ActivityDoc :=
  mkActivity (ServerId id) owner "device-1" (Some "s-1") (Some "login") 1
    synced (Some updatedAt) updatedAt "".

(** A store with three activities of the caller (one updated exactly at
    1000, one after, one still pending) and one of another user. *)
Definition stocked_world : World :=
  mkWorld
    [synced_activity 1 7%nat 1000; synced_activity 2 7%nat 1001;
     mkActivity (ServerId 3) 7%nat "device-1" (Some "s-1") (Some "login") 1
       pending None 2000 "";
     synced_activity 4 8%nat 3000]
    [] [nurse_profile] [] 5 0.

Definition activities_since_1000 : DownloadReq :=
  mkDownloadReq "download" "incremental_sync" ["activities"] (Some (Some 1000))
    "sync-3".

(** A stored diagnosis last modified on 2024-01-10T00:00Z, and an upload of
    the same diagnosis last modified on 2024-01-09T00:00Z. *)
Definition stored_diagnosis : DiagnosisDoc :=
  mkDiagnosis (ServerId 0) 7%nat "device-1" (Some "s-1") (Some "patient-1") 10
    1704844800000 synced (Some 1704844800000) 1704844800000 "fever".

Definition conflict_world : World :=
  mkWorld [] [stored_diagnosis] [nurse_profile] [] 1 0.

Definition stale_item : Item := diagnosis_item "d1" 10 1704758400000 "cough".

Definition stale_req : UploadReq :=
  mkUploadReq "upload" "incremental_sync" ["diagnoses"]
    (<["diagnoses" := JArray [stale_item]]> ∅) "sync-4".

(** The database after that upload: its session (number 1) holds one
    conflict, for item "d1". *)
Definition world_with_conflict : World :=
  h_world (upload_state plain_env nurse stale_req conflict_world).

Definition resolve_d1 (resolution : Resolution) : ResolveReq :=
  mkResolveReq 1 (Some "d1") resolution None.

(** The resolutions of the conflicts of the sessions of a database. *)
Definition resolutions (w : World) : list (list Resolution) :=
  map (λ l, map c_resolution (s_conflicts l)) (w_synclogs w).

Definition one_activity_req : UploadReq :=
  mkUploadReq "upload" "incremental_sync" ["activities"]
    (<["activities" := JArray [activity_item "a1" 1]]> ∅) "sync-5".

(** ** Further notions: what a call may do to the database *)

(** From [h] to [h'] the Record Store only grows: the activities are
    extended at the end, the stored diagnoses keep their place and [_id]
    (new ones come at the end), and the users keep their place and [_id]. *)
Definition store_grows (h h' : HState) : Prop :=
  w_activities (h_world h) `prefix_of` w_activities (h_world h') ∧
  map d__id (w_diagnoses (h_world h)) `prefix_of`
    map d__id (w_diagnoses (h_world h')) ∧
  map u__id (w_users (h_world h')) = map u__id (w_users (h_world h)).

(** The handler's session is the last document of the collection, after the
    sessions [base] that were there before the call, and is stored as the
    handler holds it. *)
Definition session_saved (base : list SyncLog) (h : HState) : Prop :=
  h_logpos h = length base ∧ w_synclogs (h_world h) = base ++ [h_log h].

(** What a session is created with and no method writes afterwards. *)
Definition session_header (l : SyncLog)
    : nat * UserId * string * string * string * string * list string * Date :=
  (s__id l, s_userId l, s_deviceId l, s_sessionId l, s_syncType l,
   s_operation l, s_dataTypes l, s_startedAt l).

(** From [h] to [h'] the session keeps its header and the clock was only
    read. *)
Definition session_kept (h h' : HState) : Prop :=
  session_header (h_log h') = session_header (h_log h) ∧
  (w_reads (h_world h) ≤ w_reads (h_world h'))%nat.

(** The stored diagnosis of [conflict_world], uploaded without lastModified. *)
Definition undated_item : Item :=
  mkItem None (Some "d1") (Some "s-1") None None (Some "patient-1") (Some 10)
    None None None None None None "cough".

(** An upload of a new diagnosis, last modified by the client at time 20. *)
Definition new_diagnosis_item : Item := diagnosis_item "d2" 10 20 "fever".

(** A profile item that gives a first name and an empty facility. *)
Definition first_name_item : Item :=
  mkItem None (Some "u1") None None None None None None (Some "Ada") None
    (Some "") None None "".

(** The handler's state at the start of the item loop of the examples. *)
Definition loop_start (w : World) : HState :=
  upload_opening plain_env nurse stale_req w.

(** What kind of error a session entry records: all but its time and its
    message. *)
Definition err_kind (e : ErrorEntry)
    : string * Severity * option string * option string :=
  (e_code e, e_severity e, e_dataType e, e_itemId e).

(** The data types whose fetch queries the Record Store with the watermark. *)
Definition dated_fetch (dataType : string) : Prop :=
  dataType = "activities" ∨ dataType = "diagnoses".

#[global] Instance dated_fetch_dec dataType : Decision (dated_fetch dataType).
Proof. unfold dated_fetch. apply _. Defined.

(** The fetch errors a download must log for its data types: one for each
    dated fetch when the watermark is not a date. *)
Definition fetch_failures (lastSync : JsDate) (dataTypes : list string)
    : list (string * Severity * option string * option string) :=
  match lastSync with
  | Some _ => []
  | None =>
      map (λ dataType, ("DATA_FETCH_ERROR", medium, Some dataType, None))
        (filter dated_fetch dataTypes)
  end.

Definition download_opening (env : Env) (cx : Caller) (req : DownloadReq)
    (w : World) : HState :=
  open_session env cx (dn_sessionId req) (dn_syncType req) (dn_operation req)
    (dn_dataTypes req) 0 w.

(** A download whose watermark is not a date. *)
Definition undated_download : DownloadReq :=
  mkDownloadReq "download" "incremental_sync"
    ["activities"; "user_profile"; "diagnoses"] (Some None) "sync-6".

(** No session with the requested id belongs to the caller on this device. *)
Definition no_own_session (cx : Caller) (req : ResolveReq) (w : World) : Prop :=
  Forall (λ l, ¬ (s__id l = rr_syncId req ∧ s_userId l = caller_userId cx ∧
                  s_deviceId l = caller_deviceId cx))
    (w_synclogs w).

#[global] Instance no_own_session_dec cx req w :
  Decision (no_own_session cx req w).
Proof. unfold no_own_session. apply _. Defined.

Definition visitor : Caller := mkCaller 8%nat "device-1".

(** ** GET /status *)

#[global] Instance Status_eq_dec : EqDecision Status.
Proof. solve_decision. Defined.

(** A status as the query string and the stored document spell it. *)
Definition status_name (st : Status) : string :=
  match st with
  | initiated => "initiated"
  | in_progress => "in_progress"
  | completed => "completed"
  | failed => "failed"
  | cancelled => "cancelled"
  | partial => "partial"
  end.

(** The query of the request: [page] and [limit] after [parseInt] (the
    pagination validator lets through integers with page ≥ 1 and
    1 ≤ limit ≤ 100), the two bounds as [new Date(x)] of what was given. *)
Record StatusReq : Type := mkStatusReq {
  st_page : option nat;
  st_limit : option nat;
  st_startDate : option JsDate;
  st_endDate : option JsDate;
  st_status : option string;
  st_syncType : option string
}.

(** A bound of [query.startedAt] as the query casts it: a bound that was
    not given is no bound, and an Invalid Date is refused. *)
Definition cast_bound (d : option JsDate) : option (option Date) :=
  match d with
  | None => Some None
  | Some (Some t) => Some (Some t)
  | Some None => None
  end.

(** [if (x) query.field = x]: a condition only when [x] is truthy. *)
Definition field_is (wanted : option string) (actual : string) : Prop :=
  truthy wanted = true → wanted = Some actual.

#[global] Instance field_is_dec wanted actual : Decision (field_is wanted actual).
Proof. unfold field_is. apply _. Defined.

Definition started_within (from to : option Date) (t : Date) : Prop :=
  match from with Some a => a ≤ t | None => True end ∧
  match to with Some b => t ≤ b | None => True end.

#[global] Instance started_within_dec from to t :
  Decision (started_within from to t).
Proof. unfold started_within. destruct from, to; apply _. Defined.

(** The [query] object of the handler. *)
Definition status_query (cx : Caller) (req : StatusReq) (from to : option Date)
    (l : SyncLog) : Prop :=
  s_userId l = caller_userId cx ∧ s_deviceId l = caller_deviceId cx ∧
  field_is (st_status req) (status_name (s_status l)) ∧
  field_is (st_syncType req) (s_syncType l) ∧
  started_within from to (s_startedAt l).

#[global] Instance status_query_dec cx req from to l :
  Decision (status_query cx req from to l).
Proof. unfold status_query. apply _. Defined.

(** Descending order on [completedAt], a missing value being the lowest. *)
Definition completed_not_after (x y : option Date) : Prop :=
  match x, y with
  | None, _ => True
  | Some _, None => False
  | Some a, Some b => a ≤ b
  end.

#[global] Instance completed_not_after_dec x y :
  Decision (completed_not_after x y).
Proof. unfold completed_not_after. destruct x, y; apply _. Defined.

Definition last_completed_first : relation SyncLog :=
  λ x y, completed_not_after (s_completedAt y) (s_completedAt x).

#[global] Instance last_completed_first_dec x y :
  Decision (last_completed_first x y).
Proof. unfold last_completed_first. apply _. Defined.

Record LatestSync : Type := mkLatest {
  ls_timestamp : option Date;
  ls_syncType : string;
  ls_operation : string;
  ls_dataTypes : list string
}.

Record StatusData : Type := mkStatusData {
  sd_syncLogs : list SyncLog;
  sd_page : nat;
  sd_limit : nat;
  sd_total : nat;
  sd_pages : nat;
  sd_latestSync : option LatestSync
}.

(** [Math.ceil(total / limit)] for a positive [limit]. *)
Definition Math_ceil_div (total limit : nat) : nat :=
  ((total + limit - 1) / limit)%nat.

(** [SyncLog.findOne({ userId, deviceId, status: 'completed' })
      .sort({ completedAt: -1 })] *)
Definition SyncLog_latest_completed (cx : Caller) (w : World) : option SyncLog :=
  head (merge_sort last_completed_first
          (filter (λ l, s_userId l = caller_userId cx ∧
                        s_deviceId l = caller_deviceId cx ∧
                        s_status l = completed)
             (w_synclogs w))).

(** The handler; [None] is the answer of its [catch] (a bound that the
    query cannot cast). *)
Definition get_status (cx : Caller) (req : StatusReq) (w : World)
    : option StatusData :=
  let page := default 1%nat (st_page req) in
  let limit := default 20%nat (st_limit req) in
  match cast_bound (st_startDate req), cast_bound (st_endDate req) with
  | Some from, Some to =>
      let matching := filter (status_query cx req from to) (w_synclogs w) in
      let syncLogs :=
        take limit (drop ((page - 1) * limit)
          (merge_sort (newer_first s_startedAt) matching)) in
      let total := length matching in
      Some (mkStatusData syncLogs page limit total (Math_ceil_div total limit)
              (match SyncLog_latest_completed cx w with
               | Some latestSync =>
                   Some (mkLatest (s_completedAt latestSync)
                           (s_syncType latestSync) (s_operation latestSync)
                           (s_dataTypes latestSync))
               | None => None
               end))
  | _, _ => None
  end.

(** The same request for another page. *)
Definition on_page (page : nat) (req : StatusReq) : StatusReq :=
  mkStatusReq (Some page) (st_limit req) (st_startDate req) (st_endDate req)
    (st_status req) (st_syncType req).

(** The sessions of the pages 1 to [n] of a request, in order. *)
Definition status_pages (cx : Caller) (req : StatusReq) (w : World) (n : nat)
    : list SyncLog :=
  concat (map (λ page, from_option sd_syncLogs [] (get_status cx (on_page page req) w))
            (seq 1 n)).

(** The sessions the query of a status request selects. *)
Definition status_matching (cx : Caller) (req : StatusReq) (w : World)
    : list SyncLog :=
  match cast_bound (st_startDate req), cast_bound (st_endDate req) with
  | Some from, Some to => filter (status_query cx req from to) (w_synclogs w)
  | _, _ => []
  end.

(** A completed session of the caller on this device. *)
Definition own_completed (cx : Caller) (l : SyncLog) : Prop :=
  s_userId l = caller_userId cx ∧ s_deviceId l = caller_deviceId cx ∧
  s_status l = completed.

(** The first page of the caller's completed uploads, ten a page. *)
Definition completed_uploads : StatusReq :=
  mkStatusReq None (Some 10%nat) None None (Some "completed") (Some "upload").

(** A database with the sessions of three uploads of the nurse. *)
Definition three_sessions_world : World :=
  h_world (upload_state plain_env nurse one_activity_req
    (h_world (upload_state plain_env nurse five_items_req
       (h_world (upload_state plain_env nurse one_activity_req fresh_world))))).

(** The answer to [completed_uploads] on [three_sessions_world]. *)
Definition status_example : StatusData :=
  default (mkStatusData [] 0 0 0 0 None)
    (get_status nurse completed_uploads three_sessions_world).

(** An activity that carries its own createdAt (time 5000), and an upload of
    just this item. *)
Definition dated_activity_item : Item :=
  mkItem None (Some "a9") (Some "s-1") (Some "login") (Some 1) None (Some 5000)
    None None None None None None "".

Definition dated_activity_req : UploadReq :=
  mkUploadReq "upload" "incremental_sync" ["activities"]
    (<["activities" := JArray [dated_activity_item]]> ∅) "sync-7".

(** An upload of one item of a data type that the validator of the route
    lets through and the item switch does not support. *)
Definition one_unsupported_req : UploadReq :=
  mkUploadReq "upload" "full_sync" ["preferences"]
    (<["preferences" := JArray [blank_item]]> ∅) "sync-8".

(** * Properties *)

Section Ledger.
Variable env : Env.

Lemma bind_val {A B : Type} (m : M A) (f : A → M B) h a h' :
  m h = (Val a, h') → (m ≫= f) h = f a h'.
Proof. intros H. unfold mbind, M_bind. by rewrite H. Qed.

Lemma bind_exn {A B : Type} (m : M A) (f : A → M B) h msg h' :
  m h = (Exn msg, h') → (m ≫= f) h = (Exn msg, h').
Proof. intros H. unfold mbind, M_bind. by rewrite H. Qed.

Lemma refresh_counters p : counters (refresh_percentage env p) = counters p.
Proof. unfold refresh_percentage. by destruct (totalItems p >? 0). Qed.

Lemma refresh_total p : totalItems (refresh_percentage env p) = totalItems p.
Proof. unfold refresh_percentage. by destruct (totalItems p >? 0). Qed.
Lemma refresh_processed p :
  processedItems (refresh_percentage env p) = processedItems p.
Proof. unfold refresh_percentage. by destruct (totalItems p >? 0). Qed.
Lemma refresh_successful p :
  successfulItems (refresh_percentage env p) = successfulItems p.
Proof. unfold refresh_percentage. by destruct (totalItems p >? 0). Qed.
Lemma refresh_failed p : failedItems (refresh_percentage env p) = failedItems p.
Proof. unfold refresh_percentage. by destruct (totalItems p >? 0). Qed.
Lemma refresh_skipped p :
  skippedItems (refresh_percentage env p) = skippedItems p.
Proof. unfold refresh_percentage. by destruct (totalItems p >? 0). Qed.

Lemma refresh_total_zero p :
  totalItems p = 0 → refresh_percentage env p = p.
Proof. unfold refresh_percentage. by intros ->. Qed.

Lemma refresh_percentage_value p :
  percentage (refresh_percentage env p) =
    if totalItems p >? 0
    then Math_round_pct env (processedItems p) (totalItems p)
    else percentage p.
Proof. unfold refresh_percentage. by destruct (totalItems p >? 0). Qed.

Lemma pre_save_status t l : s_status (SyncLog_pre_save env t l) = s_status l.
Proof. unfold SyncLog_pre_save. by destruct (s_completedAt l). Qed.
Lemma pre_save_errors t l : s_errors (SyncLog_pre_save env t l) = s_errors l.
Proof. unfold SyncLog_pre_save. by destruct (s_completedAt l). Qed.
Lemma pre_save_conflicts t l :
  s_conflicts (SyncLog_pre_save env t l) = s_conflicts l.
Proof. unfold SyncLog_pre_save. by destruct (s_completedAt l). Qed.
Lemma pre_save_id t l : s__id (SyncLog_pre_save env t l) = s__id l.
Proof. unfold SyncLog_pre_save. by destruct (s_completedAt l). Qed.
Lemma pre_save_progress t l :
  s_progress (SyncLog_pre_save env t l) = refresh_percentage env (s_progress l).
Proof. unfold SyncLog_pre_save. by destruct (s_completedAt l). Qed.

Local Opaque SyncLog_pre_save refresh_percentage.

Create Rewrite HintDb ledger.

Hint Rewrite pre_save_status pre_save_errors pre_save_conflicts pre_save_id
  pre_save_progress refresh_counters refresh_total refresh_processed
  refresh_successful refresh_failed refresh_skipped refresh_percentage_value
  : ledger.

Ltac ledger_simpl := repeat (progress (autorewrite with ledger; simpl)).

Lemma SyncLog_save_run h :
  ∃ h', SyncLog_save env h = (Val tt, h') ∧
    h_results h' = h_results h ∧ record_store h' = record_store h ∧
    h_logpos h' = h_logpos h ∧
    h_log h' = SyncLog_pre_save env (clock env (w_reads (h_world h))) (h_log h) ∧
    w_synclogs (h_world h') = <[h_logpos h := h_log h']> (w_synclogs (h_world h)).
Proof. eexists. split; [reflexivity|]. by repeat split. Qed.


Ltac munfold :=
  unfold activities_item, diagnoses_item, user_profile_item, Activity_findOne,
    Activity_create, Diagnosis_findOne, Diagnosis_create, Diagnosis_save,
    User_findByIdAndUpdate, check_write, cast_date, new_doc_id, fresh_id, now,
    addConflict, addError, updateProgress, markCompleted, push_conflict,
    push_successful, push_failed, SyncLog_save, modify, get, throw, try_catch,
    mbind, M_bind, mret, M_ret in *.

Ltac case_step :=
  match goal with
  | |- context [match item_timestamp ?i with _ => _ end] =>
      destruct (item_timestamp i) eqn:?
  | |- context [match item_createdAt ?i with _ => _ end] =>
      destruct (item_createdAt i) eqn:?
  | |- context [match item__id ?i with _ => _ end] =>
      destruct (item__id i) eqn:?
  | |- context [match store_rejects ?e ?o ?i ?w with _ => _ end] =>
      destruct (store_rejects e o i w) eqn:?
  | |- context [match list_find ?P ?l with _ => _ end] =>
      destruct (list_find P l) as [[? ?]|] eqn:?
  | |- context [if date_lt ?a ?b then _ else _] =>
      destruct (date_lt a b) eqn:?
  | |- context [if date_gt ?a ?b then _ else _] =>
      destruct (date_gt a b) eqn:?
  | |- context [if has_update_fields ?i then _ else _] =>
      destruct (has_update_fields i) eqn:?
  end.

Lemma item_switch_ledger cx dt item h r h1 :
  item_switch env cx dt item h = (r, h1) →
  h_logpos h1 = h_logpos h ∧
  successful (h_results h1) = successful (h_results h) ∧
  failed_items (h_results h1) = failed_items (h_results h) ∧
  s_errors (h_log h1) = s_errors (h_log h) ∧
  s_status (h_log h1) = s_status (h_log h) ∧
  counters (s_progress (h_log h1)) = counters (s_progress (h_log h)) ∧
  match r with
  | Val Continue =>
      dt = "diagnoses" ∧
      conflicts (h_results h1) =
        conflicts (h_results h) ++
          [mkReport (itemId item) dt "concurrent_modification"] ∧
      (∃ d, s_conflicts (h_log h1) =
        s_conflicts (h_log h) ++
          [mkConflict (itemId item) dt concurrent_modification manual_review
             None None (Some item) (Some d) None]) ∧
      record_store h1 = record_store h ∧
      percentage (s_progress (h_log h1)) =
        percentage (refresh_percentage env (s_progress (h_log h)))
  | _ => h_results h1 = h_results h ∧ h_log h1 = h_log h
  end.
Proof.
  unfold item_switch. repeat case_decide; munfold; simpl;
    repeat (case_step; simpl); intros [= <- <-]; simpl;
    autorewrite with ledger; simpl; repeat split; try done;
    eexists; reflexivity.
Qed.


Lemma counters_inv p q :
  counters p = counters q →
  totalItems p = totalItems q ∧ processedItems p = processedItems q ∧
  successfulItems p = successfulItems q ∧ failedItems p = failedItems q ∧
  skippedItems p = skippedItems q.
Proof. unfold counters. intros [= -> -> -> -> ->]. done. Qed.

Lemma record_success_effect dt item sid h :
  ∃ h', record_success env dt item sid h = (Val Succeeded, h') ∧
    record_store h' = record_store h ∧
    successful (h_results h') =
      successful (h_results h) ++ [mkSuccess (itemId item) dt sid] ∧
    item_effect env dt item Succeeded h h'.
Proof.
  eexists. split; [unfold record_success; munfold; simpl; reflexivity|].
  split; [reflexivity|]. split; [reflexivity|].
  unfold item_effect. simpl. ledger_simpl.
  destruct (totalItems (s_progress (h_log h)) >? 0) eqn:E;
    repeat split; eauto.
Qed.

Lemma catch_item_effect dt item msg h :
  ∃ h', catch_item env dt item msg h = (Val (Failed msg), h') ∧
    record_store h' = record_store h ∧
    item_effect env dt item (Failed msg) h h'.
Proof.
  eexists. split; [unfold catch_item; munfold; simpl; reflexivity|].
  split; [reflexivity|].
  unfold item_effect. simpl. ledger_simpl.
  repeat split; eauto.
Qed.

Lemma item_effect_from dt item o h h1 h' :
  h_logpos h1 = h_logpos h → h_results h1 = h_results h → h_log h1 = h_log h →
  (o = Conflicted → record_store h1 = record_store h) →
  item_effect env dt item o h1 h' → item_effect env dt item o h h'.
Proof.
  unfold item_effect. intros -> -> -> Hs. destruct o; try done.
  by rewrite Hs.
Qed.

Lemma process_item_total cx dt item : total (process_item env cx dt item).
Proof.
  intros h. unfold process_item, try_catch, mbind, M_bind.
  destruct (item_switch env cx dt item h) as [[[sid|]|msg] h1].
  - destruct (record_success_effect dt item sid h1) as (h' & -> & _). eauto.
  - eauto.
  - destruct (catch_item_effect dt item msg h1) as (h' & -> & _). eauto.
Qed.

Lemma process_item_effect cx dt item h o h' :
  process_item env cx dt item h = (Val o, h') →
  item_effect env dt item o h h'.
Proof.
  unfold process_item, try_catch, mbind, M_bind.
  destruct (item_switch env cx dt item h) as [[[sid|]|msg] h1] eqn:Hsw;
    apply item_switch_ledger in Hsw as (Hpos & Hs & Hf & He & Hst & Hc & Hr).
  - destruct Hr as [Hres Hlog].
    destruct (record_success_effect dt item sid h1) as (h2 & -> & _ & _ & Heff).
    intros [= <- <-]. by eapply item_effect_from.
  - destruct Hr as (_ & Hcf & [d Hcs] & Hstore & Hpct).
    intros [= <- <-]. unfold mret, M_ret. 
    apply counters_inv in Hc as (Ht & Hp & Hsu & Hfa & Hsk).
    unfold item_effect. rewrite Hpct, refresh_percentage_value, Hp, Ht.
    repeat split; eauto.
  - destruct Hr as [Hres Hlog].
    destruct (catch_item_effect dt item msg h1) as (h2 & -> & _ & Heff).
    intros [= <- <-]. by eapply item_effect_from.
Qed.


(** *** The item loop *)

Lemma for_work_cons cx dt item rest h os h' :
  for_work env cx ((dt, item) :: rest) h = (Val os, h') →
  ∃ o h1 os', process_item env cx dt item h = (Val o, h1) ∧
    for_work env cx rest h1 = (Val os', h') ∧ os = o :: os'.
Proof.
  simpl. unfold mbind, M_bind, mret, M_ret.
  destruct (process_item env cx dt item h) as [[o|msg] h1]; [|done].
  destruct (for_work env cx rest h1) as [[os'|msg] h2] eqn:E; [|done].
  intros [= <- <-]. by exists o, h1, os'.
Qed.

Lemma for_work_total cx work : total (for_work env cx work).
Proof.
  induction work as [|[dt item] rest IH]; intros h; simpl.
  - unfold mret, M_ret. eauto.
  - unfold mbind, M_bind, mret, M_ret.
    destruct (process_item_total cx dt item h) as (o & h1 & ->).
    destruct (IH h1) as (os & h2 & ->). eauto.
Qed.

Lemma for_work_app cx w1 w2 h :
  for_work env cx (w1 ++ w2) h =
    (os1 ← for_work env cx w1; os2 ← for_work env cx w2; mret (os1 ++ os2)) h.
Proof.
  revert h. induction w1 as [|[dt item] rest IH]; intros h; simpl.
  - unfold mbind, M_bind, mret, M_ret. simpl.
    by destruct (for_work env cx w2 h) as [[?|?] ?].
  - unfold mbind, M_bind, mret, M_ret in *.
    destruct (process_item env cx dt item h) as [[o|msg] h1]; [|done].
    rewrite IH.
    destruct (for_work env cx rest h1) as [[os1|msg] h2]; [|done].
    by destruct (for_work env cx w2 h2) as [[?|?] ?].
Qed.

Lemma for_items_for_work cx dt items h :
  for_items env cx dt items h = for_work env cx (map (pair dt) items) h.
Proof.
  revert h. induction items as [|item rest IH]; intros h; simpl; [done|].
  unfold mbind, M_bind.
  destruct (process_item env cx dt item h) as [[o|msg] h1]; [|done].
  by rewrite IH.
Qed.

Lemma for_dataTypes_worklist cx data dataTypes h :
  for_dataTypes env cx data dataTypes h =
    for_work env cx (worklist data dataTypes) h.
Proof.
  revert h. induction dataTypes as [|dt rest IH]; intros h; simpl; [done|].
  unfold worklist. simpl. rewrite for_work_app.
  unfold mbind, M_bind.
  assert (Hfirst :
    (match data !! dt return M (list Outcome) with
     | Some (JArray items) => for_items env cx dt items
     | _ => mret []
     end) h =
    for_work env cx
      (match data !! dt with
       | Some (JArray items) => map (pair dt) items
       | _ => []
       end) h).
  { destruct (data !! dt) as [[items|b]|]; simpl; try done.
    apply for_items_for_work. }
  rewrite Hfirst.
  destruct (for_work env cx _ h) as [[os1|msg] h1]; [|done].
  by rewrite IH.
Qed.

Lemma item_effect_progress_ok dt item o h h' :
  item_effect env dt item o h h' →
  progress_ok env (s_progress (h_log h)) ∧ skippedItems (s_progress (h_log h)) = 0 →
  progress_ok env (s_progress (h_log h')) ∧ skippedItems (s_progress (h_log h')) = 0.
Proof.
  unfold item_effect, progress_ok, Z_length.
  intros (_ & _ & Ht & Hsk & Hpct & Ho) [(Hsum & H0 & H1 & H2 & H3 & H4 & Hp) Hz].
  rewrite Hpct, Ht, Hsk.
  destruct o.
  - destruct Ho as (_ & _ & _ & _ & _ & -> & -> & ->). repeat split; try lia.
    destruct (totalItems (s_progress (h_log h)) >? 0); done.
  - destruct Ho as (_ & _ & _ & _ & _ & -> & -> & -> & _).
    repeat split; try lia.
    destruct (totalItems (s_progress (h_log h)) >? 0); done.
  - destruct Ho as (_ & _ & _ & _ & _ & -> & -> & ->).
    repeat split; try lia.
    destruct (totalItems (s_progress (h_log h)) >? 0); done.
Qed.

Lemma Z_length_app {A : Type} (l1 l2 : list A) :
  Z_length (l1 ++ l2) = Z_length l1 + Z_length l2.
Proof. unfold Z_length. rewrite length_app. lia. Qed.

Ltac conj_split := repeat match goal with |- _ ∧ _ => split end.

Lemma for_work_accounting cx work h os h' :
  for_work env cx work h = (Val os, h') →
  let r := h_results h in
  let r' := h_results h' in
  let l := h_log h in
  let l' := h_log h' in
  let p := s_progress l in
  let p' := s_progress l' in
  length os = length work ∧
  h_logpos h' = h_logpos h ∧ s_status l' = s_status l ∧
  totalItems p' = totalItems p ∧ skippedItems p' = skippedItems p ∧
  Z_length (successful r') = Z_length (successful r) + count_where is_succeeded os ∧
  Z_length (failed_items r') = Z_length (failed_items r) + count_where is_failed os ∧
  Z_length (conflicts r') = Z_length (conflicts r) + count_where is_conflicted os ∧
  Z_length (s_conflicts l') = Z_length (s_conflicts l) + count_where is_conflicted os ∧
  map err_ref (s_errors l') = map err_ref (s_errors l) ++ failure_refs work os ∧
  (successfulItems p', failedItems p') =
    ledger_counts (Z_length (successful r)) (Z_length (failed_items r))
      (successfulItems p, failedItems p) os ∧
  (progress_ok env p ∧ skippedItems p = 0 →
   progress_ok env p' ∧ skippedItems p' = 0).
Proof.
  revert h os. induction work as [|[dt item] rest IH]; intros h os.
  - simpl. unfold mret, M_ret. intros [= <- <-]. simpl.
    rewrite app_nil_r. conj_split; simpl; try done; lia.
  - intros Hrun. apply for_work_cons in Hrun as (o & h1 & os' & Hitem & Hrest & ->).
    apply process_item_effect in Hitem.
    pose proof (item_effect_progress_ok _ _ _ _ _ Hitem) as Hok.
    apply IH in Hrest. clear IH. simpl in Hrest.
    destruct Hrest as (Hlen & Hpos & Hst & Ht & Hsk & Hs & Hf & Hc & Hcs & He & Hl & Hinv).
    unfold item_effect in Hitem.
    destruct Hitem as (Hpos1 & Hst1 & Ht1 & Hsk1 & _ & Ho).
    cbn zeta. rewrite Hpos, Hst, Ht, Hsk, Hs, Hf, Hc, Hcs, He, Hl.
    rewrite Hpos1, Hst1, Ht1, Hsk1.
    split; [simpl; lia|]. do 4 (split; [done|]).
    destruct o; simpl.
    + destruct Ho as ([sid Hs1] & -> & -> & -> & -> & _ & -> & ->).
      rewrite Hs1, Z_length_app.
      conj_split; try (unfold Z_length; simpl; lia); try tauto.
    + destruct Ho as (-> & -> & -> & -> & [d ->] & _ & -> & -> & _).
      rewrite !Z_length_app.
      conj_split; try (unfold Z_length; simpl; lia); try tauto.
    + destruct Ho as (-> & -> & -> & (e & -> & Hr) & -> & _ & -> & ->).
      rewrite !Z_length_app, map_app. simpl. rewrite Hr, <- app_assoc. simpl.
      conj_split; try (unfold Z_length; simpl; lia); try tauto.
Qed.


(** *** The whole upload call *)

Lemma markCompleted_run st h :
  ∃ h', markCompleted env st h = (Val tt, h') ∧
    h_results h' = h_results h ∧ record_store h' = record_store h ∧
    h_logpos h' = h_logpos h ∧ s_status (h_log h') = st ∧
    s_errors (h_log h') = s_errors (h_log h) ∧
    s_conflicts (h_log h') = s_conflicts (h_log h) ∧
    s_progress (h_log h') = refresh_percentage env (s_progress (h_log h)).
Proof.
  eexists. split; [unfold markCompleted; munfold; simpl; reflexivity|].
  simpl. ledger_simpl. by repeat split.
Qed.

Lemma count_uploaded_nonneg (data : gmap string JsonVal) :
  0 ≤ count_uploaded data.
Proof.
  unfold count_uploaded.
  apply (map_fold_weak_ind (λ r _, 0 ≤ r)); [done|].
  intros k v m r _ Hr. unfold count_array, Z_length. destruct v; lia.
Qed.

Lemma opening_fields cx req w :
  let h := upload_opening env cx req w in
  h_results h = mkResults [] [] [] ∧ s_errors (h_log h) = [] ∧
  s_conflicts (h_log h) = [] ∧ s_status (h_log h) = in_progress ∧
  s_progress (h_log h) =
    refresh_percentage env (mkProgress (count_uploaded (up_data req)) 0 0 0 0 0) ∧
  record_store h = (w_activities w, w_diagnoses w, w_users w).
Proof. unfold upload_opening, open_session. simpl. ledger_simpl. by repeat split. Qed.

Lemma opening_progress_ok cx req w :
  progress_ok env (s_progress (h_log (upload_opening env cx req w))) ∧
  skippedItems (s_progress (h_log (upload_opening env cx req w))) = 0.
Proof.
  destruct (opening_fields cx req w) as (_ & _ & _ & _ & -> & _).
  pose proof (count_uploaded_nonneg (up_data req)).
  unfold progress_ok. ledger_simpl.
  destruct (count_uploaded (up_data req) >? 0); repeat split; lia.
Qed.

Lemma upload_run cx req w :
  ∃ os h1 h2,
    for_work env cx (worklist (up_data req) (up_dataTypes req))
      (upload_opening env cx req w) = (Val os, h1) ∧
    upload env cx req w =
      (Val (UploadDone
              (if Z_length (failed_items (h_results h1)) >? 0 then partial else completed)
              (s__id (h_log h1)) (Z_length (successful (h_results h1)))
              (Z_length (failed_items (h_results h1)))
              (Z_length (conflicts (h_results h1))) (h_results h1), os), h2) ∧
    h_results h2 = h_results h1 ∧ record_store h2 = record_store h1 ∧
    s_status (h_log h2) =
      (if Z_length (failed_items (h_results h1)) >? 0 then partial else completed) ∧
    s_errors (h_log h2) = s_errors (h_log h1) ∧
    s_conflicts (h_log h2) = s_conflicts (h_log h1) ∧
    s_progress (h_log h2) = refresh_percentage env (s_progress (h_log h1)).
Proof.
  destruct (for_work_total cx (worklist (up_data req) (up_dataTypes req))
              (upload_opening env cx req w)) as (os & h1 & Hrun).
  destruct (markCompleted_run
              (if Z_length (failed_items (h_results h1)) >? 0 then partial else completed)
              h1) as (h2 & Hmc & Hres & Hstore & _ & Hst & He & Hc & Hp).
  exists os, h1, h2. split; [done|]. split; [|done].
  unfold upload, upload_try, try_catch.
  fold (upload_opening env cx req w).
  unfold mbind at 1. unfold M_bind at 1.
  rewrite for_dataTypes_worklist, Hrun.
  unfold mbind, M_bind, get. rewrite Hmc. done.
Qed.


Lemma upload_views cx req w :
  ∃ os h1,
    for_work env cx (worklist (up_data req) (up_dataTypes req))
      (upload_opening env cx req w) = (Val os, h1) ∧
    upload_outcomes env cx req w = os ∧
    upload_results env cx req w = h_results h1 ∧
    record_store (upload_state env cx req w) = record_store h1 ∧
    s_status (upload_session env cx req w) =
      (if Z_length (failed_items (h_results h1)) >? 0 then partial else completed) ∧
    s_errors (upload_session env cx req w) = s_errors (h_log h1) ∧
    s_conflicts (upload_session env cx req w) = s_conflicts (h_log h1) ∧
    s_progress (upload_session env cx req w) =
      refresh_percentage env (s_progress (h_log h1)) ∧
    fst (upload env cx req w) =
      Val (UploadDone (s_status (upload_session env cx req w)) (s__id (h_log h1))
             (Z_length (successful (h_results h1)))
             (Z_length (failed_items (h_results h1)))
             (Z_length (conflicts (h_results h1))) (h_results h1), os).
Proof.
  destruct (upload_run cx req w)
    as (os & h1 & h2 & Hrun & Hup & Hres & Hstore & Hst & He & Hc & Hp).
  exists os, h1.
  unfold upload_outcomes, upload_results, upload_session, upload_state.
  rewrite Hup. simpl. rewrite Hst. by repeat split.
Qed.

(** C3.  An upload call always runs its item loop to the end and answers;
    its session then has status [completed] when no item failed and [partial]
    otherwise, the number of failed items being the length of
    [results.failed].  In particular, when the loop visits five items of
    which the third is of an unsupported data type and fails with that error
    while the other four succeed, the session ends [partial] with
    failedItems = 1, successfulItems = 4 and exactly one error entry, which
    refers to the third item. *)
Theorem upload_final_status cx req w :
  let session := upload_session env cx req w in
  let results := upload_results env cx req w in
  let outcomes := upload_outcomes env cx req w in
  (∃ syncId,
     fst (upload env cx req w) =
       Val (UploadDone (s_status session) syncId (Z_length (successful results))
              (Z_length (failed_items results)) (Z_length (conflicts results))
              results, outcomes)) ∧
  Z_length (failed_items results) = count_where is_failed outcomes ∧
  s_status session =
    (if Z_length (failed_items results) =? 0 then completed else partial) ∧
  (∀ x1 x2 dataType3 item3 x4 x5,
     worklist (up_data req) (up_dataTypes req) =
       [x1; x2; (dataType3, item3); x4; x5] →
     outcomes =
       [Succeeded; Succeeded; Failed ("Unsupported data type: " +:+ dataType3);
        Succeeded; Succeeded] →
     s_status session = partial ∧
     failedItems (s_progress session) = 1 ∧
     successfulItems (s_progress session) = 4 ∧
     ∃ e, s_errors session = [e] ∧ e_itemId e = itemId item3 ∧
          e_dataType e = Some dataType3 ∧
          e_message e = "Unsupported data type: " +:+ dataType3).
Proof.
  destruct (upload_views cx req w)
    as (os & h1 & Hrun & -> & -> & _ & Hst & He & _ & Hp & Hfst).
  cbn zeta. rewrite Hfst, Hst, He, Hp.
  apply for_work_accounting in Hrun. cbn zeta in Hrun.
  destruct (opening_fields cx req w) as (Hr0 & He0 & _ & _ & Hp0 & _).
  rewrite Hr0, He0, Hp0 in Hrun. simpl in Hrun.
  autorewrite with ledger in Hrun. simpl in Hrun.
  destruct Hrun as (_ & _ & _ & _ & _ & Hs & Hf & _ & _ & Herr & Hl & _).
  change (Z_length []) with 0 in Hf, Hs.
  split; [eauto|]. split; [lia|].
  split.
  { unfold Z_length. destruct (failed_items (h_results h1)); done. }
  intros x1 x2 dt3 item3 x4 x5 Hwork ->.
  rewrite Hwork in Herr. simpl in Hf, Hl, Herr.
  injection Hl as Hsu Hfa. autorewrite with ledger.
  destruct x1, x2, x4, x5. simpl in Herr.
  destruct (s_errors (h_log h1)) as [|e [|e' es]]; try done.
  injection Herr as Hcode Hmsg Hsev Hdt Hid.
  split. { unfold Z_length in *. destruct (failed_items (h_results h1)); done. }
  split; [done|]. split; [done|]. by exists e.
Qed.

Lemma refresh_progress_ok p :
  progress_ok env p → progress_ok env (refresh_percentage env p).
Proof.
  unfold progress_ok. ledger_simpl. intros (? & ? & ? & ? & ? & ? & Hp).
  conj_split; try done.
  by destruct (totalItems p >? 0).
Qed.

Lemma upload_progress_ok_after cx req w k :
  progress_ok env (s_progress (h_log (upload_state_after env cx req w k))).
Proof.
  unfold upload_state_after.
  destruct (for_work_total cx (take k (worklist (up_data req) (up_dataTypes req)))
              (upload_opening env cx req w)) as (os & h1 & Hrun).
  rewrite Hrun. apply for_work_accounting in Hrun.
  by apply Hrun, opening_progress_ok.
Qed.

Lemma upload_progress_ok_final cx req w :
  progress_ok env (s_progress (upload_session env cx req w)).
Proof.
  destruct (upload_views cx req w)
    as (os & h1 & Hrun & _ & _ & _ & _ & _ & _ & -> & _).
  apply refresh_progress_ok. apply for_work_accounting in Hrun.
  by apply Hrun, opening_progress_ok.
Qed.

(** The item loop of an upload passes through the state reached after its
    first [k] items. *)
Lemma upload_loop_through cx req w k :
  let work := worklist (up_data req) (up_dataTypes req) in
  for_work env cx work (upload_opening env cx req w) =
    (os1 ← for_work env cx (take k work);
     os2 ← for_work env cx (drop k work);
     mret (os1 ++ os2)) (upload_opening env cx req w).
Proof. intros work. by rewrite <- for_work_app, take_drop. Qed.

Lemma upload_state_after_all cx req w :
  for_work env cx (worklist (up_data req) (up_dataTypes req))
    (upload_opening env cx req w) =
  (Val (upload_outcomes env cx req w),
   upload_state_after env cx req w
     (length (worklist (up_data req) (up_dataTypes req)))).
Proof.
  destruct (upload_views cx req w) as (os & h1 & Hrun & -> & _).
  unfold upload_state_after. by rewrite firstn_all, Hrun.
Qed.


(** *** Counting the uploaded items *)

Lemma count_uploaded_lookup (data : gmap string JsonVal) k v :
  data !! k = Some v →
  count_uploaded data = count_uploaded (delete k data) + count_array v.
Proof.
  intros Hk. unfold count_uploaded.
  rewrite (map_fold_delete_L _ _ k v data); [done| |done].
  intros. lia.
Qed.

Lemma worklist_nonempty_count (data : gmap string JsonVal) dataTypes :
  worklist data dataTypes ≠ [] → 0 < count_uploaded data.
Proof.
  induction dataTypes as [|dt rest IH]; [done|].
  unfold worklist. simpl. fold (worklist data rest).
  destruct (data !! dt) as [[[|item items]|b]|] eqn:Hdt; simpl; try done.
  intros _. rewrite (count_uploaded_lookup _ _ _ Hdt).
  pose proof (count_uploaded_nonneg (delete dt data)).
  unfold count_array, Z_length. simpl. lia.
Qed.

Lemma all_conflicted_counts s f cur os :
  Forall (λ o, o = Conflicted) os →
  ledger_counts s f cur os = cur ∧ count_where is_failed os = 0 ∧
  count_where is_succeeded os = 0.
Proof.
  induction 1 as [|o os -> _ IH]; [done|]. simpl.
  destruct IH as (-> & -> & ->). done.
Qed.

Lemma Z_length_zero {A : Type} (l : list A) : Z_length l = 0 → l = [].
Proof. by destruct l. Qed.

(** C10.  An item that ends as a diagnosis conflict is added to neither
    [results.successful] nor [results.failed], and the session's
    processedItems, successfulItems and failedItems stay as they were.  Hence
    an upload whose items all end as conflicts (and that has at least one
    item) finishes with status [completed], processedItems = 0 and
    totalItems > 0. *)
Theorem conflict_not_counted cx :
  (∀ dataType item h h',
     process_item env cx dataType item h = (Val Conflicted, h') →
     dataType = "diagnoses" ∧
     successful (h_results h') = successful (h_results h) ∧
     failed_items (h_results h') = failed_items (h_results h) ∧
     conflicts (h_results h') =
       conflicts (h_results h) ++
         [mkReport (itemId item) dataType "concurrent_modification"] ∧
     processedItems (s_progress (h_log h')) = processedItems (s_progress (h_log h)) ∧
     successfulItems (s_progress (h_log h')) = successfulItems (s_progress (h_log h)) ∧
     failedItems (s_progress (h_log h')) = failedItems (s_progress (h_log h))) ∧
  (∀ req w,
     upload_outcomes env cx req w ≠ [] →
     Forall (λ o, o = Conflicted) (upload_outcomes env cx req w) →
     s_status (upload_session env cx req w) = completed ∧
     processedItems (s_progress (upload_session env cx req w)) = 0 ∧
     successfulItems (s_progress (upload_session env cx req w)) = 0 ∧
     failedItems (s_progress (upload_session env cx req w)) = 0 ∧
     0 < totalItems (s_progress (upload_session env cx req w)) ∧
     successful (upload_results env cx req w) = [] ∧
     failed_items (upload_results env cx req w) = []).
Proof.
  split.
  - intros dt item h h' Hitem.
    assert (Hdt : dt = "diagnoses").
    { revert Hitem. unfold process_item, try_catch, mbind, M_bind.
      destruct (item_switch env cx dt item h) as [[[sid|]|msg] h1] eqn:Hsw.
      - destruct (record_success_effect dt item sid h1) as (h2 & -> & _). done.
      - intros _. by apply item_switch_ledger in Hsw as (_ & _ & _ & _ & _ & _ & ? & _).
      - destruct (catch_item_effect dt item msg h1) as (h2 & -> & _). done. }
    apply process_item_effect in Hitem. unfold item_effect in Hitem.
    destruct Hitem as (_ & _ & _ & _ & _ & Hs & Hf & Hc & _ & _ & Hp & Hsu & Hfa & _).
    done.
  - intros req w Hne Hall.
    pose proof (upload_progress_ok_final cx req w) as Hok.
    destruct (upload_views cx req w)
      as (os & h1 & Hrun & Hos & Hres & _ & Hst & _ & _ & Hp & _).
    rewrite Hos in Hne, Hall. rewrite Hres, Hst.
    destruct (all_conflicted_counts 0 0 (0, 0) os Hall) as (Hl0 & Hf0 & Hs0).
    apply for_work_accounting in Hrun. cbn zeta in Hrun.
    destruct (opening_fields cx req w) as (Hr0 & _ & _ & _ & Hp0 & _).
    rewrite Hr0, Hp0 in Hrun. simpl in Hrun.
    autorewrite with ledger in Hrun. simpl in Hrun.
    change (Z_length []) with 0 in Hrun. rewrite Hl0, Hf0, Hs0 in Hrun.
    destruct Hrun as (Hlen & _ & _ & Ht & Hsk & Hs & Hf & _ & _ & _ & Hl & _).
    injection Hl as Hsu Hfa.
    apply Z_length_zero in Hs, Hf. rewrite Hs, Hf.
    unfold progress_ok in Hok. rewrite Hp in Hok |- *.
    autorewrite with ledger in Hok |- *.
    rewrite Hsu, Hfa, Hsk, Ht in *. destruct Hok as (Hproc & _).
    conj_split; try done; try lia.
    apply (worklist_nonempty_count _ (up_dataTypes req)).
    intros Hnil. rewrite Hnil in Hlen. by destruct os.
Qed.

(** *** Diagnoses: the conflict decision *)

Ltac run_item :=
  unfold process_item, item_switch;
  rewrite ?decide_True by done; rewrite ?decide_False by done;
  unfold record_success, catch_item; munfold; simpl.

(** C1.  For an uploaded diagnosis item L (with a valid createdAt) and the
    stored record S found by the lookup on (user, device, session, patient
    id, createdAt): when there is no S and the database accepts the insert, L
    is created (a new record with L's content, syncStatus synced) and counted
    as successful; when S.lastModified < L.lastModified and the database
    accepts the update, S is overwritten in place by L's content and the item
    is successful; when S.lastModified > L.lastModified, the stored records
    are unchanged, a conflict entry of type concurrent_modification holding L
    and S is appended to the session and the item is reported as a conflict;
    when S.lastModified = L.lastModified, the stored records are unchanged
    and the item is successful with S as its saved record. *)
Theorem diagnosis_conflict_decision cx item createdAt h :
  item_createdAt item = Some createdAt →
  let stored :=
    list_find
      (same_diagnosis (caller_userId cx) (caller_deviceId cx)
         (item_sessionId item) (item_patient_id item) createdAt)
      (w_diagnoses (h_world h)) in
  let w1 := with_reads (S (w_reads (h_world h))) (h_world h) in
  (stored = None → store_rejects env InsertDiagnosis item w1 = None →
   ∃ h' doc,
     process_item env cx "diagnoses" item h = (Val Succeeded, h') ∧
     w_diagnoses (h_world h') = w_diagnoses (h_world h) ++ [doc] ∧
     same_diagnosis (caller_userId cx) (caller_deviceId cx)
       (item_sessionId item) (item_patient_id item) createdAt doc ∧
     d_rest doc = item_rest item ∧ d_syncStatus doc = synced ∧
     successful (h_results h') =
       successful (h_results h) ++
         [mkSuccess (itemId item) "diagnoses" (Some (d__id doc))] ∧
     s_conflicts (h_log h') = s_conflicts (h_log h) ∧
     conflicts (h_results h') = conflicts (h_results h)) ∧
  (∀ pos S lastModified,
     stored = Some (pos, S) → item_lastModified item = Some lastModified →
     (d_lastModified S < lastModified →
      store_rejects env UpdateDiagnosis item w1 = None →
      ∃ h' doc,
        process_item env cx "diagnoses" item h = (Val Succeeded, h') ∧
        w_diagnoses (h_world h') = <[pos := doc]> (w_diagnoses (h_world h)) ∧
        same_diagnosis (caller_userId cx) (caller_deviceId cx)
          (item_sessionId item) (item_patient_id item) createdAt doc ∧
        d__id doc = d__id S ∧
        d_rest doc = item_rest item ∧ d_syncStatus doc = synced ∧
        successful (h_results h') =
          successful (h_results h) ++
            [mkSuccess (itemId item) "diagnoses" (Some (d__id S))] ∧
        s_conflicts (h_log h') = s_conflicts (h_log h) ∧
        conflicts (h_results h') = conflicts (h_results h)) ∧
     (d_lastModified S > lastModified →
      ∃ h',
        process_item env cx "diagnoses" item h = (Val Conflicted, h') ∧
        w_diagnoses (h_world h') = w_diagnoses (h_world h) ∧
        s_conflicts (h_log h') =
          s_conflicts (h_log h) ++
            [mkConflict (itemId item) "diagnoses" concurrent_modification
               manual_review None None (Some item) (Some S) None] ∧
        conflicts (h_results h') =
          conflicts (h_results h) ++
            [mkReport (itemId item) "diagnoses" "concurrent_modification"] ∧
        successful (h_results h') = successful (h_results h) ∧
        failed_items (h_results h') = failed_items (h_results h)) ∧
     (d_lastModified S = lastModified →
      ∃ h',
        process_item env cx "diagnoses" item h = (Val Succeeded, h') ∧
        w_diagnoses (h_world h') = w_diagnoses (h_world h) ∧
        successful (h_results h') =
          successful (h_results h) ++
            [mkSuccess (itemId item) "diagnoses" (Some (d__id S))] ∧
        s_conflicts (h_log h') = s_conflicts (h_log h) ∧
        conflicts (h_results h') = conflicts (h_results h))).
Proof.
  intros Hcreated stored w1. split.
  - intros Hnone Hok. subst stored w1.
    destruct (item__id item) as [cid|] eqn:Hid.
    all: eexists; eexists; split;
      [run_item; rewrite Hcreated; simpl; rewrite Hnone; simpl; rewrite Hok;
       simpl; rewrite Hid; simpl; reflexivity|].
    all: simpl; ledger_simpl; by repeat split.
  - intros pos S0 lastModified Hsome Hlm. subst stored w1. split; [|split].
    + intros Hlt Hok. eexists; eexists; split.
      { run_item. rewrite Hcreated. simpl. rewrite Hsome. simpl.
        unfold date_lt. rewrite Hlm.
        rewrite (proj2 (Z.ltb_lt _ _) Hlt). simpl. rewrite Hok. simpl.
        reflexivity. }
      simpl. ledger_simpl. split; [reflexivity|].
      apply list_find_Some in Hsome as (_ & Hsame & _).
      destruct Hsame as (Hu & Hd & Hs & Hp & Hc).
      split; [|by repeat split].
      unfold same_diagnosis. simpl. rewrite Hcreated. simpl.
      repeat split; try done.
      * by destruct (item_sessionId item).
      * by destruct (item_patient_id item).
    + intros Hgt. eexists; split.
      { run_item. rewrite Hcreated. simpl. rewrite Hsome. simpl.
        unfold date_lt, date_gt. rewrite Hlm.
        rewrite (proj2 (Z.ltb_ge _ _)) by lia.
        rewrite (proj2 (Z.gtb_gt _ _)) by lia. simpl. reflexivity. }
      simpl. ledger_simpl. by repeat split.
    + intros Heq. eexists; split.
      { run_item. rewrite Hcreated. simpl. rewrite Hsome. simpl.
        unfold date_lt, date_gt. rewrite Hlm.
        rewrite (proj2 (Z.ltb_ge _ _)) by lia.
        assert (Hngt : (d_lastModified S0 >? lastModified) = false).
        { rewrite Z.gtb_ltb. apply Z.ltb_ge. lia. }
        rewrite Hngt. simpl. reflexivity. }
      simpl. ledger_simpl. by repeat split.
Qed.


(** *** Activities: duplicate suppression *)

Lemma activity_first_upload cx item timestamp h h1 :
  item_timestamp item = Some timestamp →
  process_item env cx "activities" item h = (Val Succeeded, h1) →
  let key :=
    same_activity (caller_userId cx) (caller_deviceId cx) (item_sessionId item)
      (item_activityType item) timestamp in
  match list_find key (w_activities (h_world h)) with
  | Some _ => w_activities (h_world h1) = w_activities (h_world h)
  | None => ∃ doc, w_activities (h_world h1) = w_activities (h_world h) ++ [doc] ∧
                   key doc ∧ a_syncStatus doc = synced ∧ a_rest doc = item_rest item
  end.
Proof.
  intros Hts. run_item. rewrite Hts. simpl.
  destruct (list_find _ (w_activities (h_world h))) as [[pos a]|] eqn:Hfind; simpl.
  - by intros [= <-].
  - destruct (store_rejects env InsertActivity item _); simpl; [done|].
    destruct (item__id item); simpl; intros [= <-]; simpl;
      eexists; (split; [reflexivity|]); by repeat split.
Qed.

Lemma activity_repeat_upload cx item timestamp h pos doc :
  item_timestamp item = Some timestamp →
  list_find
    (same_activity (caller_userId cx) (caller_deviceId cx) (item_sessionId item)
       (item_activityType item) timestamp)
    (w_activities (h_world h)) = Some (pos, doc) →
  ∃ h', process_item env cx "activities" item h = (Val Succeeded, h') ∧
    w_activities (h_world h') = w_activities (h_world h) ∧
    successful (h_results h') =
      successful (h_results h) ++
        [mkSuccess (itemId item) "activities" (Some (a__id doc))] ∧
    failed_items (h_results h') = failed_items (h_results h) ∧
    conflicts (h_results h') = conflicts (h_results h).
Proof.
  intros Hts Hfind. eexists. split.
  { run_item. rewrite Hts. simpl. rewrite Hfind. simpl. reflexivity. }
  simpl. by repeat split.
Qed.

Lemma filter_none_found {A : Type} (P : A → Prop) `{∀ x, Decision (P x)}
    (l : list A) :
  list_find P l = None → filter P l = [].
Proof.
  rewrite list_find_None. induction 1 as [|x l Hx _ IH]; [done|].
  by rewrite filter_cons_False.
Qed.

Lemma upload_single cx req w dataType item :
  worklist (up_data req) (up_dataTypes req) = [(dataType, item)] →
  ∃ o h1,
    process_item env cx dataType item (upload_opening env cx req w) = (Val o, h1) ∧
    upload_outcomes env cx req w = [o] ∧
    upload_results env cx req w = h_results h1 ∧
    record_store (upload_state env cx req w) = record_store h1.
Proof.
  intros Hwork.
  destruct (upload_views cx req w) as (os & h1 & Hrun & Hos & Hres & Hstore & _).
  rewrite Hwork in Hrun.
  apply for_work_cons in Hrun as (o & h1' & os' & Hitem & Hrest & ->).
  simpl in Hrest. injection Hrest as <- <-. by exists o, h1'.
Qed.

(** C2.  Once the upload of an activity item has been reported successful,
    a stored record matches its (user, device, session, activity type,
    timestamp), exactly one when none matched before; any later upload of
    the same item, even after other activities were added, finds that record
    by the exact-match lookup, inserts nothing, and is reported successful
    with the id of the record found.  For two upload calls that each carry
    just this item: the second is reported successful, not failed, and leaves
    the stored activities as the first call left them. *)
Theorem activity_upload_idempotent cx item timestamp :
  item_timestamp item = Some timestamp →
  let key :=
    same_activity (caller_userId cx) (caller_deviceId cx) (item_sessionId item)
      (item_activityType item) timestamp in
  (∀ h h1,
     process_item env cx "activities" item h = (Val Succeeded, h1) →
     (list_find key (w_activities (h_world h)) = None →
      length (filter key (w_activities (h_world h1))) = 1%nat) ∧
     ∀ h2 extra,
       w_activities (h_world h2) = w_activities (h_world h1) ++ extra →
       ∃ pos doc h3,
         list_find key (w_activities (h_world h2)) = Some (pos, doc) ∧
         process_item env cx "activities" item h2 = (Val Succeeded, h3) ∧
         w_activities (h_world h3) = w_activities (h_world h2) ∧
         successful (h_results h3) =
           successful (h_results h2) ++
             [mkSuccess (itemId item) "activities" (Some (a__id doc))] ∧
         failed_items (h_results h3) = failed_items (h_results h2)) ∧
  (∀ req1 req2 w,
     worklist (up_data req1) (up_dataTypes req1) = [("activities", item)] →
     worklist (up_data req2) (up_dataTypes req2) = [("activities", item)] →
     upload_outcomes env cx req1 w = [Succeeded] →
     let w1 := h_world (upload_state env cx req1 w) in
     let w2 := h_world (upload_state env cx req2 w1) in
     upload_outcomes env cx req2 w1 = [Succeeded] ∧
     failed_items (upload_results env cx req2 w1) = [] ∧
     w_activities w2 = w_activities w1 ∧
     (list_find key (w_activities w) = None →
      length (filter key (w_activities w2)) = 1%nat)).
Proof.
  intros Hts key.
  assert (Hitem : ∀ h h1,
    process_item env cx "activities" item h = (Val Succeeded, h1) →
    (list_find key (w_activities (h_world h)) = None →
      length (filter key (w_activities (h_world h1))) = 1%nat) ∧
     ∀ h2 extra,
       w_activities (h_world h2) = w_activities (h_world h1) ++ extra →
       ∃ pos doc h3,
         list_find key (w_activities (h_world h2)) = Some (pos, doc) ∧
         process_item env cx "activities" item h2 = (Val Succeeded, h3) ∧
         w_activities (h_world h3) = w_activities (h_world h2) ∧
         successful (h_results h3) =
           successful (h_results h2) ++
             [mkSuccess (itemId item) "activities" (Some (a__id doc))] ∧
         failed_items (h_results h3) = failed_items (h_results h2)).
  { intros h h1 Hfirst.
    pose proof (activity_first_upload cx item timestamp h h1 Hts Hfirst) as Hstore.
    cbn zeta in Hstore. fold key in Hstore. split.
    - intros Hnone. rewrite Hnone in Hstore.
      destruct Hstore as (doc & -> & Hkey & _).
      rewrite filter_app, (filter_none_found _ _ Hnone).
      by rewrite filter_cons_True.
    - intros h2 extra Hext.
      assert (Hfound : is_Some (list_find key (w_activities (h_world h2)))).
      { rewrite Hext.
        destruct (list_find key (w_activities (h_world h))) as [[pos a]|] eqn:Hf.
        - rewrite Hstore. apply list_find_Some in Hf as (Hl & Hk & _).
          apply (list_find_elem_of key _ a); [|done].
          apply elem_of_app. left. by eapply list_elem_of_lookup_2.
        - destruct Hstore as (doc & -> & Hk & _).
          apply (list_find_elem_of key _ doc); [|done].
          rewrite !elem_of_app, list_elem_of_singleton. auto. }
      destruct Hfound as [[pos doc] Hfind].
      destruct (activity_repeat_upload cx item timestamp h2 pos doc Hts Hfind)
        as (h3 & Hrun & Hsame & Hsucc & Hfail & _).
      by exists pos, doc, h3. }
  split; [exact Hitem|].
  intros req1 req2 w Hw1 Hw2 Hout1 w1 w2.
  destruct (upload_single cx req1 w _ _ Hw1) as (o1 & h1 & Hrun1 & Ho1 & _ & Hst1).
  rewrite Ho1 in Hout1. injection Hout1 as ->.
  destruct (Hitem _ _ Hrun1) as [Hone Hnext].
  destruct (upload_single cx req2 w1 _ _ Hw2) as (o2 & h3 & Hrun2 & Ho2 & Hres2 & Hst2).
  destruct (opening_fields cx req2 w1) as (Hr2 & _).
  unfold record_store in Hst1, Hst2.
  injection Hst1 as Ha1 _ _. injection Hst2 as Ha2 _ _.
  assert (Hoa1 : w_activities (h_world (upload_opening env cx req1 w)) =
                 w_activities w) by reflexivity.
  assert (Hoa2 : w_activities (h_world (upload_opening env cx req2 w1)) =
                 w_activities w1) by reflexivity.
  fold w1 in Ha1. fold w2 in Ha2.
  destruct (Hnext (upload_opening env cx req2 w1) [])
    as (pos & doc & h3' & _ & Hrun2' & Hsame & Hsucc & Hfail).
  { by rewrite app_nil_r, Hoa2, Ha1. }
  rewrite Hrun2 in Hrun2'. injection Hrun2' as -> <-.
  rewrite Ho2, Hres2, Hfail, Hr2, Ha2, Hsame, Hoa2.
  conj_split; try done.
  intros Hnone. rewrite Ha1. apply Hone. by rewrite Hoa1.
Qed.

(** *** The total of an upload and the items its loop visits *)

Lemma count_uploaded_zero (data : gmap string JsonVal) :
  (∀ k v, data !! k = Some v → count_array v = 0) → count_uploaded data = 0.
Proof.
  unfold count_uploaded.
  apply (map_fold_weak_ind
           (λ r (m : gmap string JsonVal),
              (∀ k v, m !! k = Some v → count_array v = 0) → r = 0)); [done|].
  intros i x m r Hi IH Hall.
  rewrite (Hall i x) by apply lookup_insert_eq.
  rewrite IH; [done|]. intros k v Hk. apply (Hall k).
  rewrite lookup_insert_ne; [done|]. intros ->. congruence.
Qed.

Lemma sum_records_ext (data data' : gmap string JsonVal) dataTypes :
  (∀ dt, dt ∈ dataTypes → data' !! dt = data !! dt) →
  sum_records data' dataTypes = sum_records data dataTypes.
Proof.
  induction dataTypes as [|dt rest IH]; [done|]. intros Hext. simpl.
  unfold records_of. rewrite Hext by left.
  fold (records_of data dt). f_equal.
  apply IH. intros dt' Hin. apply Hext. by right.
Qed.

Lemma count_uploaded_listed (data : gmap string JsonVal) dataTypes :
  NoDup dataTypes →
  (∀ k items, data !! k = Some (JArray items) → items ≠ [] → k ∈ dataTypes) →
  count_uploaded data = sum_records data dataTypes.
Proof.
  intros Hnd. revert data.
  induction Hnd as [|dt rest Hnotin Hnd IH]; intros data Hcover.
  - apply count_uploaded_zero. intros k [[|item items]|b] Hk; try done.
    by apply Hcover in Hk; [apply elem_of_nil in Hk|].
  - simpl. unfold records_of at 1.
    destruct (data !! dt) as [v|] eqn:Hdt; simpl.
    + rewrite (count_uploaded_lookup _ _ _ Hdt), (IH (delete dt data)).
      * rewrite (sum_records_ext data (delete dt data)); [lia|].
        intros dt' Hin. apply lookup_delete_ne. by intros ->.
      * intros k items Hk Hne. apply lookup_delete_Some in Hk as [Hkdt Hk].
        apply Hcover in Hk; [|done]. apply elem_of_cons in Hk as [->|]; done.
    + rewrite (IH data); [done|].
      intros k items Hk Hne. pose proof (Hcover _ _ Hk Hne) as Hin.
      apply elem_of_cons in Hin as [->|]; [congruence|done].
Qed.

Lemma worklist_length (data : gmap string JsonVal) dataTypes :
  Z_length (worklist data dataTypes) = sum_records data dataTypes.
Proof.
  induction dataTypes as [|dt rest IH]; [done|].
  unfold worklist. simpl. fold (worklist data rest).
  rewrite Z_length_app, IH. unfold records_of at 1.
  destruct (data !! dt) as [[items|b]|]; simpl; try done.
  unfold Z_length. by rewrite length_map.
Qed.

Lemma remove_dups_NoDup {A : Type} `{EqDecision A} (l : list A) :
  NoDup l → remove_dups l = l.
Proof.
  induction 1 as [|x l Hx _ IH]; [done|]. simpl.
  destruct (decide_rel elem_of x l); [done|]. by rewrite IH.
Qed.

(** C6, as the code has it.  The session of an upload is created with
    progress.totalItems equal to the sum of the lengths of all the
    array-valued entries of [data], listed in [dataTypes] or not, and keeps
    that total to the end; this is the sum over the supplied set of data
    types when every key of [data] holding a non-empty array is listed.  The
    item loop visits, for each entry of [dataTypes] in order, the records of
    [data[dataType]] in order when that is an array, and nothing else; it
    visits all of them, and their number is the sum over the supplied data
    types when no data type is listed twice. *)
Theorem upload_total_items cx req w :
  totalItems (s_progress (h_log (upload_opening env cx req w))) =
    count_uploaded (up_data req) ∧
  totalItems (s_progress (upload_session env cx req w)) =
    count_uploaded (up_data req) ∧
  ((∀ k items, up_data req !! k = Some (JArray items) → items ≠ [] →
               k ∈ up_dataTypes req) →
   count_uploaded (up_data req) = supplied_total (up_data req) (up_dataTypes req)) ∧
  for_dataTypes env cx (up_data req) (up_dataTypes req) (upload_opening env cx req w) =
    (Val (upload_outcomes env cx req w),
     upload_state_after env cx req w
       (length (worklist (up_data req) (up_dataTypes req)))) ∧
  length (upload_outcomes env cx req w) =
    length (worklist (up_data req) (up_dataTypes req)) ∧
  (NoDup (up_dataTypes req) →
   Z_length (worklist (up_data req) (up_dataTypes req)) =
     supplied_total (up_data req) (up_dataTypes req)).
Proof.
  destruct (upload_views cx req w)
    as (os & h1 & Hrun & Hos & _ & _ & _ & _ & _ & Hp & _).
  pose proof (for_work_accounting _ _ _ _ _ Hrun) as Hacc. cbn zeta in Hacc.
  destruct Hacc as (Hlen & _ & _ & Ht & _).
  destruct (opening_fields cx req w) as (_ & _ & _ & _ & Hp0 & _).
  rewrite Hp, Hos. autorewrite with ledger. rewrite Ht, Hp0.
  autorewrite with ledger. simpl.
  conj_split; try done.
  - intros Hcover. unfold supplied_total.
    apply count_uploaded_listed; [apply NoDup_remove_dups|].
    intros k items Hk Hne. apply elem_of_remove_dups. eauto.
  - rewrite for_dataTypes_worklist, <- Hos. apply upload_state_after_all.
  - intros Hnd. unfold supplied_total. rewrite remove_dups_NoDup by done.
    apply worklist_length.
Qed.

(** *** Download *)

Lemma addError_run code message severity dataType iid h :
  ∃ h' e, addError env code message severity dataType iid h = (Val tt, h') ∧
    h_results h' = h_results h ∧ record_store h' = record_store h ∧
    h_logpos h' = h_logpos h ∧ s_status (h_log h') = s_status (h_log h) ∧
    s_errors (h_log h') = s_errors (h_log h) ++ [e] ∧
    err_ref e = (code, message, severity, dataType, iid) ∧
    s_conflicts (h_log h') = s_conflicts (h_log h) ∧
    s_progress (h_log h') = refresh_percentage env (s_progress (h_log h)).
Proof.
  eexists. eexists. split; [unfold addError; munfold; simpl; reflexivity|].
  simpl. ledger_simpl. by repeat split.
Qed.

Lemma updateProgress_run processed successfulN failedN h :
  ∃ h', updateProgress env processed (Some successfulN) (Some failedN) None h =
          (Val tt, h') ∧
    h_results h' = h_results h ∧ record_store h' = record_store h ∧
    h_logpos h' = h_logpos h ∧ s_status (h_log h') = s_status (h_log h) ∧
    s_errors (h_log h') = s_errors (h_log h) ∧
    s_conflicts (h_log h') = s_conflicts (h_log h) ∧
    s_progress (h_log h') =
      refresh_percentage env (refresh_percentage env
        (mkProgress (totalItems (s_progress (h_log h))) processed successfulN
           failedN (skippedItems (s_progress (h_log h)))
           (percentage (s_progress (h_log h))))).
Proof.
  eexists. split; [unfold updateProgress; munfold; simpl; reflexivity|].
  simpl. ledger_simpl. by repeat split.
Qed.

Lemma when_requested_nil {A : Type} k (x : option A) : when_requested k [] x = None.
Proof. unfold when_requested. rewrite decide_False; [done|apply not_elem_of_nil]. Qed.

Lemma when_requested_none {A : Type} k l : when_requested (A:=A) k l None = None.
Proof. unfold when_requested. by destruct (decide _). Qed.

Lemma when_requested_snoc_same {A : Type} k l (x : option A) :
  when_requested k (l ++ [k]) x = x.
Proof.
  unfold when_requested. rewrite decide_True; [done|].
  apply elem_of_app. right. by apply list_elem_of_singleton.
Qed.

Lemma when_requested_snoc_other {A : Type} k k' l (x : option A) :
  k ≠ k' → when_requested k (l ++ [k']) x = when_requested k l x.
Proof.
  intros Hne. unfold when_requested.
  destruct (decide (k ∈ l)) as [Hin|Hin].
  - rewrite decide_True; [done|]. apply elem_of_app. by left.
  - rewrite decide_False; [done|].
    rewrite elem_of_app, list_elem_of_singleton. tauto.
Qed.

Lemma when_requested_snoc_idle {A : Type} k k' l (x : option A) :
  x = None → when_requested k (l ++ [k']) x = when_requested k l x.
Proof. intros ->. by rewrite !when_requested_none. Qed.

(** One round of the fetch loop yields what the contract selects for the
    data types seen so far, and touches neither the Record Store nor the
    progress of a session whose total is 0. *)
Lemma fetch_type_selected cx lastSync w dt seen h :
  record_store h = (w_activities w, w_diagnoses w, w_users w) →
  s_progress (h_log h) = mkProgress 0 0 0 0 0 0 →
  ∃ h',
    fetch_type env cx lastSync dt (selected_data cx lastSync w seen) h =
      (Val (selected_data cx lastSync w (seen ++ [dt])), h') ∧
    record_store h' = record_store h ∧
    s_progress (h_log h') = s_progress (h_log h) ∧
    s_status (h_log h') = s_status (h_log h) ∧
    s_conflicts (h_log h') = s_conflicts (h_log h).
Proof.
  intros Hstore Hprog. unfold record_store in Hstore.
  injection Hstore as Ha Hd Hu.
  unfold fetch_type, fetch_switch, try_catch.
  destruct (decide (dt = "activities")) as [->|Hna];
    [|destruct (decide (dt = "diagnoses")) as [->|Hnd];
      [|destruct (decide (dt = "user_profile")) as [->|Hnu]]].
  - unfold Activity_find_since, cast_date.
    destruct lastSync as [t|]; munfold; simpl; eexists; (split; [f_equal|]).
    + unfold selected_data. simpl.
      rewrite when_requested_snoc_same, !when_requested_snoc_other by done.
      by rewrite Ha.
    + done.
    + unfold selected_data. simpl.
      by rewrite when_requested_snoc_idle,
        !when_requested_snoc_other by done.
    + simpl. ledger_simpl. by rewrite Hprog, refresh_total_zero.
  - unfold Diagnosis_find_since, cast_date.
    destruct lastSync as [t|]; munfold; simpl; eexists; (split; [f_equal|]).
    + unfold selected_data. simpl.
      rewrite when_requested_snoc_same, !when_requested_snoc_other by done.
      by rewrite Hd.
    + done.
    + unfold selected_data. simpl.
      by rewrite (when_requested_snoc_idle "diagnoses"),
        !when_requested_snoc_other by done.
    + simpl. ledger_simpl. by rewrite Hprog, refresh_total_zero.
  - unfold User_findById. munfold. simpl. rewrite Hu.
    pose proof (eq_refl (selected_profile cx lastSync w)) as Hsel.
    unfold selected_profile at 2 in Hsel.
    destruct (list_find _ (w_users w)) as [[pos u]|]; simpl.
    + destruct (date_gt (u_updatedAt u) lastSync); simpl.
      * eexists. split; [|done]. f_equal. unfold selected_data. simpl.
        by rewrite when_requested_snoc_same, !when_requested_snoc_other, Hsel
          by done.
      * eexists. split; [|done]. f_equal. unfold selected_data.
        by rewrite (when_requested_snoc_idle "user_profile"),
          !when_requested_snoc_other by done.
    + eexists. split; [|done]. f_equal. unfold selected_data.
      by rewrite (when_requested_snoc_idle "user_profile"),
        !when_requested_snoc_other by done.
  - munfold. simpl. eexists. split; [|done]. f_equal. unfold selected_data.
    by rewrite !when_requested_snoc_other by done.
Qed.

Lemma fetch_all_selected cx lastSync w dataTypes seen h :
  record_store h = (w_activities w, w_diagnoses w, w_users w) →
  s_progress (h_log h) = mkProgress 0 0 0 0 0 0 →
  ∃ h',
    fetch_all env cx lastSync dataTypes (selected_data cx lastSync w seen) h =
      (Val (selected_data cx lastSync w (seen ++ dataTypes)), h') ∧
    record_store h' = record_store h ∧
    s_progress (h_log h') = s_progress (h_log h) ∧
    s_status (h_log h') = s_status (h_log h) ∧
    s_conflicts (h_log h') = s_conflicts (h_log h).
Proof.
  revert seen h. induction dataTypes as [|dt rest IH]; intros seen h Hstore Hprog.
  - simpl. rewrite app_nil_r. by exists h.
  - destruct (fetch_type_selected cx lastSync w dt seen h Hstore Hprog)
      as (h1 & Hstep & Hs1 & Hp1 & Hst1 & Hc1).
    destruct (IH (seen ++ [dt]) h1) as (h2 & Hrest & Hs2 & Hp2 & Hst2 & Hc2).
    { by rewrite Hs1. } { by rewrite Hp1. }
    exists h2. simpl. unfold mbind, M_bind. rewrite Hstep, Hrest.
    rewrite <- app_assoc. simpl.
    by rewrite Hs2, Hp2, Hst2, Hc2, Hs1, Hp1, Hst1, Hc1.
Qed.

Lemma download_run cx req w :
  let data :=
    selected_data cx (lastSync_of (dn_lastSyncTimestamp req)) w (dn_dataTypes req) in
  ∃ syncId timestamp h,
    download env cx req w =
      (Val (DownloadDone syncId timestamp data (count_fetched data)), h) ∧
    record_store h = (w_activities w, w_diagnoses w, w_users w) ∧
    s_status (h_log h) = completed ∧
    s_conflicts (h_log h) = [] ∧
    s_progress (h_log h) =
      mkProgress 0 (count_fetched data) (count_fetched data) 0 0 0.
Proof.
  intros data. unfold download, try_catch, download_try.
  set (h0 := open_session env cx (dn_sessionId req) (dn_syncType req)
               (dn_operation req) (dn_dataTypes req) 0 w).
  assert (Hprog0 : s_progress (h_log h0) = mkProgress 0 0 0 0 0 0).
  { unfold h0, open_session. simpl. ledger_simpl. by rewrite refresh_total_zero. }
  assert (Hc0 : s_conflicts (h_log h0) = []).
  { unfold h0, open_session. simpl. by ledger_simpl. }
  destruct (fetch_all_selected cx (lastSync_of (dn_lastSyncTimestamp req)) w
              (dn_dataTypes req) [] h0 eq_refl Hprog0)
    as (h1 & Hfetch & Hs1 & Hp1 & Hst1 & Hc1).
  destruct (updateProgress_run (count_fetched data) (count_fetched data) 0 h1)
    as (h2 & Hup & _ & Hs2 & _ & Hst2 & _ & Hc2 & Hp2).
  destruct (markCompleted_run completed h2)
    as (h3 & Hmc & _ & Hs3 & _ & Hst3 & _ & Hc3 & Hp3).
  eexists _, _, _. split.
  { change (mkData None None None)
      with (selected_data cx (lastSync_of (dn_lastSyncTimestamp req)) w []).
    rewrite (bind_val _ _ _ _ _ Hfetch). cbv beta. fold data.
    rewrite (bind_val _ _ _ _ _ Hup). rewrite (bind_val _ _ _ _ _ Hmc).
    unfold mbind, M_bind, get, now, mret, M_ret. reflexivity. }
  change (record_store (set_world (λ w0, with_reads (S (w_reads w0)) w0) h3))
    with (record_store h3).
  simpl.
  rewrite Hs3, Hs2, Hs1, Hst3, Hc3, Hc2, Hc1, Hc0, Hp3, Hp2, Hp1, Hprog0. simpl.
  rewrite !refresh_total_zero by done. by repeat split.
Qed.

Lemma download_views cx req w :
  let data :=
    selected_data cx (lastSync_of (dn_lastSyncTimestamp req)) w (dn_dataTypes req) in
  download_data env cx req w = data ∧
  (∃ syncId timestamp,
     fst (download env cx req w) =
       Val (DownloadDone syncId timestamp data (count_fetched data))) ∧
  record_store (download_state env cx req w) =
    (w_activities w, w_diagnoses w, w_users w) ∧
  s_status (download_session env cx req w) = completed ∧
  s_conflicts (download_session env cx req w) = [] ∧
  s_progress (download_session env cx req w) =
    mkProgress 0 (count_fetched data) (count_fetched data) 0 0 0.
Proof.
  destruct (download_run cx req w)
    as (syncId & timestamp & h & Hrun & Hs & Hst & Hc & Hp).
  unfold download_data, download_session, download_state.
  rewrite Hrun. simpl. eauto 10.
Qed.



(** C5, as the code has it.  A download always completes: the session's
    processedItems and successfulItems are set to the number of fetched
    records over the requested data types (the profile counting for one),
    failedItems to 0, and the status is [completed]; progress.totalItems is
    not written and keeps the 0 it was created with, and so does the
    percentage. *)
Theorem download_progress cx req w :
  let session := download_session env cx req w in
  let fetched := count_fetched (download_data env cx req w) in
  (∃ syncId timestamp,
     fst (download env cx req w) =
       Val (DownloadDone syncId timestamp (download_data env cx req w) fetched)) ∧
  s_status session = completed ∧
  processedItems (s_progress session) = fetched ∧
  successfulItems (s_progress session) = fetched ∧
  failedItems (s_progress session) = 0 ∧
  totalItems (s_progress session) = 0 ∧
  percentage (s_progress session) = 0.
Proof.
  destruct (download_views cx req w) as (Hdata & Hresp & _ & Hst & _ & Hp).
  cbn zeta. rewrite Hdata, Hst, Hp. simpl. by repeat split.
Qed.

(** *** Conflict review *)

Lemma get_conflicts_unresolved cx page limit w e :
  e ∈ get_conflicts cx page limit w →
  c_resolution (cl_conflict e) = manual_review ∧
  ∃ log, log ∈ w_synclogs w ∧ s_userId log = caller_userId cx ∧
         s_deviceId log = caller_deviceId cx ∧ cl_syncId e = s__id log ∧
         cl_conflict e ∈ s_conflicts log.
Proof.
  unfold get_conflicts. rewrite list_elem_of_In, in_flat_map.
  intros (log & Hlog & He). apply list_elem_of_In in Hlog, He.
  apply subseteq_take, subseteq_drop in Hlog.
  rewrite merge_sort_Permutation in Hlog.
  apply list_elem_of_filter in Hlog as ((Hu & Hd & _) & Hin).
  apply list_elem_of_fmap in He as (c & -> & Hc).
  apply list_elem_of_filter in Hc as (Hc & Hcin). simpl.
  split; [done|]. by exists log.
Qed.

(** C9, as the code has it.  A conflict entry is created with resolution
    manual_review.  A resolve-conflict call addressed by (session id, item
    id) writes the chosen resolution, the time and the caller into the first
    entry of that session with that item id, whatever resolution the entry
    had before; it rewrites that one entry of that one session (the other
    entries, the status, the errors and the counters of the session stay)
    and leaves the Record Store untouched.  The unresolved-conflicts listing
    holds only entries whose resolution is manual_review, so an entry
    resolved to another value is not listed. *)
Theorem conflict_review cx :
  (∀ iid dataType conflictType localVersion serverVersion h,
     ∃ h',
       addConflict env iid dataType conflictType localVersion serverVersion h =
         (Val tt, h') ∧
       s_conflicts (h_log h') =
         s_conflicts (h_log h) ++
           [mkConflict iid dataType conflictType manual_review None None
              (Some localVersion) (Some serverVersion) None]) ∧
  (∀ req w,
     let w' := snd (resolve_conflict env cx req w) in
     w_activities w' = w_activities w ∧ w_diagnoses w' = w_diagnoses w ∧
     w_users w' = w_users w ∧
     match fst (resolve_conflict env cx req w) with
     | ConflictResolved iid r =>
         iid = rr_conflictItemId req ∧ r = rr_resolution req ∧
         ∃ pos log i c log',
           list_find (λ l, s__id l = rr_syncId req ∧
                           s_userId l = caller_userId cx ∧
                           s_deviceId l = caller_deviceId cx) (w_synclogs w) =
             Some (pos, log) ∧
           list_find (λ c, c_itemId c = rr_conflictItemId req) (s_conflicts log) =
             Some (i, c) ∧
           let c' := resolve_entry req (clock env (w_reads w)) (caller_userId cx) c in
           w_synclogs w' = <[pos := log']> (w_synclogs w) ∧
           s_conflicts log' = <[i := c']> (s_conflicts log) ∧
           c_resolution c' = rr_resolution req ∧
           s__id log' = s__id log ∧ s_status log' = s_status log ∧
           s_errors log' = s_errors log ∧
           counters (s_progress log') = counters (s_progress log) ∧
           (rr_resolution req ≠ manual_review →
            ∀ page limit e, e ∈ get_conflicts cx page limit w' → cl_conflict e ≠ c')
     | SyncLogNotFound | ConflictNotFound => w' = w
     | ResolveError => False
     end) ∧
  (∀ page limit w e,
     e ∈ get_conflicts cx page limit w →
     c_resolution (cl_conflict e) = manual_review).
Proof.
  split; [|split].
  - intros. eexists. split; [unfold addConflict; munfold; simpl; reflexivity|].
    simpl. by ledger_simpl.
  - intros req w. unfold resolve_conflict.
    destruct (list_find _ (w_synclogs w)) as [[pos log]|] eqn:Hlog; [|done].
    destruct (list_find _ (s_conflicts log)) as [[i c]|] eqn:Hc; [|done].
    munfold. simpl. conj_split; try done.
    eexists pos, log, i, c, _. conj_split; try done.
    + simpl. by ledger_simpl.
    + simpl. by ledger_simpl.
    + by ledger_simpl.
    + by ledger_simpl.
    + by ledger_simpl.
    + intros Hr page limit e He Heq.
      apply get_conflicts_unresolved in He as [He _].
      rewrite Heq in He. simpl in He. done.
  - intros page limit w e He. by apply get_conflicts_unresolved in He as [? _].
Qed.

(** * Further properties of the modelled code *)

(** *** The Record Store under an upload *)

Lemma insert_last {A : Type} (l : list A) x y :
  <[length l := x]> (l ++ [y]) = l ++ [x].
Proof. induction l as [|z l IH]; [done|]. simpl. by rewrite IH. Qed.

Lemma map_insert_same {A B : Type} (f : A → B) (l : list A) i x y :
  l !! i = Some x → f y = f x → map f (<[i := y]> l) = map f l.
Proof.
  revert i. induction l as [|z l IH]; intros [|i] Hl Hf; simpl in *; try done.
  - injection Hl as ->. by rewrite Hf.
  - by rewrite (IH i).
Qed.

Lemma session_saved_save base l h :
  h_logpos h = length base → w_synclogs (h_world h) = base ++ [l] →
  ∀ l', <[h_logpos h := l']> (w_synclogs (h_world h)) = base ++ [l'].
Proof. intros -> -> l'. apply insert_last. Qed.

Ltac store_goal :=
  match goal with
  | |- _ `prefix_of` _ ++ _ => by apply prefix_app_r
  | |- map _ _ `prefix_of` map _ (_ ++ _) => rewrite map_app; by apply prefix_app_r
  | H : list_find _ ?l = Some (?i, ?x) |- map _ ?l `prefix_of` map _ (<[?i := _]> ?l) =>
      apply list_find_Some in H as (H & _);
      by erewrite map_insert_same by (exact H || done)
  | H : list_find _ ?l = Some (?i, ?x) |- map _ (<[?i := _]> ?l) = map _ ?l =>
      apply list_find_Some in H as (H & _);
      by erewrite map_insert_same by (exact H || done)
  | |- _ => done
  end.

Lemma item_switch_store cx dt item h r h1 :
  item_switch env cx dt item h = (r, h1) →
  store_grows h h1 ∧
  (∀ message, r = Exn message → record_store h1 = record_store h) ∧
  (∀ base, session_saved base h → session_saved base h1).
Proof.
  unfold item_switch, store_grows, session_saved.
  repeat case_decide; munfold; simpl;
    repeat (case_step; simpl); intros [= <- <-]; simpl;
    repeat (case_step; simpl).
  all: split; [split; [|split]; simpl; store_goal|].
  all: split; [intros message Hm; first [discriminate Hm | reflexivity]|].
  all: intros base [Hpos Hlogs]; simpl; rewrite ?Hpos, ?Hlogs, ?insert_last; done.
Qed.

Lemma store_grows_refl h h' : record_store h' = record_store h → store_grows h h'.
Proof.
  unfold record_store, store_grows. intros [= -> -> ->]. done.
Qed.

Lemma store_grows_trans h1 h2 h3 :
  store_grows h1 h2 → store_grows h2 h3 → store_grows h1 h3.
Proof.
  unfold store_grows. intros (Ha & Hd & Hu) (Ha' & Hd' & Hu').
  split; [by etrans|]. split; [by etrans|]. by rewrite Hu'.
Qed.

Lemma record_success_saved dt item sid h r h' base :
  record_success env dt item sid h = (r, h') →
  session_saved base h → session_saved base h'.
Proof.
  unfold record_success, session_saved. munfold. simpl.
  intros [= <- <-] [Hpos Hlogs]. simpl. by rewrite Hpos, Hlogs, insert_last.
Qed.

Lemma catch_item_saved dt item message h r h' base :
  catch_item env dt item message h = (r, h') →
  session_saved base h → session_saved base h'.
Proof.
  unfold catch_item, session_saved. munfold. simpl.
  intros [= <- <-] [Hpos Hlogs]. simpl. by rewrite Hpos, Hlogs, insert_last.
Qed.

Lemma markCompleted_saved st h r h' base :
  markCompleted env st h = (r, h') →
  session_saved base h → session_saved base h'.
Proof.
  unfold markCompleted, session_saved. munfold. simpl.
  intros [= <- <-] [Hpos Hlogs]. simpl. by rewrite Hpos, Hlogs, insert_last.
Qed.

Lemma process_item_store cx dt item h o h' :
  process_item env cx dt item h = (Val o, h') →
  store_grows h h' ∧
  (is_succeeded o = false → record_store h' = record_store h) ∧
  (∀ base, session_saved base h → session_saved base h').
Proof.
  unfold process_item, try_catch, mbind, M_bind.
  destruct (item_switch env cx dt item h) as [[[sid|]|msg] h1] eqn:Hsw;
    pose proof (item_switch_store _ _ _ _ _ _ Hsw) as (Hgrow & Hexn & Hsaved);
    pose proof (item_switch_ledger _ _ _ _ _ _ Hsw) as (_ & _ & _ & _ & _ & _ & Hr).
  - destruct (record_success_effect dt item sid h1) as (h2 & Hrun & Hstore & _).
    rewrite Hrun. intros [= <- <-]. split; [|split].
    + eapply store_grows_trans; [done|]. by apply store_grows_refl.
    + done.
    + intros base Hb. eapply record_success_saved; eauto.
  - intros [= <- <-]. destruct Hr as (_ & _ & _ & Hstore & _).
    split; [exact Hgrow|]. split; [by intros|exact Hsaved].
  - destruct (catch_item_effect dt item msg h1) as (h2 & Hrun & Hstore & _).
    rewrite Hrun. intros [= <- <-]. split; [|split].
    + eapply store_grows_trans; [done|]. by apply store_grows_refl.
    + intros _. rewrite Hstore. by eapply Hexn.
    + intros base Hb. eapply catch_item_saved; eauto.
Qed.

Lemma for_work_store cx work h os h' :
  for_work env cx work h = (Val os, h') →
  store_grows h h' ∧
  (count_where is_succeeded os = 0 → record_store h' = record_store h) ∧
  (∀ base, session_saved base h → session_saved base h').
Proof.
  revert h os. induction work as [|[dt item] rest IH]; intros h os.
  - simpl. intros [= <- <-]. split; [by apply store_grows_refl|done].
  - intros Hrun.
    apply for_work_cons in Hrun as (o & h1 & os' & Hitem & Hrest & ->).
    apply process_item_store in Hitem as (Hg1 & Hs1 & Hb1).
    apply IH in Hrest as (Hg2 & Hs2 & Hb2).
    split; [by eapply store_grows_trans|]. split; [|by auto].
    simpl. intros Hcount.
    assert (0 ≤ count_where is_succeeded os').
    { clear. induction os' as [|o' os' IH']; simpl; [done|].
      destruct (is_succeeded o'); lia. }
    destruct (is_succeeded o) eqn:Ho; [lia|].
    rewrite Hs2 by lia. by apply Hs1.
Qed.

Lemma upload_steps cx req w :
  ∃ os h1 h2,
    for_work env cx (worklist (up_data req) (up_dataTypes req))
      (upload_opening env cx req w) = (Val os, h1) ∧
    markCompleted env
      (if Z_length (failed_items (h_results h1)) >? 0 then partial else completed)
      h1 = (Val tt, h2) ∧
    upload_outcomes env cx req w = os ∧
    upload_state env cx req w = h2.
Proof.
  destruct (for_work_total cx (worklist (up_data req) (up_dataTypes req))
              (upload_opening env cx req w)) as (os & h1 & Hrun).
  destruct (markCompleted_run
              (if Z_length (failed_items (h_results h1)) >? 0 then partial else completed)
              h1) as (h2 & Hmc & _).
  exists os, h1, h2. split; [done|]. split; [done|].
  unfold upload_outcomes, upload_state, upload, upload_try, try_catch.
  fold (upload_opening env cx req w).
  rewrite (bind_val _ _ _ _ _ (eq_trans (for_dataTypes_worklist _ _ _ _) Hrun)).
  unfold mbind, M_bind, get. rewrite Hmc. done.
Qed.

Lemma opening_saved cx req w :
  session_saved (w_synclogs w) (upload_opening env cx req w).
Proof. done. Qed.

Lemma upload_store_facts cx req w :
  store_grows (upload_opening env cx req w) (upload_state env cx req w) ∧
  (count_where is_succeeded (upload_outcomes env cx req w) = 0 →
   record_store (upload_state env cx req w) =
     record_store (upload_opening env cx req w)) ∧
  session_saved (w_synclogs w) (upload_state env cx req w).
Proof.
  destruct (upload_steps cx req w) as (os & h1 & h2 & Hrun & Hmc & -> & ->).
  apply for_work_store in Hrun as (Hg & Hs & Hb).
  destruct (markCompleted_run
              (if Z_length (failed_items (h_results h1)) >? 0 then partial else completed)
              h1) as (h2' & Hmc' & _ & Hstore & _).
  rewrite Hmc in Hmc'. injection Hmc' as <-.
  split; [|split].
  - eapply store_grows_trans; [done|]. by apply store_grows_refl.
  - intros Hnone. rewrite Hstore. by apply Hs.
  - eapply markCompleted_saved; [done|]. apply Hb, opening_saved.
Qed.

(** X1.  An upload never removes anything from the Record Store: the
    activities stored before are a prefix of those stored after, the stored
    diagnoses keep their position and [_id] (created ones are appended), and
    the users keep their position and [_id]. *)
Theorem upload_never_deletes cx req w :
  let w' := h_world (upload_state env cx req w) in
  w_activities w `prefix_of` w_activities w' ∧
  map d__id (w_diagnoses w) `prefix_of` map d__id (w_diagnoses w') ∧
  map u__id (w_users w') = map u__id (w_users w).
Proof. exact (proj1 (upload_store_facts cx req w)). Qed.

(** X2.  An upload adds exactly one document to the session collection, at
    its end, and it is the session as the handler holds it when the call
    returns; the sessions stored before are left as they were. *)
Theorem upload_appends_its_session cx req w :
  w_synclogs (h_world (upload_state env cx req w)) =
    w_synclogs w ++ [upload_session env cx req w].
Proof. exact (proj2 (proj2 (proj2 (upload_store_facts cx req w)))). Qed.

(** X3.  An upload in which no item succeeds (every item failed or ended as
    a conflict) leaves the Record Store exactly as it was: a failed or
    conflicting item writes nothing. *)
Theorem upload_without_success_writes_nothing cx req w :
  count_where is_succeeded (upload_outcomes env cx req w) = 0 →
  record_store (upload_state env cx req w) =
    (w_activities w, w_diagnoses w, w_users w).
Proof.
  intros Hnone. by rewrite (proj1 (proj2 (upload_store_facts cx req w)) Hnone).
Qed.

(** *** The session under an upload *)

Local Transparent SyncLog_pre_save.

Lemma pre_save_header t l :
  session_header (SyncLog_pre_save env t l) = session_header l.
Proof. unfold SyncLog_pre_save. by destruct (s_completedAt l). Qed.

Lemma pre_save_times t l :
  s_completedAt (SyncLog_pre_save env t l) = s_completedAt l ∧
  s_updatedAt (SyncLog_pre_save env t l) = t ∧
  s_duration (SyncLog_pre_save env t l) =
    match s_completedAt l with
    | Some c => Some (c - s_startedAt l)
    | None => s_duration l
    end.
Proof.
  unfold SyncLog_pre_save. destruct (s_completedAt l) eqn:E; simpl;
    rewrite ?E; by repeat split.
Qed.

Local Opaque SyncLog_pre_save.

Lemma session_kept_refl h : session_kept h h.
Proof. by split. Qed.

Lemma session_kept_trans h1 h2 h3 :
  session_kept h1 h2 → session_kept h2 h3 → session_kept h1 h3.
Proof.
  unfold session_kept. intros [Hh Hr] [Hh' Hr']. split; [congruence|lia].
Qed.

Ltac kept_goal :=
  intros [= <- <-]; unfold session_kept; simpl; repeat (case_step; simpl);
  rewrite ?pre_save_header; (split; [done|lia]).

Lemma item_switch_kept cx dt item h r h1 :
  item_switch env cx dt item h = (r, h1) → session_kept h h1.
Proof.
  unfold item_switch.
  repeat case_decide; munfold; simpl;
    repeat (case_step; simpl); kept_goal.
Qed.

Lemma record_success_kept dt item sid h r h' :
  record_success env dt item sid h = (r, h') → session_kept h h'.
Proof. unfold record_success. munfold. simpl. kept_goal. Qed.

Lemma catch_item_kept dt item message h r h' :
  catch_item env dt item message h = (r, h') → session_kept h h'.
Proof. unfold catch_item. munfold. simpl. kept_goal. Qed.

Lemma process_item_kept cx dt item h o h' :
  process_item env cx dt item h = (o, h') → session_kept h h'.
Proof.
  unfold process_item, try_catch, mbind, M_bind.
  destruct (item_switch env cx dt item h) as [[[sid|]|msg] h1] eqn:Hsw;
    apply item_switch_kept in Hsw.
  - destruct (record_success_effect dt item sid h1) as (h2 & Hrun & _).
    pose proof (record_success_kept _ _ _ _ _ _ Hrun). rewrite Hrun.
    intros [= <- <-]. by eapply session_kept_trans.
  - by intros [= <- <-].
  - intros Hrun. apply catch_item_kept in Hrun.
    by eapply session_kept_trans.
Qed.

Lemma for_work_kept cx work h os h' :
  for_work env cx work h = (Val os, h') → session_kept h h'.
Proof.
  revert h os. induction work as [|[dt item] rest IH]; intros h os.
  - simpl. intros [= <- <-]. apply session_kept_refl.
  - intros Hrun.
    apply for_work_cons in Hrun as (o & h1 & os' & Hitem & Hrest & ->).
    apply process_item_kept in Hitem. apply IH in Hrest.
    by eapply session_kept_trans.
Qed.

Lemma markCompleted_times st h :
  ∃ h', markCompleted env st h = (Val tt, h') ∧
    session_header (h_log h') = session_header (h_log h) ∧
    s_completedAt (h_log h') = Some (clock env (w_reads (h_world h))) ∧
    s_duration (h_log h') =
      Some (clock env (w_reads (h_world h)) - s_startedAt (h_log h)) ∧
    s_updatedAt (h_log h') = clock env (S (w_reads (h_world h))).
Proof.
  eexists. split; [unfold markCompleted; munfold; simpl; reflexivity|].
  simpl. rewrite pre_save_header.
  match goal with
  | |- context [SyncLog_pre_save env ?t ?l] =>
      destruct (pre_save_times t l) as (-> & -> & ->)
  end.
  by repeat split.
Qed.

Lemma opening_header cx req w :
  session_header (h_log (upload_opening env cx req w)) =
    (w_next_id w, caller_userId cx, caller_deviceId cx, up_sessionId req,
     up_syncType req, up_operation req, up_dataTypes req,
     clock env (w_reads w)) ∧
  w_reads (h_world (upload_opening env cx req w)) = S (S (w_reads w)).
Proof.
  unfold upload_opening, open_session. simpl. by rewrite pre_save_header.
Qed.

Lemma upload_session_facts cx req w :
  let session := upload_session env cx req w in
  session_header session =
    (w_next_id w, caller_userId cx, caller_deviceId cx, up_sessionId req,
     up_syncType req, up_operation req, up_dataTypes req,
     clock env (w_reads w)) ∧
  ∃ n, (w_reads w + 2 ≤ n)%nat ∧
    s_completedAt session = Some (clock env n) ∧
    s_duration session = Some (clock env n - clock env (w_reads w)) ∧
    s_updatedAt session = clock env (S n).
Proof.
  destruct (upload_steps cx req w) as (os & h1 & h2 & Hrun & Hmc & _ & Hst).
  apply for_work_kept in Hrun as [Hh Hr].
  destruct (opening_header cx req w) as [Hh0 Hr0].
  destruct (markCompleted_times
              (if Z_length (failed_items (h_results h1)) >? 0 then partial else completed)
              h1) as (h2' & Hmc' & Hh2 & Hc & Hd & Hu).
  rewrite Hmc in Hmc'. injection Hmc' as <-.
  unfold upload_session. rewrite Hst. cbn zeta.
  rewrite Hh2, Hh, Hh0. split; [done|].
  exists (w_reads (h_world h1)). rewrite Hr0 in Hr.
  assert (s_startedAt (h_log h1) = clock env (w_reads w)) as Hs.
  { rewrite Hh0 in Hh. unfold session_header in Hh. by injection Hh. }
  rewrite Hc, Hd, Hu, Hs. split; [lia|done].
Qed.

Lemma count_where_split os :
  count_where is_succeeded os + count_where is_failed os +
    count_where is_conflicted os = Z_length os.
Proof.
  induction os as [|o os IH]; [done|].
  change (Z_length (o :: os)) with (Z_length ([o] ++ os)).
  rewrite Z_length_app, <- IH. destruct o; unfold Z_length; simpl; lia.
Qed.

Lemma failure_refs_length work os :
  length os = length work →
  Z_length (failure_refs work os) = count_where is_failed os.
Proof.
  revert os. induction work as [|[dt item] rest IH]; intros [|o os] Hlen;
    try done.
  injection Hlen as Hlen. specialize (IH os Hlen).
  destruct o; simpl; try done.
  change (Z_length (?x :: ?l)) with (Z_length ([x] ++ l)).
  rewrite Z_length_app, IH. done.
Qed.

Lemma ledger_counts_bound s f a b os :
  a ≤ s → b ≤ f →
  fst (ledger_counts s f (a, b) os) ≤ s + count_where is_succeeded os ∧
  snd (ledger_counts s f (a, b) os) ≤ f + count_where is_failed os.
Proof.
  revert s f a b. induction os as [|o os IH]; intros s f a b Ha Hb.
  - simpl. lia.
  - destruct o; simpl.
    + destruct (IH (s + 1) f (s + 1) f); lia.
    + destruct (IH s f a b); lia.
    + destruct (IH s (f + 1) a b); lia.
Qed.

Lemma sum_records_le_count (data : gmap string JsonVal) dataTypes :
  NoDup dataTypes → sum_records data dataTypes ≤ count_uploaded data.
Proof.
  intros Hnd. revert data.
  induction Hnd as [|dt rest Hnotin Hnd IH]; intros data.
  - apply count_uploaded_nonneg.
  - simpl. unfold records_of at 1.
    destruct (data !! dt) as [v|] eqn:Hdt; simpl.
    + rewrite (count_uploaded_lookup _ _ _ Hdt).
      rewrite (sum_records_ext (delete dt data) data).
      * specialize (IH (delete dt data)). lia.
      * intros dt' Hin. symmetry. apply lookup_delete_ne. by intros ->.
    + apply IH.
Qed.

(** X4.  The answer of an upload adds up: it reports the session's final
    status and [_id], and its three counts are the numbers of items that
    succeeded, failed and ended as a conflict, which together are all the
    items the loop visited.  The session holds one error entry for each
    failed item and one conflict entry for each conflicting item, and the
    lists of [details] have the reported lengths. *)
Theorem upload_answer_adds_up cx req w :
  let os := upload_outcomes env cx req w in
  let session := upload_session env cx req w in
  let details := upload_results env cx req w in
  fst (upload env cx req w) =
    Val (UploadDone (s_status session) (s__id session)
           (count_where is_succeeded os) (count_where is_failed os)
           (count_where is_conflicted os) details, os) ∧
  count_where is_succeeded os + count_where is_failed os +
    count_where is_conflicted os =
    Z_length (worklist (up_data req) (up_dataTypes req)) ∧
  Z_length (s_errors session) = count_where is_failed os ∧
  Z_length (s_conflicts session) = count_where is_conflicted os ∧
  Z_length (successful details) = count_where is_succeeded os ∧
  Z_length (failed_items details) = count_where is_failed os ∧
  Z_length (conflicts details) = count_where is_conflicted os.
Proof.
  destruct (upload_session_facts cx req w) as [Hhead _]. cbn zeta in Hhead.
  destruct (upload_views cx req w)
    as (os & h1 & Hrun & Hos & Hres & _ & _ & He & Hc & _ & Hfst).
  pose proof (for_work_kept _ _ _ _ _ Hrun) as [Hkept _].
  destruct (opening_header cx req w) as [Hh0 _].
  pose proof (for_work_accounting _ _ _ _ _ Hrun) as Hacc. cbn zeta in Hacc.
  destruct (opening_fields cx req w) as (Hr0 & He0 & Hc0 & _).
  rewrite Hr0, He0, Hc0 in Hacc. simpl in Hacc.
  destruct Hacc as (Hlen & _ & _ & _ & _ & Hs & Hf & Hcf & Hcs & Herr & _).
  assert (s__id (upload_session env cx req w) = s__id (h_log h1)) as Hid.
  { rewrite Hh0 in Hkept. rewrite <- Hkept in Hhead.
    unfold session_header in Hhead. by injection Hhead. }
  cbn zeta. rewrite Hos, Hres, He, Hc, Hfst, Hid, Hs, Hf, Hcf, Hcs.
  conj_split; try done.
  - rewrite count_where_split. unfold Z_length. by rewrite Hlen.
  - rewrite <- (failure_refs_length _ _ Hlen), <- Herr.
    unfold Z_length. by rewrite length_map.
Qed.

(** X5.  When no data type is listed twice, an upload never counts more
    processed items than the total it announced: at the end
    processedItems ≤ totalItems. *)
Theorem upload_processed_within_total cx req w :
  NoDup (up_dataTypes req) →
  processedItems (s_progress (upload_session env cx req w)) ≤
    totalItems (s_progress (upload_session env cx req w)).
Proof.
  intros Hnd.
  pose proof (upload_progress_ok_final cx req w) as (Hsum & _).
  destruct (upload_views cx req w)
    as (os & h1 & Hrun & _ & _ & _ & _ & _ & _ & Hp & _).
  pose proof (for_work_accounting _ _ _ _ _ Hrun) as Hacc. cbn zeta in Hacc.
  destruct (opening_fields cx req w) as (Hr0 & _ & _ & _ & Hp0 & _).
  rewrite Hr0, Hp0 in Hacc. autorewrite with ledger in Hacc. simpl in Hacc.
  destruct Hacc as (Hlen & _ & _ & Ht & Hsk & _ & _ & _ & _ & _ & Hl & _).
  rewrite Hsum, Hp. autorewrite with ledger. rewrite Ht, Hsk.
  pose proof (ledger_counts_bound 0 0 0 0 os (Z.le_refl 0) (Z.le_refl 0)) as [Hb1 Hb2].
  change (Z_length []) with 0 in Hl.
  rewrite <- Hl in Hb1, Hb2. simpl in Hb1, Hb2.
  pose proof (count_where_split os) as Hsplit.
  pose proof (sum_records_le_count (up_data req) _ Hnd) as Hle.
  rewrite <- worklist_length in Hle. unfold Z_length in Hle, Hsplit.
  rewrite <- Hlen in Hle.
  assert (0 ≤ count_where is_conflicted os).
  { clear. induction os as [|o os IH]; simpl; [done|].
    destruct (is_conflicted o); lia. }
  lia.
Qed.

(** X6.  The session of an upload is attributed to the caller and to the
    request: its [_id] is the next free one, its owner and device are the
    caller's, its session id, sync type, operation and data types are the
    request's, and its start time is the first clock reading of the call.
    Nothing the upload does afterwards changes any of these. *)
Theorem upload_session_attributed cx req w :
  session_header (upload_session env cx req w) =
    (w_next_id w, caller_userId cx, caller_deviceId cx, up_sessionId req,
     up_syncType req, up_operation req, up_dataTypes req,
     clock env (w_reads w)).
Proof. exact (proj1 (upload_session_facts cx req w)). Qed.

(** X7.  An upload closes its session: completedAt is set, the duration is
    completedAt - startedAt, and with a clock that never goes back the
    duration is not negative and the session's updatedAt is not before its
    completedAt. *)
Theorem upload_session_duration cx req w :
  (∀ n m, (n ≤ m)%nat → clock env n ≤ clock env m) →
  let session := upload_session env cx req w in
  ∃ c, s_completedAt session = Some c ∧
       s_duration session = Some (c - s_startedAt session) ∧
       0 ≤ c - s_startedAt session ∧ c ≤ s_updatedAt session.
Proof.
  intros Hmono.
  destruct (upload_session_facts cx req w) as [Hhead (n & Hn & Hc & Hd & Hu)].
  cbn zeta in *.
  assert (s_startedAt (upload_session env cx req w) = clock env (w_reads w)) as Hs.
  { unfold session_header in Hhead. by injection Hhead. }
  exists (clock env n). rewrite Hc, Hd, Hu, Hs. conj_split; try done.
  - pose proof (Hmono (w_reads w) n). lia.
  - apply Hmono. lia.
Qed.

(** *** More on the item strategies *)

Lemma list_find_snoc {A : Type} (P : A → Prop) `{∀ x, Decision (P x)}
    (l : list A) (x : A) :
  list_find P l = None → P x → list_find P (l ++ [x]) = Some (length l, x).
Proof.
  intros Hnone HP. rewrite list_find_app_r by done. simpl.
  by rewrite decide_True.
Qed.

(** X8.  A diagnosis item whose lastModified is missing or not a date never
    overwrites and never conflicts: when the lookup finds a stored record,
    both comparisons are false, the Record Store stays as it is and the item
    is reported successful with the stored record's id. *)
Theorem diagnosis_undated_kept cx item createdAt h pos stored :
  item_createdAt item = Some createdAt →
  item_lastModified item = None →
  list_find
    (same_diagnosis (caller_userId cx) (caller_deviceId cx)
       (item_sessionId item) (item_patient_id item) createdAt)
    (w_diagnoses (h_world h)) = Some (pos, stored) →
  ∃ h',
    process_item env cx "diagnoses" item h = (Val Succeeded, h') ∧
    record_store h' = record_store h ∧
    successful (h_results h') =
      successful (h_results h) ++
        [mkSuccess (itemId item) "diagnoses" (Some (d__id stored))] ∧
    s_conflicts (h_log h') = s_conflicts (h_log h) ∧
    conflicts (h_results h') = conflicts (h_results h) ∧
    failed_items (h_results h') = failed_items (h_results h).
Proof.
  intros Hcreated Hlm Hfind. eexists. split.
  { run_item. rewrite Hcreated. simpl. rewrite Hfind. simpl.
    unfold date_lt, date_gt. rewrite Hlm. simpl. reflexivity. }
  simpl. ledger_simpl. by repeat split.
Qed.

(** X9.  The lastModified that is stored with a new diagnosis is the
    server's time of the save (the pre-save hook), not the item's.  So when
    an item created a record and its own lastModified is earlier than that
    save, uploading the same item again is a conflict: the record is found,
    it is newer than the item, and nothing is written. *)
Theorem diagnosis_reupload_conflicts cx item createdAt lastModified h h1 :
  item_createdAt item = Some createdAt →
  item_lastModified item = Some lastModified →
  list_find
    (same_diagnosis (caller_userId cx) (caller_deviceId cx)
       (item_sessionId item) (item_patient_id item) createdAt)
    (w_diagnoses (h_world h)) = None →
  process_item env cx "diagnoses" item h = (Val Succeeded, h1) →
  lastModified < clock env (S (w_reads (h_world h))) →
  ∃ doc h2,
    w_diagnoses (h_world h1) = w_diagnoses (h_world h) ++ [doc] ∧
    d_lastModified doc = clock env (S (w_reads (h_world h))) ∧
    process_item env cx "diagnoses" item h1 = (Val Conflicted, h2) ∧
    record_store h2 = record_store h1 ∧
    successful (h_results h2) = successful (h_results h1) ∧
    conflicts (h_results h2) =
      conflicts (h_results h1) ++
        [mkReport (itemId item) "diagnoses" "concurrent_modification"] ∧
    s_conflicts (h_log h2) =
      s_conflicts (h_log h1) ++
        [mkConflict (itemId item) "diagnoses" concurrent_modification
           manual_review None None (Some item) (Some doc) None].
Proof.
  intros Hcreated Hlm Hnone Hfirst Hlt. revert Hfirst.
  run_item. rewrite Hcreated. simpl. rewrite Hnone. simpl.
  destruct (store_rejects env InsertDiagnosis item _); simpl; [done|].
  destruct (item__id item) as [cid|] eqn:Hid; simpl; intros [= <-]; simpl.
  all: eexists; eexists; split; [reflexivity|]; split; [reflexivity|].
  all: rewrite (list_find_snoc _ _ _ Hnone) by done; simpl.
  all: unfold date_lt, date_gt; rewrite Hlm.
  all: rewrite (proj2 (Z.ltb_ge _ _)) by lia.
  all: rewrite (proj2 (Z.gtb_gt _ _)) by lia; simpl.
  all: split; [reflexivity|]; simpl; ledger_simpl; by repeat split.
Qed.

(** X10.  A profile item writes into the caller's own user record the
    allowed fields it gives with a non-empty value, and only those: a field
    that is missing or empty keeps its stored value, the record keeps its
    [_id] and place, and activities and diagnoses are not touched.  With no
    such field the record is left as it is.  The item is reported successful
    without a server id. *)
Theorem profile_item_applies_given_fields cx item h pos u :
  list_find (λ u, u__id u = caller_userId cx) (w_users (h_world h)) =
    Some (pos, u) →
  store_rejects env UpdateUser item (h_world h) = None →
  let given (new old : option string) := if truthy new then new else old in
  ∃ h' u',
    process_item env cx "user_profile" item h = (Val Succeeded, h') ∧
    w_users (h_world h') = <[pos := u']> (w_users (h_world h)) ∧
    u__id u' = u__id u ∧
    u_firstName u' = given (item_firstName item) (u_firstName u) ∧
    u_lastName u' = given (item_lastName item) (u_lastName u) ∧
    u_facility u' = given (item_facility item) (u_facility u) ∧
    u_state u' = given (item_state item) (u_state u) ∧
    u_contactInfo u' = given (item_contactInfo item) (u_contactInfo u) ∧
    (has_update_fields item = false → u' = u) ∧
    w_activities (h_world h') = w_activities (h_world h) ∧
    w_diagnoses (h_world h') = w_diagnoses (h_world h) ∧
    successful (h_results h') =
      successful (h_results h) ++ [mkSuccess (itemId item) "user_profile" None].
Proof.
  intros Hfind Hok given.
  destruct (has_update_fields item) eqn:Hfields.
  - eexists; exists (update_user (clock env (w_reads (h_world h))) item u).
    split.
    { run_item. rewrite Hfields. simpl. rewrite Hok. simpl. reflexivity. }
    simpl. rewrite Hfind. simpl. subst given. unfold apply_field, keep_truthy.
    conj_split; try done.
    all: match goal with
         | |- context [truthy ?x] => destruct x as [s|]; simpl; try done;
                                     by destruct (String.eqb s "")
         end.
  - exists (snd (process_item env cx "user_profile" item h)), u. split.
    { run_item. rewrite Hfields. simpl. reflexivity. }
    run_item. rewrite Hfields. simpl.
    apply list_find_Some in Hfind as (Hl & _).
    rewrite list_insert_id by done. subst given.
    unfold has_update_fields in Hfields.
    repeat (apply orb_false_elim in Hfields as [Hfields ?]).
    conj_split; try done.
    all: match goal with
         | H : truthy ?x = false |- context [truthy ?x] => by rewrite H
         end.
Qed.

(** *** The session and the Record Store under a download *)

Lemma fetch_failures_cons lastSync dt rest :
  fetch_failures lastSync (dt :: rest) =
    fetch_failures lastSync [dt] ++ fetch_failures lastSync rest.
Proof.
  unfold fetch_failures. destruct lastSync; [done|].
  rewrite <- map_app. f_equal.
  change (dt :: rest) with ([dt] ++ rest). by rewrite filter_app.
Qed.

Lemma fetch_type_log cx lastSync dt data h :
  ∃ data' h',
    fetch_type env cx lastSync dt data h = (Val data', h') ∧
    (∀ base, session_saved base h → session_saved base h') ∧
    session_kept h h' ∧
    map err_kind (s_errors (h_log h')) =
      map err_kind (s_errors (h_log h)) ++ fetch_failures lastSync [dt].
Proof.
  unfold fetch_type, fetch_switch, try_catch, fetch_failures, session_saved,
    session_kept.
  destruct (decide (dt = "activities")) as [->|Hna];
    [|destruct (decide (dt = "diagnoses")) as [->|Hnd];
      [|destruct (decide (dt = "user_profile")) as [->|Hnu]]].
  1, 2: unfold Activity_find_since, Diagnosis_find_since, cast_date;
    destruct lastSync as [t|]; munfold; simpl; eexists; eexists;
    (split; [reflexivity|]); simpl;
    ledger_simpl; rewrite ?pre_save_header, ?map_app, ?app_nil_r;
    (split;
     [intros base [Hpos Hlogs]; simpl; by rewrite ?Hpos, ?Hlogs, ?insert_last
     |split; [split; [done|lia]|done]]).
  - unfold User_findById. munfold. simpl.
    destruct (list_find _ (w_users (h_world h))) as [[pos u]|]; simpl;
      [destruct (date_gt (u_updatedAt u) lastSync); simpl|];
      eexists; eexists; (split; [reflexivity|]);
      destruct lastSync; by rewrite app_nil_r.
  - munfold. eexists; eexists. split; [reflexivity|].
    destruct lastSync; [by rewrite app_nil_r|].
    rewrite filter_cons_False by (unfold dated_fetch; tauto).
    by rewrite app_nil_r.
Qed.

Lemma fetch_all_log cx lastSync dataTypes data h :
  ∃ data' h',
    fetch_all env cx lastSync dataTypes data h = (Val data', h') ∧
    (∀ base, session_saved base h → session_saved base h') ∧
    session_kept h h' ∧
    map err_kind (s_errors (h_log h')) =
      map err_kind (s_errors (h_log h)) ++ fetch_failures lastSync dataTypes.
Proof.
  revert data h. induction dataTypes as [|dt rest IH]; intros data h.
  - exists data, h. split; [done|]. split; [done|].
    split; [apply session_kept_refl|].
    unfold fetch_failures. destruct lastSync; by rewrite app_nil_r.
  - destruct (fetch_type_log cx lastSync dt data h)
      as (data1 & h1 & Hstep & Hb1 & Hk1 & He1).
    destruct (IH data1 h1) as (data2 & h2 & Hrest & Hb2 & Hk2 & He2).
    exists data2, h2. simpl. rewrite (bind_val _ _ _ _ _ Hstep).
    split; [done|]. split; [by auto|].
    split; [by eapply session_kept_trans|].
    by rewrite He2, He1, (fetch_failures_cons lastSync dt rest), app_assoc.
Qed.

Lemma updateProgress_log processed successfulN failedN h :
  ∃ h', updateProgress env processed (Some successfulN) (Some failedN) None h =
          (Val tt, h') ∧
    (∀ base, session_saved base h → session_saved base h') ∧
    session_kept h h' ∧
    record_store h' = record_store h ∧
    s_errors (h_log h') = s_errors (h_log h).
Proof.
  eexists. split; [unfold updateProgress; munfold; simpl; reflexivity|].
  unfold session_saved, session_kept. simpl. ledger_simpl.
  rewrite pre_save_header.
  split; [|by split; [split; [|lia]|]].
  intros base [Hpos Hlogs]. by rewrite Hpos, Hlogs, insert_last.
Qed.

Lemma download_steps cx req w :
  ∃ data h1 h2 h3,
    fetch_all env cx (lastSync_of (dn_lastSyncTimestamp req)) (dn_dataTypes req)
      (mkData None None None) (download_opening env cx req w) = (Val data, h1) ∧
    updateProgress env (count_fetched data) (Some (count_fetched data)) (Some 0)
      None h1 = (Val tt, h2) ∧
    markCompleted env completed h2 = (Val tt, h3) ∧
    download_state env cx req w =
      set_world (λ w0, with_reads (S (w_reads w0)) w0) h3.
Proof.
  destruct (fetch_all_log cx (lastSync_of (dn_lastSyncTimestamp req))
              (dn_dataTypes req) (mkData None None None)
              (download_opening env cx req w)) as (data & h1 & Hfetch & _).
  destruct (updateProgress_log (count_fetched data) (count_fetched data) 0 h1)
    as (h2 & Hup & _).
  destruct (markCompleted_run completed h2) as (h3 & Hmc & _).
  exists data, h1, h2, h3. split; [done|]. split; [done|]. split; [done|].
  unfold download_state, download, try_catch, download_try.
  fold (download_opening env cx req w).
  rewrite (bind_val _ _ _ _ _ Hfetch). cbv beta.
  rewrite (bind_val _ _ _ _ _ Hup). rewrite (bind_val _ _ _ _ _ Hmc).
  reflexivity.
Qed.

Lemma download_log_facts cx req w :
  let session := download_session env cx req w in
  w_synclogs (h_world (download_state env cx req w)) = w_synclogs w ++ [session] ∧
  session_header session =
    (w_next_id w, caller_userId cx, caller_deviceId cx, dn_sessionId req,
     dn_syncType req, dn_operation req, dn_dataTypes req,
     clock env (w_reads w)) ∧
  map err_kind (s_errors session) =
    fetch_failures (lastSync_of (dn_lastSyncTimestamp req)) (dn_dataTypes req).
Proof.
  destruct (download_steps cx req w)
    as (data & h1 & h2 & h3 & Hfetch & Hup & Hmc & Hst).
  destruct (fetch_all_log cx (lastSync_of (dn_lastSyncTimestamp req))
              (dn_dataTypes req) (mkData None None None)
              (download_opening env cx req w))
    as (data' & h1' & Hfetch' & Hb1 & [Hk1 _] & He1).
  rewrite Hfetch in Hfetch'. injection Hfetch' as <- <-.
  destruct (updateProgress_log (count_fetched data) (count_fetched data) 0 h1)
    as (h2' & Hup' & Hb2 & [Hk2 _] & _ & He2).
  rewrite Hup in Hup'. injection Hup' as <-.
  destruct (markCompleted_times completed h2) as (h3' & Hmc' & Hk3 & _).
  rewrite Hmc in Hmc'. injection Hmc' as <-.
  destruct (markCompleted_run completed h2)
    as (h3' & Hmc' & _ & _ & _ & _ & He3 & _).
  rewrite Hmc in Hmc'. injection Hmc' as <-.
  pose proof (markCompleted_saved _ _ _ _ (w_synclogs w) Hmc) as Hb3.
  assert (session_saved (w_synclogs w) (download_opening env cx req w)) as Hb0
    by done.
  destruct (Hb3 (Hb2 _ (Hb1 _ Hb0))) as [_ Hlogs].
  unfold download_session. rewrite Hst. cbn zeta. simpl.
  split; [done|].
  rewrite Hk3, Hk2, Hk1, He3, He2, He1.
  unfold download_opening, open_session. simpl. ledger_simpl.
  by rewrite pre_save_header.
Qed.

(** X11.  A download only reads the Record Store: activities, diagnoses and
    users are after the call what they were before.  What it writes is one
    session document, appended to the collection as the handler holds it at
    the end, attributed to the caller with the request's session id, sync
    type, operation and data types. *)
Theorem download_only_logs cx req w :
  let session := download_session env cx req w in
  record_store (download_state env cx req w) =
    (w_activities w, w_diagnoses w, w_users w) ∧
  w_synclogs (h_world (download_state env cx req w)) = w_synclogs w ++ [session] ∧
  session_header session =
    (w_next_id w, caller_userId cx, caller_deviceId cx, dn_sessionId req,
     dn_syncType req, dn_operation req, dn_dataTypes req,
     clock env (w_reads w)).
Proof.
  destruct (download_views cx req w) as (_ & _ & Hstore & _).
  destruct (download_log_facts cx req w) as (Hlogs & Hhead & _).
  by repeat split.
Qed.

(** X12.  A failed fetch does not fail a download.  With a watermark that
    is a date (or none) the session logs no error.  With a watermark that is
    not a date, every dated fetch (activities, diagnoses) is refused by the
    query and caught: the session logs one DATA_FETCH_ERROR of medium
    severity for each such entry of dataTypes, in order, naming the data
    type; the answer carries no activities and no diagnoses, and the session
    still ends completed. *)
Theorem download_fetch_errors cx req w :
  let lastSync := lastSync_of (dn_lastSyncTimestamp req) in
  let session := download_session env cx req w in
  (is_Some lastSync → s_errors session = []) ∧
  (lastSync = None →
   map err_kind (s_errors session) =
     map (λ dataType, ("DATA_FETCH_ERROR", medium, Some dataType, None))
       (filter dated_fetch (dn_dataTypes req)) ∧
   dd_activities (download_data env cx req w) = None ∧
   dd_diagnoses (download_data env cx req w) = None ∧
   s_status session = completed).
Proof.
  destruct (download_log_facts cx req w) as (_ & _ & Herr).
  destruct (download_views cx req w) as (Hdata & _ & _ & Hst & _).
  cbn zeta in *. split.
  - intros [t Ht]. rewrite Ht in Herr. simpl in Herr.
    by destruct (s_errors (download_session env cx req w)).
  - intros Hnone. rewrite Hnone in Herr, Hdata. split; [done|].
    rewrite Hdata. unfold selected_data. simpl.
    by rewrite !when_requested_none.
Qed.

(** *** Order and cut of the fetched records *)

#[local] Instance newer_first_total {A : Type} (updatedAt : A → Date) :
  Total (newer_first updatedAt).
Proof. intros x y. unfold newer_first. lia. Qed.

#[local] Instance newer_first_trans {A : Type} (updatedAt : A → Date) :
  Transitive (newer_first updatedAt).
Proof. intros x y z. unfold newer_first. lia. Qed.

Lemma take_newest {A : Type} (updatedAt : A → Date) (P : A → Prop)
    `{∀ x, Decision (P x)} (n : nat) (l : list A) :
  let page := take n (merge_sort (newer_first updatedAt) (filter P l)) in
  StronglySorted (newer_first updatedAt) page ∧
  (∀ x y, x ∈ page → y ∈ l → P y → y ∉ page → updatedAt y ≤ updatedAt x) ∧
  ((length page < n)%nat → ∀ y, y ∈ l → P y → y ∈ page).
Proof.
  intros page. subst page.
  set (s := merge_sort (newer_first updatedAt) (filter P l)).
  assert (StronglySorted (newer_first updatedAt) s) as Hsorted.
  { apply StronglySorted_merge_sort; apply _. }
  assert (∀ y, y ∈ l → P y → y ∈ s) as Hin.
  { intros y Hy HP. unfold s. rewrite merge_sort_Permutation.
    by apply list_elem_of_filter. }
  rewrite <- (take_drop n s) in Hsorted.
  split; [by eapply StronglySorted_app_1_l|]. split.
  - intros x y Hx Hy HP Hout.
    specialize (Hin y Hy HP). rewrite <- (take_drop n s) in Hin.
    apply elem_of_app in Hin as [Hin|Hin]; [done|].
    by apply (StronglySorted_app_1_elem_of _ _ _ x y Hsorted).
  - intros Hshort y Hy HP. rewrite length_take in Hshort.
    rewrite take_ge by lia. by apply Hin.
Qed.

(** X13.  The activities and the diagnoses of a download come newest
    first (by updatedAt), and the cut at 1000 and 500 keeps the newest: a
    record of the caller that is synced and newer than the watermark but was
    left out is not newer than any record returned; when fewer records than
    the cut are returned, nothing was left out. *)
Theorem download_newest_first cx req w t :
  lastSync_of (dn_lastSyncTimestamp req) = Some t →
  let data := download_data env cx req w in
  (∀ l, dd_activities data = Some l →
     StronglySorted (newer_first a_updatedAt) l ∧
     (∀ a b, a ∈ l → b ∈ w_activities w → a_userId b = caller_userId cx →
             t < a_updatedAt b → a_syncStatus b = synced → b ∉ l →
             a_updatedAt b ≤ a_updatedAt a) ∧
     ((length l < 1000)%nat →
      ∀ b, b ∈ w_activities w → a_userId b = caller_userId cx →
           t < a_updatedAt b → a_syncStatus b = synced → b ∈ l)) ∧
  (∀ l, dd_diagnoses data = Some l →
     StronglySorted (newer_first d_updatedAt) l ∧
     (∀ a b, a ∈ l → b ∈ w_diagnoses w → d_userId b = caller_userId cx →
             t < d_updatedAt b → d_syncStatus b = synced → b ∉ l →
             d_updatedAt b ≤ d_updatedAt a) ∧
     ((length l < 500)%nat →
      ∀ b, b ∈ w_diagnoses w → d_userId b = caller_userId cx →
           t < d_updatedAt b → d_syncStatus b = synced → b ∈ l)).
Proof.
  intros Hwm data.
  destruct (download_views cx req w) as (Hdata & _).
  subst data. rewrite Hdata, Hwm. clear Hdata.
  unfold selected_data, when_requested. simpl. split.
  - intros l. destruct (decide _) as [Hin|]; [|done]. intros [= <-].
    destruct (take_newest a_updatedAt
                (λ a, a_userId a = caller_userId cx ∧ t < a_updatedAt a ∧
                      a_syncStatus a = synced) 1000 (w_activities w))
      as (Hsorted & Hcut & Hall).
    split; [done|]. split.
    + intros a b Ha Hb Hu Hn Hs Hout. by apply Hcut.
    + intros Hshort b Hb Hu Hn Hs. by apply Hall.
  - intros l. destruct (decide _) as [Hin|]; [|done]. intros [= <-].
    destruct (take_newest d_updatedAt
                (λ d, d_userId d = caller_userId cx ∧ t < d_updatedAt d ∧
                      d_syncStatus d = synced) 500 (w_diagnoses w))
      as (Hsorted & Hcut & Hall).
    split; [done|]. split.
    + intros a b Ha Hb Hu Hn Hs Hout. by apply Hcut.
    + intros Hshort b Hb Hu Hn Hs. by apply Hall.
Qed.

(** *** Upload, then download *)

Lemma activity_created cx item timestamp h h1 :
  item_timestamp item = Some timestamp →
  list_find
    (same_activity (caller_userId cx) (caller_deviceId cx) (item_sessionId item)
       (item_activityType item) timestamp)
    (w_activities (h_world h)) = None →
  process_item env cx "activities" item h = (Val Succeeded, h1) →
  ∃ doc, w_activities (h_world h1) = w_activities (h_world h) ++ [doc] ∧
    same_activity (caller_userId cx) (caller_deviceId cx) (item_sessionId item)
      (item_activityType item) timestamp doc ∧
    a_syncStatus doc = synced ∧ a_rest doc = item_rest item ∧
    a_updatedAt doc =
      default (clock env (S (w_reads (h_world h)))) (item_createdAt item).
Proof.
  intros Hts Hnone. run_item. rewrite Hts. simpl. rewrite Hnone. simpl.
  destruct (store_rejects env InsertActivity item _); simpl; [done|].
  destruct (item__id item); simpl; intros [= <-]; simpl;
    eexists; (split; [reflexivity|]); by repeat split.
Qed.

(** X14.  What an upload stores, a later download returns, as far as the
    watermark allows.  After an upload that carries one new activity and
    reports it successful, the stored activity has the item's timestamp and
    content, and its updatedAt is the item's createdAt when the item carries
    one and the server's time of construction otherwise.  A later download
    by the same user that asks for activities returns this activity when
    the watermark is earlier than that updatedAt, and does not return it
    when the watermark is not earlier (fewer than 999 activities being
    stored before, so that the cut at 1000 is not reached). *)
Theorem upload_then_download cx up item timestamp dn t w :
  worklist (up_data up) (up_dataTypes up) = [("activities", item)] →
  item_timestamp item = Some timestamp →
  list_find
    (same_activity (caller_userId cx) (caller_deviceId cx) (item_sessionId item)
       (item_activityType item) timestamp)
    (w_activities w) = None →
  upload_outcomes env cx up w = [Succeeded] →
  "activities" ∈ dn_dataTypes dn →
  lastSync_of (dn_lastSyncTimestamp dn) = Some t →
  (length (w_activities w) < 999)%nat →
  ∃ doc l,
    w_activities (h_world (upload_state env cx up w)) = w_activities w ++ [doc] ∧
    (doc ∉ w_activities w) ∧
    a_timestamp doc = timestamp ∧ a_rest doc = item_rest item ∧
    a_updatedAt doc =
      default (clock env (S (S (S (w_reads w))))) (item_createdAt item) ∧
    dd_activities
      (download_data env cx dn (h_world (upload_state env cx up w))) = Some l ∧
    (t < a_updatedAt doc → doc ∈ l) ∧
    (a_updatedAt doc ≤ t → doc ∉ l).
Proof.
  intros Hwork Hts Hnone Hos Hasked Hwm Hroom.
  destruct (upload_single cx up w _ _ Hwork) as (o & h1 & Hitem & Hos' & _ & Hstore).
  rewrite Hos in Hos'. injection Hos' as <-.
  destruct (activity_created cx item timestamp (upload_opening env cx up w) h1
              Hts Hnone Hitem)
    as (doc & Hacts & Hkey & Hs & Hr & Hup).
  assert (w_activities (h_world (upload_state env cx up w)) =
            w_activities w ++ [doc]) as Hafter.
  { unfold record_store in Hstore. injection Hstore as Ha _ _.
    by rewrite Ha, Hacts. }
  destruct (download_views cx dn (h_world (upload_state env cx up w)))
    as (Hdata & _).
  rewrite Hdata, Hwm. unfold selected_data, when_requested. simpl.
  rewrite decide_True by done. exists doc. eexists.
  assert (doc ∉ w_activities w) as Hnew.
  { intros Hin. apply list_find_None in Hnone.
    rewrite Forall_forall in Hnone. by apply (Hnone doc Hin). }
  destruct Hkey as (Hu & _ & _ & _ & Ht).
  split; [done|]. split; [done|]. split; [done|]. split; [done|].
  split; [exact Hup|]. split; [reflexivity|].
  rewrite Hafter. split.
  - intros Hlater. rewrite take_ge.
    + rewrite merge_sort_Permutation. apply list_elem_of_filter.
      split; [|apply elem_of_app; right; by left]. by repeat split.
    + rewrite merge_sort_Permutation.
      etrans; [apply length_filter|]. rewrite length_app. simpl. lia.
  - intros Hearlier Hin. apply subseteq_take in Hin.
    rewrite merge_sort_Permutation in Hin.
    apply list_elem_of_filter in Hin as ((_ & Hnewer & _) & _). lia.
Qed.

(** *** More on conflict review *)

Lemma get_conflicts_complete cx limit w log c :
  log ∈ w_synclogs w → s_userId log = caller_userId cx →
  s_deviceId log = caller_deviceId cx → c ∈ s_conflicts log →
  c_resolution c = manual_review → (length (w_synclogs w) ≤ limit)%nat →
  mkListing (s__id log) (s_startedAt log) c ∈ get_conflicts cx 1 limit w.
Proof.
  intros Hlog Hu Hd Hc Hres Hlimit. unfold get_conflicts. simpl.
  rewrite take_ge.
  - rewrite list_elem_of_In, in_flat_map. exists log. split.
    + apply list_elem_of_In. rewrite merge_sort_Permutation.
      apply list_elem_of_filter. split; [|done].
      split; [done|]. split; [done|]. apply Exists_exists. by exists c.
    + apply list_elem_of_In, list_elem_of_fmap. exists c. split; [done|].
      by apply list_elem_of_filter.
  - rewrite merge_sort_Permutation.
    etrans; [apply length_filter|]. done.
Qed.

Lemma for_work_unresolved cx work h os h' :
  for_work env cx work h = (Val os, h') →
  Forall unresolved (s_conflicts (h_log h)) →
  Forall unresolved (s_conflicts (h_log h')).
Proof.
  revert h os. induction work as [|[dt item] rest IH]; intros h os.
  - simpl. by intros [= <- <-].
  - intros Hrun Hall.
    apply for_work_cons in Hrun as (o & h1 & os' & Hitem & Hrest & ->).
    apply process_item_effect in Hitem. apply (IH _ _ Hrest).
    unfold item_effect in Hitem. destruct Hitem as (_ & _ & _ & _ & _ & Ho).
    destruct o.
    + destruct Ho as (_ & _ & _ & _ & -> & _). done.
    + destruct Ho as (_ & _ & _ & _ & [d ->] & _).
      apply Forall_app. split; [done|]. by apply Forall_singleton.
    + destruct Ho as (_ & _ & _ & _ & -> & _). done.
Qed.

(** X15.  The unresolved-conflicts listing is complete on its first page:
    when the page size is at least the number of stored sessions, every
    conflict entry still in manual_review of every session of the caller on
    this device is listed, with the session's id and start time. *)
Theorem conflicts_listing_complete cx limit w log c :
  log ∈ w_synclogs w → s_userId log = caller_userId cx →
  s_deviceId log = caller_deviceId cx → c ∈ s_conflicts log →
  c_resolution c = manual_review → (length (w_synclogs w) ≤ limit)%nat →
  mkListing (s__id log) (s_startedAt log) c ∈ get_conflicts cx 1 limit w.
Proof. apply get_conflicts_complete. Qed.

(** X16.  Every conflict an upload raises is open for review right after
    the call: each conflict entry of the upload's session appears in the
    caller's unresolved-conflicts listing (first page, page size above the
    number of sessions stored before), under the session's id. *)
Theorem upload_conflicts_listed cx req w limit c :
  (length (w_synclogs w) < limit)%nat →
  c ∈ s_conflicts (upload_session env cx req w) →
  mkListing (s__id (upload_session env cx req w))
    (s_startedAt (upload_session env cx req w)) c
    ∈ get_conflicts cx 1 limit (h_world (upload_state env cx req w)).
Proof.
  intros Hlimit Hc.
  destruct (upload_session_facts cx req w) as [Hhead _]. cbn zeta in Hhead.
  pose proof (proj2 (proj2 (upload_store_facts cx req w))) as [_ Hlogs].
  fold (upload_session env cx req w) in Hlogs.
  assert (Forall unresolved (s_conflicts (upload_session env cx req w))) as Hall.
  { destruct (upload_views cx req w)
      as (os & h1 & Hrun & _ & _ & _ & _ & _ & -> & _).
    apply (for_work_unresolved _ _ _ _ _ Hrun).
    destruct (opening_fields cx req w) as (_ & _ & -> & _). done. }
  unfold session_header in Hhead. injection Hhead as _ Hu Hd _ _ _ _ _.
  apply get_conflicts_complete; try done.
  - rewrite Hlogs. apply elem_of_app. right. by left.
  - rewrite Forall_forall in Hall. by apply Hall.
  - rewrite Hlogs, length_app. simpl. lia.
Qed.

(** X17.  A caller reaches only their own sessions when resolving: when no
    session with the requested id belongs to the caller on this device, the
    answer is "sync log not found" and nothing is written; when the session
    is the caller's but holds no conflict entry with the requested item id,
    the answer is "conflict not found" and nothing is written. *)
Theorem resolve_conflict_needs_owner cx req w :
  (no_own_session cx req w →
   resolve_conflict env cx req w = (SyncLogNotFound, w)) ∧
  (∀ pos log,
     list_find (λ l, s__id l = rr_syncId req ∧ s_userId l = caller_userId cx ∧
                     s_deviceId l = caller_deviceId cx) (w_synclogs w) =
       Some (pos, log) →
     Forall (λ c, c_itemId c ≠ rr_conflictItemId req) (s_conflicts log) →
     resolve_conflict env cx req w = (ConflictNotFound, w)).
Proof.
  split.
  - intros Hnone. unfold resolve_conflict.
    by rewrite (proj2 (list_find_None
                         (λ l, s__id l = rr_syncId req ∧
                               s_userId l = caller_userId cx ∧
                               s_deviceId l = caller_deviceId cx)
                         (w_synclogs w)) Hnone).
  - intros pos log Hfind Hnone. unfold resolve_conflict. rewrite Hfind.
    by rewrite (proj2 (list_find_None
                         (λ c, c_itemId c = rr_conflictItemId req)
                         (s_conflicts log)) Hnone).
Qed.

(** *** The status listing *)

Lemma sorted_window {A : Type} (R : relation A) (n m : nat) (l : list A) :
  StronglySorted R l → StronglySorted R (take n (drop m l)).
Proof.
  intros Hs. rewrite <- (take_drop m l) in Hs.
  apply StronglySorted_app_1_r in Hs.
  rewrite <- (take_drop n (drop m l)) in Hs.
  by apply StronglySorted_app_1_l in Hs.
Qed.

Lemma pages_concat {A : Type} (l : list A) (limit n : nat) :
  concat (map (λ page, take limit (drop ((page - 1) * limit) l)) (seq 1 n)) =
    take (n * limit) l.
Proof.
  induction n as [|n IH]; [done|].
  rewrite seq_S, map_app, concat_app, IH. simpl.
  rewrite Nat.sub_0_r, app_nil_r, take_take_drop.
  f_equal. lia.
Qed.

Lemma Math_ceil_div_bounds (total limit : nat) :
  (0 < limit)%nat →
  (total ≤ Math_ceil_div total limit * limit)%nat ∧
  (Math_ceil_div total limit * limit < total + limit)%nat.
Proof.
  intros Hpos. unfold Math_ceil_div.
  pose proof (Nat.div_mod_eq (total + limit - 1) limit) as Hdiv.
  pose proof (Nat.mod_upper_bound (total + limit - 1) limit) as Hmod.
  rewrite (Nat.mul_comm _ limit). lia.
Qed.

#[local] Instance last_completed_first_total : Total last_completed_first.
Proof.
  intros x y. unfold last_completed_first, completed_not_after.
  destruct (s_completedAt x), (s_completedAt y); try tauto. lia.
Qed.

#[local] Instance last_completed_first_trans : Transitive last_completed_first.
Proof.
  intros x y z. unfold last_completed_first, completed_not_after.
  destruct (s_completedAt x), (s_completedAt y), (s_completedAt z);
    try tauto. lia.
Qed.

Lemma get_status_data cx req w d :
  get_status cx req w = Some d →
  ∃ from to,
    cast_bound (st_startDate req) = Some from ∧
    cast_bound (st_endDate req) = Some to ∧
    status_matching cx req w =
      filter (status_query cx req from to) (w_synclogs w) ∧
    sd_syncLogs d =
      take (sd_limit d) (drop ((sd_page d - 1) * sd_limit d)
        (merge_sort (newer_first s_startedAt) (status_matching cx req w))) ∧
    sd_page d = default 1%nat (st_page req) ∧
    sd_limit d = default 20%nat (st_limit req) ∧
    sd_total d = length (status_matching cx req w) ∧
    sd_pages d = Math_ceil_div (sd_total d) (sd_limit d).
Proof.
  unfold get_status, status_matching.
  destruct (cast_bound (st_startDate req)) as [from|]; [|done].
  destruct (cast_bound (st_endDate req)) as [to|]; [|done].
  intros [= <-]. exists from, to. by repeat split.
Qed.

(** X18.  The status listing answers with an error exactly when a given
    bound is not a date.  Otherwise the page holds at most [limit]
    sessions, newest first by start time, and every session on it is stored,
    is the caller's on this device, has the requested status and sync type
    when these are given and not empty, and started within the given
    bounds. *)
Theorem status_page_sound cx req w :
  match get_status cx req w with
  | None => st_startDate req = Some None ∨ st_endDate req = Some None
  | Some d =>
      st_startDate req ≠ Some None ∧ st_endDate req ≠ Some None ∧
      (length (sd_syncLogs d) ≤ sd_limit d)%nat ∧
      StronglySorted (newer_first s_startedAt) (sd_syncLogs d) ∧
      ∀ l, l ∈ sd_syncLogs d →
        l ∈ w_synclogs w ∧
        s_userId l = caller_userId cx ∧ s_deviceId l = caller_deviceId cx ∧
        (truthy (st_status req) = true →
         st_status req = Some (status_name (s_status l))) ∧
        (truthy (st_syncType req) = true →
         st_syncType req = Some (s_syncType l)) ∧
        (∀ t, st_startDate req = Some (Some t) → t ≤ s_startedAt l) ∧
        (∀ t, st_endDate req = Some (Some t) → s_startedAt l ≤ t)
  end.
Proof.
  destruct (get_status cx req w) as [d|] eqn:Hget.
  - apply get_status_data in Hget
      as (from & to & Hfrom & Hto & Hmatch & Hlogs & _).
    split; [by intros Hs; rewrite Hs in Hfrom|].
    split; [by intros He; rewrite He in Hto|].
    rewrite Hlogs, Hmatch. split; [rewrite length_take; lia|]. split.
    { apply sorted_window, StronglySorted_merge_sort; apply _. }
    intros l Hl. apply subseteq_take, subseteq_drop in Hl.
    rewrite merge_sort_Permutation in Hl.
    apply list_elem_of_filter in Hl as ((Hu & Hd & Hst & Hty & Hf & Ht) & Hin).
    conj_split; try done.
    + intros t Hs. rewrite Hs in Hfrom. by injection Hfrom as <-.
    + intros t He. rewrite He in Hto. by injection Hto as <-.
  - unfold get_status in Hget.
    destruct (st_startDate req) as [[t|]|]; simpl in Hget; auto;
      destruct (st_endDate req) as [[t'|]|]; simpl in Hget; auto; done.
Qed.

(** X19.  The pagination of the status listing adds up.  With a positive
    page size, [total] is the number of sessions the query selects and
    [pages] is the least number of pages that hold them:
    (pages - 1) * limit < total ≤ pages * limit, unless there is none.
    Walking through the pages 1 to [pages] meets every selected session
    exactly once, and any later page is empty. *)
Theorem status_pages_cover cx req w d :
  get_status cx req w = Some d →
  (0 < sd_limit d)%nat →
  sd_total d = length (status_matching cx req w) ∧
  (sd_total d ≤ sd_pages d * sd_limit d)%nat ∧
  (sd_pages d * sd_limit d < sd_total d + sd_limit d)%nat ∧
  status_pages cx req w (sd_pages d) ≡ₚ status_matching cx req w ∧
  ∀ page d', (sd_pages d < page)%nat →
    get_status cx (on_page page req) w = Some d' → sd_syncLogs d' = [].
Proof.
  intros Hget Hpos.
  destruct (get_status_data _ _ _ _ Hget)
    as (from & to & Hfrom & Hto & Hmatch & Hlogs & Hpage & Hlimit & Htotal & Hpages).
  destruct (Math_ceil_div_bounds (sd_total d) (sd_limit d) Hpos) as [Hlo Hhi].
  rewrite <- Hpages in Hlo, Hhi.
  split; [done|]. split; [done|]. split; [done|]. split.
  - unfold status_pages.
    rewrite (map_ext _
               (λ page, take (sd_limit d) (drop ((page - 1) * sd_limit d)
                  (merge_sort (newer_first s_startedAt)
                     (status_matching cx req w))))).
    + rewrite pages_concat, take_ge.
      * apply merge_sort_Permutation.
      * rewrite merge_sort_Permutation. lia.
    + intros page. unfold get_status, status_matching, on_page. simpl.
      rewrite Hfrom, Hto, Hlimit. done.
  - intros page d' Hlate Hget'.
    destruct (get_status_data _ _ _ _ Hget')
      as (_ & _ & _ & _ & _ & Hlogs' & Hpage' & Hlimit' & _).
    simpl in Hpage', Hlimit'. rewrite <- Hlimit in Hlimit'.
    assert (status_matching cx (on_page page req) w = status_matching cx req w)
      as Hsame by done.
    rewrite Hlogs', Hsame, Hpage', Hlimit'.
    rewrite drop_ge; [by rewrite take_nil|].
    rewrite merge_sort_Permutation. nia.
Qed.

(** X20.  [latestSync] of the status answer does not depend on the filters
    of the request: it is absent exactly when the caller has no completed
    session on this device, and otherwise it reports the completion time,
    sync type, operation and data types of one of the caller's completed
    sessions, none of which was completed later. *)
Theorem status_latest_sync cx req w d :
  get_status cx req w = Some d →
  match sd_latestSync d with
  | None => ∀ l, l ∈ w_synclogs w → ¬ own_completed cx l
  | Some latest =>
      ∃ l, l ∈ w_synclogs w ∧ own_completed cx l ∧
        latest = mkLatest (s_completedAt l) (s_syncType l) (s_operation l)
                   (s_dataTypes l) ∧
        ∀ l', l' ∈ w_synclogs w → own_completed cx l' →
          completed_not_after (s_completedAt l') (s_completedAt l)
  end.
Proof.
  unfold get_status.
  destruct (cast_bound (st_startDate req)) as [from|]; [|done].
  destruct (cast_bound (st_endDate req)) as [to|]; [|done].
  intros [= <-]. simpl. unfold SyncLog_latest_completed.
  set (own := λ l, s_userId l = caller_userId cx ∧
                   s_deviceId l = caller_deviceId cx ∧ s_status l = completed).
  assert (StronglySorted last_completed_first
            (merge_sort last_completed_first (filter own (w_synclogs w))))
    as Hsorted by (apply StronglySorted_merge_sort; apply _).
  assert (∀ l, l ∈ merge_sort last_completed_first (filter own (w_synclogs w)) ↔
               own l ∧ l ∈ w_synclogs w) as Hmem.
  { intros l. rewrite merge_sort_Permutation. apply list_elem_of_filter. }
  destruct (merge_sort last_completed_first (filter own (w_synclogs w)))
    as [|l rest]; simpl.
  - intros l Hl Hown. apply (elem_of_nil l), Hmem. by split.
  - exists l. destruct (proj1 (Hmem l)) as [Hown Hin]; [left|].
    split; [done|]. split; [done|]. split; [done|].
    intros l' Hl' Hown'.
    assert (l' ∈ l :: rest) as Hcase by (apply Hmem; by split).
    apply elem_of_cons in Hcase as [->|Hrest].
    + destruct (last_completed_first_total l l); done.
    + apply StronglySorted_inv in Hsorted as [_ Hall].
      rewrite Forall_forall in Hall. by apply Hall.
Qed.

(** *** The item loop, item by item *)

Lemma for_work_step cx dt item rest h o h1 :
  process_item env cx dt item h = (Val o, h1) →
  snd (for_work env cx ((dt, item) :: rest) h) = snd (for_work env cx rest h1).
Proof.
  intros Hitem. simpl. unfold mbind, M_bind. rewrite Hitem.
  by destruct (for_work env cx rest h1) as [[os|msg] h2].
Qed.

Lemma for_work_trace cx work h os h' k dt item :
  for_work env cx work h = (Val os, h') →
  work !! k = Some (dt, item) →
  ∃ o, os !! k = Some o ∧
    process_item env cx dt item (snd (for_work env cx (take k work) h)) =
      (Val o, snd (for_work env cx (take (S k) work) h)).
Proof.
  revert h os k. induction work as [|[dt0 item0] rest IH]; intros h os k Hrun Hk.
  - done.
  - apply for_work_cons in Hrun as (o & h1 & os' & Hitem & Hrest & ->).
    destruct k as [|k].
    + injection Hk as -> ->. exists o. split; [done|].
      rewrite take_0. simpl take.
      rewrite (for_work_step _ _ _ _ _ _ _ Hitem). simpl. by rewrite ?take_0.
    + destruct (IH _ _ _ Hrest Hk) as (o' & Ho' & Hstep).
      exists o'. split; [done|].
      change (take (S k) ((dt0, item0) :: rest))
        with ((dt0, item0) :: take k rest).
      change (take (S (S k)) ((dt0, item0) :: rest))
        with ((dt0, item0) :: take (S k) rest).
      by rewrite !(for_work_step _ _ _ _ _ _ _ Hitem).
Qed.

(** X21.  The loop of an upload handles its items one at a time: the
    outcome reported for the item at position [k] is the result of
    processing that item in the state the first [k] items left.  That step
    never removes a record, and when the item is not successful (it failed
    or ended as a conflict) the step leaves the Record Store exactly as it
    was. *)
Theorem upload_item_step cx req w k dt item :
  worklist (up_data req) (up_dataTypes req) !! k = Some (dt, item) →
  ∃ o,
    upload_outcomes env cx req w !! k = Some o ∧
    process_item env cx dt item (upload_state_after env cx req w k) =
      (Val o, upload_state_after env cx req w (S k)) ∧
    store_grows (upload_state_after env cx req w k)
      (upload_state_after env cx req w (S k)) ∧
    (is_succeeded o = false →
     record_store (upload_state_after env cx req w (S k)) =
       record_store (upload_state_after env cx req w k)).
Proof.
  intros Hk.
  destruct (upload_steps cx req w) as (os & h1 & h2 & Hrun & _ & -> & _).
  destruct (for_work_trace _ _ _ _ _ _ _ _ Hrun Hk) as (o & Ho & Hstep).
  exists o. split; [done|]. split; [exact Hstep|].
  apply process_item_store in Hstep as (Hgrow & Hkeep & _).
  by split.
Qed.

(** *** The progress block, item by item *)

(** C7, as the code has it.  At every point of an upload (when the session
    is created, after each item whatever its outcome, and when the call
    returns) the progress block of the session satisfies: processedItems =
    successfulItems + failedItems + skippedItems, every counter is
    non-negative, and percentage is
    [Math.round(processedItems / totalItems * 100)] when totalItems > 0 and 0
    otherwise.  The counters are written after each item that is processed
    successfully: the item is added to [results.successful], and
    processedItems, successfulItems and failedItems become
    |results.successful| + |results.failed|, |results.successful| and
    |results.failed| as they are then.  An item that ends as a conflict
    leaves the counters as they were. *)
Theorem upload_progress_invariant cx req w :
  (∀ k, progress_ok env (s_progress (h_log (upload_state_after env cx req w k)))) ∧
  progress_ok env (s_progress (upload_session env cx req w)) ∧
  (∀ k dataType item o,
     worklist (up_data req) (up_dataTypes req) !! k = Some (dataType, item) →
     upload_outcomes env cx req w !! k = Some o →
     let before := upload_state_after env cx req w k in
     let after := upload_state_after env cx req w (S k) in
     (o = Succeeded →
      Z_length (successful (h_results after)) =
        Z_length (successful (h_results before)) + 1 ∧
      failed_items (h_results after) = failed_items (h_results before) ∧
      processedItems (s_progress (h_log after)) =
        Z_length (successful (h_results after)) +
        Z_length (failed_items (h_results after)) ∧
      successfulItems (s_progress (h_log after)) =
        Z_length (successful (h_results after)) ∧
      failedItems (s_progress (h_log after)) =
        Z_length (failed_items (h_results after))) ∧
     (o = Conflicted →
      counters (s_progress (h_log after)) =
        counters (s_progress (h_log before)))).
Proof.
  split; [intros k; apply upload_progress_ok_after|].
  split; [apply upload_progress_ok_final|].
  intros k dt item o Hk Ho before after. subst before after.
  destruct (upload_steps cx req w) as (os & h1 & h2 & Hrun & _ & Hos & _).
  destruct (for_work_trace _ _ _ _ _ _ _ _ Hrun Hk) as (o' & Ho' & Hstep).
  rewrite Hos, Ho' in Ho. injection Ho as ->.
  apply process_item_effect in Hstep. unfold upload_state_after.
  unfold item_effect in Hstep.
  destruct Hstep as (_ & _ & Ht & Hsk & _ & Hcase). split.
  - intros ->.
    destruct Hcase as ([sid Hs] & Hf & _ & _ & _ & Hp & Hsu & Hfa).
    split; [|done]. rewrite Hs, Z_length_app. done.
  - intros ->.
    destruct Hcase as (_ & _ & _ & _ & _ & Hp & Hsu & Hfa & _).
    unfold counters. by rewrite Ht, Hsk, Hp, Hsu, Hfa.
Qed.

End Ledger.

(** * Examples *)

Lemma upload_final_status_example :
  s_status (upload_session plain_env nurse five_items_req fresh_world) = partial ∧
  failedItems (s_progress (upload_session plain_env nurse five_items_req fresh_world)) = 1 ∧
  successfulItems (s_progress (upload_session plain_env nurse five_items_req fresh_world)) = 4 ∧
  ∃ e, s_errors (upload_session plain_env nurse five_items_req fresh_world) = [e] ∧
       e_itemId e = itemId blank_item ∧ e_dataType e = Some "preferences" ∧
       e_message e = "Unsupported data type: preferences".
Proof.
  apply (proj2 (proj2 (proj2
           (upload_final_status plain_env nurse five_items_req fresh_world)))
           ("activities", activity_item "a1" 1) ("activities", activity_item "a2" 2)
           "preferences" blank_item
           ("user_profile", profile_item "u1" "Ada")
           ("user_profile", profile_item "u2" "Grace")).
  - vm_compute. reflexivity.
  - vm_compute. reflexivity.
Defined.

(** C6, as the specification states it, fails: with one activity under the
    listed type and one diagnosis under an unlisted type, totalItems is 2
    while the supplied set of data types holds 1 record, and the loop visits
    that one record only. *)
Lemma upload_total_counts_unlisted_types :
  totalItems (s_progress (upload_session plain_env nurse unlisted_req fresh_world)) = 2 ∧
  supplied_total (up_data unlisted_req) (up_dataTypes unlisted_req) = 1 ∧
  upload_outcomes plain_env nurse unlisted_req fresh_world = [Succeeded] ∧
  totalItems (s_progress (upload_session plain_env nurse unlisted_req fresh_world)) ≠
    supplied_total (up_data unlisted_req) (up_dataTypes unlisted_req).
Proof. vm_compute. repeat split; congruence. Qed.

(** C9, as the specification states it, fails: a resolution is not final.
    After the stale upload its conflict is in manual_review; resolving it as
    server_wins and then again as client_wins is accepted both times, and the
    entry ends as client_wins (a third call puts it back to manual_review,
    where the listing shows it again). *)
Lemma resolution_is_not_final :
  let w1 := snd (resolve_conflict plain_env nurse (resolve_d1 server_wins)
                   world_with_conflict) in
  let w2 := snd (resolve_conflict plain_env nurse (resolve_d1 client_wins) w1) in
  let w3 := snd (resolve_conflict plain_env nurse (resolve_d1 manual_review) w2) in
  resolutions world_with_conflict = [[manual_review]] ∧
  resolutions w1 = [[server_wins]] ∧
  fst (resolve_conflict plain_env nurse (resolve_d1 client_wins) w1) =
    ConflictResolved (Some "d1") client_wins ∧
  resolutions w2 = [[client_wins]] ∧
  resolutions w3 = [[manual_review]] ∧
  length (get_conflicts nurse 1 20 w2) = 0%nat ∧
  length (get_conflicts nurse 1 20 w3) = 1%nat.
Proof. vm_compute. by repeat split. Qed.

(** C5, as the specification states it, fails: a download that fetches one
    record leaves progress.totalItems at 0 while processedItems and
    successfulItems are 1. *)
Lemma download_total_items_not_set :
  count_fetched (download_data plain_env nurse activities_since_1000 stocked_world) = 1 ∧
  processedItems
    (s_progress (download_session plain_env nurse activities_since_1000 stocked_world)) = 1 ∧
  totalItems
    (s_progress (download_session plain_env nurse activities_since_1000 stocked_world)) = 0 ∧
  totalItems
    (s_progress (download_session plain_env nurse activities_since_1000 stocked_world)) ≠
    count_fetched (download_data plain_env nurse activities_since_1000 stocked_world).
Proof. vm_compute. repeat split; congruence. Qed.

Lemma diagnosis_conflict_decision_example :
  ∃ h',
    process_item plain_env nurse "diagnoses" stale_item
      (upload_opening plain_env nurse stale_req conflict_world) =
      (Val Conflicted, h') ∧
    w_diagnoses (h_world h') = [stored_diagnosis] ∧
    s_conflicts (h_log h') =
      [mkConflict (Some "d1") "diagnoses" concurrent_modification manual_review
         None None (Some stale_item) (Some stored_diagnosis) None] ∧
    conflicts (h_results h') =
      [mkReport (Some "d1") "diagnoses" "concurrent_modification"] ∧
    successful (h_results h') = [] ∧ failed_items (h_results h') = [].
Proof.
  destruct (diagnosis_conflict_decision plain_env nurse stale_item 10
              (upload_opening plain_env nurse stale_req conflict_world) eq_refl)
    as [_ Hfound].
  destruct (Hfound 0%nat stored_diagnosis 1704758400000 eq_refl eq_refl)
    as (_ & Hstale & _).
  apply Hstale. reflexivity.
Defined.

Lemma activity_upload_idempotent_example :
  let w1 := h_world (upload_state plain_env nurse one_activity_req fresh_world) in
  let w2 := h_world (upload_state plain_env nurse one_activity_req w1) in
  upload_outcomes plain_env nurse one_activity_req w1 = [Succeeded] ∧
  failed_items (upload_results plain_env nurse one_activity_req w1) = [] ∧
  w_activities w2 = w_activities w1 ∧
  (list_find (same_activity 7%nat "device-1" (Some "s-1") (Some "login") 1)
     (w_activities fresh_world) = None →
   length (filter (same_activity 7%nat "device-1" (Some "s-1") (Some "login") 1)
             (w_activities w2)) = 1%nat).
Proof.
  apply (proj2 (activity_upload_idempotent plain_env nurse (activity_item "a1" 1) 1
                  eq_refl) one_activity_req one_activity_req fresh_world).
  - vm_compute. reflexivity.
  - vm_compute. reflexivity.
  - vm_compute. reflexivity.
Defined.


Lemma conflict_not_counted_example :
  s_status (upload_session plain_env nurse stale_req conflict_world) = completed ∧
  processedItems (s_progress (upload_session plain_env nurse stale_req conflict_world)) = 0 ∧
  successfulItems (s_progress (upload_session plain_env nurse stale_req conflict_world)) = 0 ∧
  failedItems (s_progress (upload_session plain_env nurse stale_req conflict_world)) = 0 ∧
  0 < totalItems (s_progress (upload_session plain_env nurse stale_req conflict_world)) ∧
  successful (upload_results plain_env nurse stale_req conflict_world) = [] ∧
  failed_items (upload_results plain_env nurse stale_req conflict_world) = [].
Proof.
  apply (proj2 (conflict_not_counted plain_env nurse) stale_req conflict_world).
  - vm_compute. discriminate.
  - vm_compute. by repeat constructor.
Defined.


Lemma upload_total_items_example :
  Z_length (worklist (up_data five_items_req) (up_dataTypes five_items_req)) =
    supplied_total (up_data five_items_req) (up_dataTypes five_items_req).
Proof.
  apply (upload_total_items plain_env nurse five_items_req fresh_world).
  apply (bool_decide_unpack _). vm_compute. exact I.
Defined.

Lemma conflict_review_example :
  let w' := snd (resolve_conflict plain_env nurse (resolve_d1 merge)
                   world_with_conflict) in
  (w_activities w' = w_activities world_with_conflict ∧
   w_diagnoses w' = w_diagnoses world_with_conflict ∧
   w_users w' = w_users world_with_conflict) ∧
  resolutions world_with_conflict = [[manual_review]] ∧
  resolutions w' = [[merge]] ∧
  length (get_conflicts nurse 1 20 world_with_conflict) = 1%nat ∧
  get_conflicts nurse 1 20 w' = [].
Proof.
  split.
  - pose proof (proj1 (proj2 (conflict_review plain_env nurse))
                  (resolve_d1 merge) world_with_conflict) as H.
    exact (conj (proj1 H) (conj (proj1 (proj2 H)) (proj1 (proj2 (proj2 H))))).
  - vm_compute. by repeat split.
Defined.

Lemma upload_without_success_writes_nothing_example :
  record_store (upload_state plain_env nurse stale_req conflict_world) =
    (w_activities conflict_world, w_diagnoses conflict_world,
     w_users conflict_world).
Proof.
  apply (upload_without_success_writes_nothing plain_env nurse stale_req
           conflict_world).
  vm_compute. reflexivity.
Defined.

Lemma upload_processed_within_total_example :
  processedItems (s_progress (upload_session plain_env nurse five_items_req fresh_world)) ≤
    totalItems (s_progress (upload_session plain_env nurse five_items_req fresh_world)).
Proof.
  apply (upload_processed_within_total plain_env nurse five_items_req fresh_world).
  apply (bool_decide_unpack _). vm_compute. exact I.
Defined.

Lemma upload_session_duration_example :
  ∃ c, s_completedAt (upload_session plain_env nurse one_activity_req fresh_world) = Some c ∧
       s_duration (upload_session plain_env nurse one_activity_req fresh_world) =
         Some (c - s_startedAt (upload_session plain_env nurse one_activity_req fresh_world)) ∧
       0 ≤ c - s_startedAt (upload_session plain_env nurse one_activity_req fresh_world) ∧
       c ≤ s_updatedAt (upload_session plain_env nurse one_activity_req fresh_world).
Proof.
  apply (upload_session_duration plain_env nurse one_activity_req fresh_world).
  intros n m Hnm. simpl. lia.
Defined.

Lemma diagnosis_undated_kept_example :
  ∃ h',
    process_item plain_env nurse "diagnoses" undated_item (loop_start conflict_world) =
      (Val Succeeded, h') ∧
    record_store h' = record_store (loop_start conflict_world) ∧
    successful (h_results h') =
      successful (h_results (loop_start conflict_world)) ++
        [mkSuccess (itemId undated_item) "diagnoses" (Some (d__id stored_diagnosis))] ∧
    s_conflicts (h_log h') = s_conflicts (h_log (loop_start conflict_world)) ∧
    conflicts (h_results h') = conflicts (h_results (loop_start conflict_world)) ∧
    failed_items (h_results h') = failed_items (h_results (loop_start conflict_world)).
Proof.
  apply (diagnosis_undated_kept plain_env nurse undated_item 10
           (loop_start conflict_world) 0%nat stored_diagnosis);
    vm_compute; reflexivity.
Defined.

Lemma diagnosis_reupload_conflicts_example :
  ∃ doc h2,
    w_diagnoses (h_world (snd (process_item plain_env nurse "diagnoses"
                                 new_diagnosis_item (loop_start fresh_world)))) =
      w_diagnoses (h_world (loop_start fresh_world)) ++ [doc] ∧
    d_lastModified doc = clock plain_env (S (w_reads (h_world (loop_start fresh_world)))) ∧
    process_item plain_env nurse "diagnoses" new_diagnosis_item
      (snd (process_item plain_env nurse "diagnoses" new_diagnosis_item
              (loop_start fresh_world))) = (Val Conflicted, h2) ∧
    record_store h2 =
      record_store (snd (process_item plain_env nurse "diagnoses"
                           new_diagnosis_item (loop_start fresh_world))) ∧
    successful (h_results h2) =
      successful (h_results (snd (process_item plain_env nurse "diagnoses"
                                    new_diagnosis_item (loop_start fresh_world)))) ∧
    conflicts (h_results h2) =
      conflicts (h_results (snd (process_item plain_env nurse "diagnoses"
                                   new_diagnosis_item (loop_start fresh_world)))) ++
        [mkReport (itemId new_diagnosis_item) "diagnoses" "concurrent_modification"] ∧
    s_conflicts (h_log h2) =
      s_conflicts (h_log (snd (process_item plain_env nurse "diagnoses"
                                 new_diagnosis_item (loop_start fresh_world)))) ++
        [mkConflict (itemId new_diagnosis_item) "diagnoses" concurrent_modification
           manual_review None None (Some new_diagnosis_item) (Some doc) None].
Proof.
  apply (diagnosis_reupload_conflicts plain_env nurse new_diagnosis_item 10 20
           (loop_start fresh_world)); vm_compute; reflexivity.
Defined.

Lemma profile_item_applies_given_fields_example :
  ∃ h' u',
    process_item plain_env nurse "user_profile" first_name_item
      (loop_start fresh_world) = (Val Succeeded, h') ∧
    w_users (h_world h') = [u'] ∧
    u_firstName u' = Some "Ada" ∧ u_facility u' = None.
Proof.
  destruct (profile_item_applies_given_fields plain_env nurse first_name_item
              (loop_start fresh_world) 0%nat nurse_profile eq_refl eq_refl)
    as (h' & u' & Hrun & Husers & _ & Hfirst & _ & Hfac & _).
  exists h', u'. split; [exact Hrun|]. split; [exact Husers|].
  split; [exact Hfirst|exact Hfac].
Defined.

Lemma download_fetch_errors_example :
  map err_kind (s_errors (download_session plain_env nurse undated_download stocked_world)) =
    [("DATA_FETCH_ERROR", medium, Some "activities", None);
     ("DATA_FETCH_ERROR", medium, Some "diagnoses", None)] ∧
  s_status (download_session plain_env nurse undated_download stocked_world) = completed.
Proof.
  destruct (proj2 (download_fetch_errors plain_env nurse undated_download
                     stocked_world) eq_refl) as (Herr & _ & _ & Hst).
  split; [exact Herr|exact Hst].
Defined.

Lemma download_newest_first_example :
  StronglySorted (newer_first a_updatedAt) [synced_activity 2 7%nat 1001].
Proof.
  apply (download_newest_first plain_env nurse activities_since_1000
           stocked_world 1000 eq_refl).
  vm_compute. reflexivity.
Defined.

Lemma upload_then_download_example :
  ∃ doc l,
    w_activities (h_world (upload_state plain_env nurse dated_activity_req fresh_world)) =
      w_activities fresh_world ++ [doc] ∧
    (doc ∉ w_activities fresh_world) ∧
    a_timestamp doc = 1 ∧ a_rest doc = item_rest dated_activity_item ∧
    a_updatedAt doc =
      default (clock plain_env (S (S (S (w_reads fresh_world)))))
        (item_createdAt dated_activity_item) ∧
    dd_activities
      (download_data plain_env nurse activities_since_1000
         (h_world (upload_state plain_env nurse dated_activity_req fresh_world))) =
      Some l ∧
    (1000 < a_updatedAt doc → doc ∈ l) ∧
    (a_updatedAt doc ≤ 1000 → doc ∉ l).
Proof.
  apply (upload_then_download plain_env nurse dated_activity_req
           dated_activity_item 1 activities_since_1000 1000 fresh_world).
  - vm_compute. reflexivity.
  - reflexivity.
  - reflexivity.
  - vm_compute. reflexivity.
  - apply (bool_decide_unpack _). vm_compute. exact I.
  - reflexivity.
  - simpl. lia.
Defined.

Lemma conflicts_listing_complete_example :
  mkListing 1 1700000000000
    (mkConflict (Some "d1") "diagnoses" concurrent_modification manual_review
       None None (Some stale_item) (Some stored_diagnosis) None)
    ∈ get_conflicts nurse 1 20 world_with_conflict.
Proof.
  apply (conflicts_listing_complete nurse 20 world_with_conflict
           (upload_session plain_env nurse stale_req conflict_world)).
  - vm_compute. left.
  - reflexivity.
  - reflexivity.
  - vm_compute. left.
  - reflexivity.
  - vm_compute. lia.
Defined.

Lemma upload_conflicts_listed_example :
  mkListing (s__id (upload_session plain_env nurse stale_req conflict_world))
    (s_startedAt (upload_session plain_env nurse stale_req conflict_world))
    (mkConflict (Some "d1") "diagnoses" concurrent_modification manual_review
       None None (Some stale_item) (Some stored_diagnosis) None)
    ∈ get_conflicts nurse 1 20
        (h_world (upload_state plain_env nurse stale_req conflict_world)).
Proof.
  apply (upload_conflicts_listed plain_env nurse stale_req conflict_world 20).
  - simpl. lia.
  - vm_compute. left.
Defined.

Lemma resolve_conflict_needs_owner_example :
  resolve_conflict plain_env visitor (resolve_d1 server_wins) world_with_conflict =
    (SyncLogNotFound, world_with_conflict).
Proof.
  apply (resolve_conflict_needs_owner plain_env visitor (resolve_d1 server_wins)
           world_with_conflict).
  apply (bool_decide_unpack _). vm_compute. exact I.
Defined.

Lemma status_pages_cover_example :
  sd_total status_example =
    length (status_matching nurse completed_uploads three_sessions_world) ∧
  (sd_total status_example ≤ sd_pages status_example * sd_limit status_example)%nat ∧
  (sd_pages status_example * sd_limit status_example <
     sd_total status_example + sd_limit status_example)%nat ∧
  status_pages nurse completed_uploads three_sessions_world
    (sd_pages status_example) ≡ₚ
    status_matching nurse completed_uploads three_sessions_world ∧
  ∀ page d', (sd_pages status_example < page)%nat →
    get_status nurse (on_page page completed_uploads) three_sessions_world =
      Some d' →
    sd_syncLogs d' = [].
Proof.
  apply (status_pages_cover nurse completed_uploads three_sessions_world
           status_example).
  - vm_compute. reflexivity.
  - vm_compute. lia.
Defined.

Lemma status_latest_sync_example :
  match sd_latestSync status_example with
  | None => ∀ l, l ∈ w_synclogs three_sessions_world → ¬ own_completed nurse l
  | Some latest =>
      ∃ l, l ∈ w_synclogs three_sessions_world ∧ own_completed nurse l ∧
        latest = mkLatest (s_completedAt l) (s_syncType l) (s_operation l)
                   (s_dataTypes l) ∧
        ∀ l', l' ∈ w_synclogs three_sessions_world → own_completed nurse l' →
          completed_not_after (s_completedAt l') (s_completedAt l)
  end.
Proof.
  apply (status_latest_sync nurse completed_uploads three_sessions_world
           status_example).
  vm_compute. reflexivity.
Defined.

Lemma upload_item_step_example :
  ∃ o,
    upload_outcomes plain_env nurse five_items_req fresh_world !! 2%nat = Some o ∧
    process_item plain_env nurse "preferences" blank_item
      (upload_state_after plain_env nurse five_items_req fresh_world 2) =
      (Val o, upload_state_after plain_env nurse five_items_req fresh_world 3) ∧
    store_grows (upload_state_after plain_env nurse five_items_req fresh_world 2)
      (upload_state_after plain_env nurse five_items_req fresh_world 3) ∧
    (is_succeeded o = false →
     record_store (upload_state_after plain_env nurse five_items_req fresh_world 3) =
       record_store (upload_state_after plain_env nurse five_items_req fresh_world 2)).
Proof.
  apply (upload_item_step plain_env nurse five_items_req fresh_world 2
           "preferences" blank_item).
  vm_compute. reflexivity.
Defined.

Lemma upload_progress_invariant_example :
  Z_length (successful (h_results (upload_state_after plain_env nurse five_items_req
                                     fresh_world 1))) =
    Z_length (successful (h_results (upload_state_after plain_env nurse
                                       five_items_req fresh_world 0))) + 1 ∧
  failed_items (h_results (upload_state_after plain_env nurse five_items_req
                             fresh_world 1)) =
    failed_items (h_results (upload_state_after plain_env nurse five_items_req
                               fresh_world 0)) ∧
  processedItems (s_progress (h_log (upload_state_after plain_env nurse
                                       five_items_req fresh_world 1))) =
    Z_length (successful (h_results (upload_state_after plain_env nurse
                                       five_items_req fresh_world 1))) +
    Z_length (failed_items (h_results (upload_state_after plain_env nurse
                                         five_items_req fresh_world 1))) ∧
  successfulItems (s_progress (h_log (upload_state_after plain_env nurse
                                        five_items_req fresh_world 1))) =
    Z_length (successful (h_results (upload_state_after plain_env nurse
                                       five_items_req fresh_world 1))) ∧
  failedItems (s_progress (h_log (upload_state_after plain_env nurse
                                    five_items_req fresh_world 1))) =
    Z_length (failed_items (h_results (upload_state_after plain_env nurse
                                         five_items_req fresh_world 1))).
Proof.
  apply (proj2 (proj2 (upload_progress_invariant plain_env nurse five_items_req
                         fresh_world))
           0%nat "activities" (activity_item "a1" 1) Succeeded).
  - vm_compute. reflexivity.
  - vm_compute. reflexivity.
  - reflexivity.
Defined.

(** C7, as the specification words it, fails: the one item of this upload
    is handled (it ends as a conflict, and the loop is over), and the
    progress counters after it are those the session was created with:
    processedItems is 0 for one item. *)
Lemma progress_not_updated_after_conflict :
  worklist (up_data stale_req) (up_dataTypes stale_req) =
    [("diagnoses", stale_item)] ∧
  upload_outcomes plain_env nurse stale_req conflict_world = [Conflicted] ∧
  counters (s_progress (h_log (upload_state_after plain_env nurse stale_req
                                 conflict_world 1))) =
    counters (s_progress (h_log (upload_state_after plain_env nurse stale_req
                                   conflict_world 0))) ∧
  counters (s_progress (upload_session plain_env nurse stale_req conflict_world)) =
    (1, 0, 0, 0, 0).
Proof. vm_compute. by repeat split. Qed.

(** C8.  The item of this upload is of an unsupported data type: it is
    caught, entered in [results.failed] and in the session's errors, the
    answer reports one failed item and the session ends [partial]; the
    session's failedItems and processedItems are 0 all the same, since the
    catch block does not write the counters. *)
Lemma failed_item_not_counted :
  upload_outcomes plain_env nurse one_unsupported_req fresh_world =
    [Failed "Unsupported data type: preferences"] ∧
  (∃ syncId details,
     fst (upload plain_env nurse one_unsupported_req fresh_world) =
       Val (UploadDone partial syncId 0 1 0 details,
            [Failed "Unsupported data type: preferences"])) ∧
  s_status (upload_session plain_env nurse one_unsupported_req fresh_world) = partial ∧
  failed_items (upload_results plain_env nurse one_unsupported_req fresh_world) =
    [mkFailure None "preferences" "Unsupported data type: preferences"] ∧
  map err_ref (s_errors (upload_session plain_env nurse one_unsupported_req fresh_world)) =
    [("ITEM_PROCESSING_ERROR", "Unsupported data type: preferences", medium,
      Some "preferences", None)] ∧
  counters (s_progress (upload_session plain_env nurse one_unsupported_req fresh_world)) =
    (1, 0, 0, 0, 0).
Proof.
  vm_compute. split; [done|]. split; [by eexists _, _|]. by repeat split.
Qed.
